(** * tvini_helper: device discovery, polling and mirror sessions

    A shallow embedding of the device-discovery / process-coordination core
    of [tvini_helper.py] and the properties its specification states.

    Text.  A Python [str] is a [list ascii].  The embedding covers ASCII
    text: whitespace, digits, line boundaries and letter case are the ASCII
    ones of [str.isspace], [\d], [str.splitlines] and [str.lower].

    Effects.  Every subprocess invocation is answered by an environment
    indexed by the number of invocations made so far, so that two runs of
    the same command may answer differently; exceptions are explicit
    results. *)

From Stdlib Require Import ZArith Ascii String List Bool Lia.
From stdpp Require Import base option list gmap strings pretty.
Import ListNotations.

Open Scope Z_scope.

Abbreviation str := (list ascii).

(** A literal. *)
Abbreviation txt := list_ascii_of_string.

(* ===================================================================== *)
(** * Python text primitives *)
(* ===================================================================== *)

Definition code (c : ascii) : N := N_of_ascii c.

(** [str.isspace] on one character. *)
Definition is_space (c : ascii) : bool :=
  ((9 <=? code c) && (code c <=? 13) || (28 <=? code c) && (code c <=? 32))%N.

(** [\d] *)
Definition is_digit (c : ascii) : bool :=
  ((48 <=? code c) && (code c <=? 57))%N.

Definition digit_val (c : ascii) : Z := Z.of_N (code c) - 48.

Definition is_upper (c : ascii) : bool :=
  ((65 <=? code c) && (code c <=? 90))%N.

Definition lower_char (c : ascii) : ascii :=
  if is_upper c then ascii_of_N (code c + 32) else c.

(** [s.lower()] *)
Definition lower (s : str) : str := map lower_char s.

Fixpoint lstrip (s : str) : str :=
  match s with
  | c :: s' => if is_space c then lstrip s' else s
  | [] => []
  end.

Definition rstrip (s : str) : str := rev (lstrip (rev s)).

(** [s.strip()] *)
Definition strip (s : str) : str := rstrip (lstrip s).

Fixpoint starts_with (p s : str) : bool :=
  match p, s with
  | [], _ => true
  | a :: p', b :: s' => if Ascii.eqb a b then starts_with p' s' else false
  | _ :: _, [] => false
  end.

(** [needle in hay] *)
Fixpoint contains (needle hay : str) : bool :=
  starts_with needle hay ||
  match hay with
  | [] => false
  | _ :: hay' => contains needle hay'
  end.

(** [s.split()]: maximal runs of non-whitespace; [cur] is the run being
    read, most recent character first. *)
Fixpoint split_ws_from (cur s : str) : list str :=
  match s with
  | [] => match cur with [] => [] | _ => [rev cur] end
  | c :: s' =>
      if is_space c
      then match cur with
           | [] => split_ws_from [] s'
           | _ => rev cur :: split_ws_from [] s'
           end
      else split_ws_from (c :: cur) s'
  end.

Definition split_ws (s : str) : list str := split_ws_from [] s.

(** [s.split(sep)] for a one-character separator: never empty. *)
Fixpoint split_sep_from (sep : ascii) (cur s : str) : list str :=
  match s with
  | [] => [rev cur]
  | c :: s' =>
      if Ascii.eqb c sep
      then rev cur :: split_sep_from sep [] s'
      else split_sep_from sep (c :: cur) s'
  end.

Definition split_sep (sep : ascii) (s : str) : list str := split_sep_from sep [] s.

(** [s.split(sep, 1)]: one piece, or the text before and after the first
    separator. *)
Fixpoint split_sep1_from (sep : ascii) (cur s : str) : list str :=
  match s with
  | [] => [rev cur]
  | c :: s' =>
      if Ascii.eqb c sep
      then [rev cur; s']
      else split_sep1_from sep (c :: cur) s'
  end.

Definition split_sep1 (sep : ascii) (s : str) : list str := split_sep1_from sep [] s.

Definition is_linebreak (c : ascii) : bool :=
  ((10 <=? code c) && (code c <=? 13) || (28 <=? code c) && (code c <=? 30))%N.

(** [s.splitlines()]: a carriage return directly followed by a line feed
    is one boundary; no empty last line after a final boundary. *)
Fixpoint splitlines_from (cur s : str) : list str :=
  match s with
  | [] => match cur with [] => [] | _ => [rev cur] end
  | c :: s' =>
      if is_linebreak c
      then match s' with
           | c2 :: s'' =>
               if ((code c =? 13) && (code c2 =? 10))%N
               then rev cur :: splitlines_from [] s''
               else rev cur :: splitlines_from [] s'
           | [] => [rev cur]
           end
      else splitlines_from (c :: cur) s'
  end.

Definition splitlines (s : str) : list str := splitlines_from [] s.

(** Digits with single underscores between them, as [int] accepts;
    [prev] tells whether the previous character was a digit. *)
Fixpoint int_digits (acc : Z) (prev : bool) (s : str) : option Z :=
  match s with
  | [] => if prev then Some acc else None
  | c :: s' =>
      if is_digit c then int_digits (10 * acc + digit_val c) true s'
      else if (code c =? 95)%N
           then (if prev then int_digits acc false s' else None)
           else None
  end.

(** The whitespace that [int] skips around a literal: tab, the line
    breaks 10 to 13 and the space.  The separators 28 to 31, which
    [str.strip] removes, are not skipped. *)
Definition is_c_space (c : ascii) : bool :=
  ((9 <=? code c) && (code c <=? 13) || (code c =? 32))%N.

Fixpoint skip_c_space (s : str) : str :=
  match s with
  | c :: s' => if is_c_space c then skip_c_space s' else s
  | [] => []
  end.

Definition int_strip (s : str) : str := rev (skip_c_space (rev (skip_c_space s))).

(** The interpreter's default limit on the number of digits [int]
    converts ([sys.get_int_max_str_digits()]). *)
Definition INT_MAX_STR_DIGITS : Z := 4300.

(** The digits after the sign: too many of them, or a misplaced
    character, is a [ValueError]. *)
Definition int_body (negative : bool) (body : str) : option Z :=
  if INT_MAX_STR_DIGITS <? Z.of_nat (length (List.filter is_digit body)) then None
  else match int_digits 0 false body with
       | Some n => Some (if negative then - n else n)
       | None => None
       end.

(** [int(s)] in base ten; [None] stands for [ValueError]. *)
Definition py_int (s : str) : option Z :=
  match int_strip s with
  | c :: s' =>
      if (code c =? 45)%N then int_body true s'
      else if (code c =? 43)%N then int_body false s'
      else int_body false (c :: s')
  | [] => None
  end.

(** Order of tuples of integers: the first differing component decides,
    and a proper prefix is the smaller. *)
Fixpoint tuple_lt (a b : list Z) : bool :=
  match a, b with
  | [], [] => false
  | [], _ :: _ => true
  | _ :: _, [] => false
  | x :: a', y :: b' => if x =? y then tuple_lt a' b' else x <? y
  end.

Definition tuple_gt (a b : list Z) : bool := tuple_lt b a.

(* ===================================================================== *)
(** * Update check *)
(* ===================================================================== *)

(** What [json.loads] can return; an object is given by its items, whose
    keys are distinct. *)
#[warnings="-register-all"]
Inductive json :=
  | JNull
  | JBool (b : bool)
  | JNum (n : Z)
  | JStr (s : str)
  | JArr (xs : list json)
  | JObj (kv : list (str * json)).

Definition VERSION : str := (txt "2.0.0").

(** [tuple(int(p) for p in parts)]; [None] when some [int(p)] raises. *)
Fixpoint int_tuple (parts : list str) : option (list Z) :=
  match parts with
  | [] => Some []
  | p :: ps =>
      match py_int p with
      | Some n => cons n <$> int_tuple ps
      | None => None
      end
  end.

(** [_parse_version]: a non-string has no [strip] (AttributeError), a bad
    component makes [int] raise (ValueError); both give [(0, 0, 0)]. *)
Definition _parse_version (version_str : json) : list Z :=
  match version_str with
  | JStr s =>
      match int_tuple (split_sep "." (strip s)) with
      | Some t => t
      | None => [0; 0; 0]
      end
  | _ => [0; 0; 0]
  end.

(** [d.get(key, default)] on the items of a decoded object. *)
Fixpoint obj_get (kv : list (str * json)) (key : str) (default : json) : json :=
  match kv with
  | [] => default
  | (k, v) :: kv' => if decide (k = key) then v else obj_get kv' key default
  end.

(** Outcome of the request and of decoding its body. *)
Inductive fetch_result :=
  | FetchFailed
  | FetchDecoded (data : json).

(** [_check_for_update]: any exception inside the [try] is printed and
    the function returns [None]. *)
Definition _check_for_update (resp : fetch_result) : option json :=
  match resp with
  | FetchFailed => None
  | FetchDecoded data =>
      match data with
      | JObj kv =>
          let latest_version := obj_get kv (txt "latest") (JStr (txt "0.0.0")) in
          if tuple_gt (_parse_version latest_version) (_parse_version (JStr VERSION))
          then Some data
          else None
      | _ => None
      end
  end.


(* ===================================================================== *)
(** * Regular expressions of the property parsers *)
(* ===================================================================== *)

(** The two patterns in the source are sequences of one-character classes,
    each taken once, one or more times, or zero or more times; repetition
    is greedy and gives characters back one at a time. *)
Inductive quant := One | Plus | Star.

Record atom := Atom {
  accepts : ascii -> bool;
  times : quant;
  grouped : bool              (* inside the parentheses of group 1 *)
}.

Definition keep (a : atom) (c : ascii) (g : str) : str :=
  if grouped a then c :: g else g.

(** Zero or more characters of [a], as many as possible first, then
    [rest]; a character is given back whenever what follows fails. *)
Fixpoint greedy (a : atom) (rest : str -> option str) (s : str) : option str :=
  match s with
  | c :: s' =>
      if accepts a c
      then match greedy a rest s' with
           | Some g => Some (keep a c g)
           | None => rest s
           end
      else rest s
  | [] => rest []
  end.

(** Match [pat] at the start of the text; the result is the text of
    group 1. *)
Fixpoint match_here (pat : list atom) : str -> option str :=
  match pat with
  | [] => fun _ => Some []
  | a :: pat' =>
      let rest := match_here pat' in
      match times a with
      | Star => greedy a rest
      | One => fun s =>
          match s with
          | c :: s' => if accepts a c then keep a c <$> rest s' else None
          | [] => None
          end
      | Plus => fun s =>
          match s with
          | c :: s' => if accepts a c then keep a c <$> greedy a rest s' else None
          | [] => None
          end
      end
  end.

(** [re.search(pat, s)]: the match at the leftmost position that has
    one; the result is [m.group(1)]. *)
Fixpoint re_search (pat : list atom) (s : str) : option str :=
  match match_here pat s with
  | Some g => Some g
  | None =>
      match s with
      | [] => None
      | _ :: s' => re_search pat s'
      end
  end.

Definition lit (c : ascii) : atom := Atom (Ascii.eqb c) One false.

(** [(\d+x\d+)] *)
Definition RESOLUTION_RE : list atom :=
  [Atom is_digit Plus true; Atom (Ascii.eqb "x") One true; Atom is_digit Plus true].

(** [level:\s*(\d+)] *)
Definition BATTERY_RE : list atom :=
  map lit (txt "level:") ++ [Atom is_space Star false; Atom is_digit Plus true].

(* ===================================================================== *)
(** * Exceptions and the subprocess environment *)
(* ===================================================================== *)

(** The exceptions the modelled code can meet; all derive from
    [Exception]. *)
Inductive exn :=
  | TimeoutExpired          (* subprocess.TimeoutExpired *)
  | FileNotFoundError       (* a subclass of OSError *)
  | OSError                 (* any other OSError *)
  | ValueError              (* also UnicodeDecodeError when decoding output *)
  | IndexError
  | KeyError
  | AttributeError
  | TypeError
  | RuntimeError.

Inductive result (A : Type) :=
  | Ok (a : A)
  | Raise (e : exn).
Arguments Ok {A} a.
Arguments Raise {A} e.

(** Outcome of one [subprocess.run(..., capture_output=True, text=True)]. *)
Inductive run_outcome :=
  | Completed (stdout : str)
  | Failed (e : exn).

(** Computations that invoke subprocesses: the state is the number of
    invocations made so far. *)
Definition M (A : Type) : Type := nat -> result A * nat.

Definition ret {A} (a : A) : M A := fun n => (Ok a, n).
Definition raise {A} (e : exn) : M A := fun n => (Raise e, n).
Definition bind {A B} (m : M A) (k : A -> M B) : M B :=
  fun n => match m n with
           | (Ok a, n') => k a n'
           | (Raise e, n') => (Raise e, n')
           end.

#[export] Instance M_ret : MRet M := @ret.
#[export] Instance M_bind : MBind M := fun A B k m => bind m k.

(** Values stored in a device dictionary. *)
Inductive value :=
  | VStr (s : str)
  | VInt (n : Z)
  | VNone.

#[export] Instance value_eq_dec : EqDecision value.
Proof. solve_decision. Defined.

#[export] Instance value_countable : Countable value :=
  inj_countable'
    (fun v => match v with
              | VStr s => inl s
              | VInt n => inr (Some n)
              | VNone => inr None
              end)
    (fun x => match x with
              | inl s => VStr s
              | inr (Some n) => VInt n
              | inr None => VNone
              end)
    (fun v => match v with VStr _ | VInt _ | VNone => eq_refl end).

(** [bool(v)] as used by [or]. *)
Definition truthy (v : value) : bool :=
  match v with
  | VStr [] => false
  | VStr _ => true
  | VInt n => negb (n =? 0)
  | VNone => false
  end.

(** [a or b] *)
Definition py_or (a b : value) : value := if truthy a then a else b.

(** [d.get(k, default)] *)
Definition dict_get (d : gmap str value) (k : str) (default : value) : value :=
  match d !! k with
  | Some v => v
  | None => default
  end.

Section Bridge.

(** The answer to the [n]-th subprocess invocation, given its argument
    vector. *)
Variable run : nat -> list str -> run_outcome.

(** [subprocess.run(argv, ...)], its exception made a value. *)
Definition subprocess_run (argv : list str) : M run_outcome :=
  fun n => (Ok (run n argv), S n).

(** [_adb_prop] *)
Definition _adb_prop (adb serial prop : str) : M str :=
  r ← subprocess_run [adb; txt "-s"; serial; txt "shell"; txt "getprop"; prop];
  match r with
  | Completed stdout => ret (strip stdout)
  | Failed _ => ret []
  end.

(** [_get_resolution] *)
Definition _get_resolution (adb serial : str) : M str :=
  r ← subprocess_run [adb; txt "-s"; serial; txt "shell"; txt "wm"; txt "size"];
  match r with
  | Completed stdout =>
      match re_search RESOLUTION_RE stdout with
      | Some g => ret g
      | None => ret []
      end
  | Failed _ => ret []
  end.

(** [_get_battery]; a failing [int] would be caught like the rest. *)
Definition _get_battery (adb serial : str) : M value :=
  r ← subprocess_run [adb; txt "-s"; serial; txt "shell"; txt "dumpsys"; txt "battery"];
  match r with
  | Completed stdout =>
      match re_search BATTERY_RE stdout with
      | Some g =>
          match py_int g with
          | Some n => ret (VInt n)
          | None => ret VNone
          end
      | None => ret VNone
      end
  | Failed _ => ret VNone
  end.

(** The loop over [parts[2:]]: [k, v = part.split(":", 1)] raises
    ValueError unless the split has two pieces. *)
Fixpoint collect_aux (tokens : list str) (info : gmap str value)
  : result (gmap str value) :=
  match tokens with
  | [] => Ok info
  | part :: tokens' =>
      if contains (txt ":") part
      then match split_sep1 ":" part with
           | [k; v] => collect_aux tokens' (<[k := VStr v]> info)
           | _ => Raise ValueError
           end
      else collect_aux tokens' info
  end.

(** The body of [if status == "device":]. *)
Definition query_properties (adb_path serial : str) (info : gmap str value)
  : M (gmap str value) :=
  model ← _adb_prop adb_path serial (txt "ro.product.model");
  let info := <[txt "model" :=
                py_or (VStr model) (dict_get info (txt "model") (VStr serial))]> info in
  manufacturer ← _adb_prop adb_path serial (txt "ro.product.manufacturer");
  let info := <[txt "manufacturer" := py_or (VStr manufacturer) (VStr [])]> info in
  release ← _adb_prop adb_path serial (txt "ro.build.version.release");
  let info := <[txt "android_version" := py_or (VStr release) (VStr [])]> info in
  sdk ← _adb_prop adb_path serial (txt "ro.build.version.sdk");
  let info := <[txt "sdk" := py_or (VStr sdk) (VStr [])]> info in
  resolution ← _get_resolution adb_path serial;
  let info := <[txt "resolution" := VStr resolution]> info in
  battery ← _get_battery adb_path serial;
  ret (<[txt "battery" := battery]> info).

(** What one pass of the loop body does with the list being built. *)
Inductive line_action :=
  | Continue                              (* a [continue] was taken *)
  | Append (info : gmap str value).       (* [devices.append(info)] *)

(** The body of the [for line in ...] loop. *)
Definition scan_line (adb_path line : str) : M line_action :=
  let line := strip line in
  if bool_decide (line = []) || contains (txt "offline") line then ret Continue
  else
    let parts := split_ws line in
    match parts with
    | [] => raise IndexError
    | serial :: _ =>
        let status :=
          if bool_decide (1 < length parts)%nat
          then nth 1 parts [] else txt "unknown" in
        if negb (bool_decide (status = txt "device")
                 || bool_decide (status = txt "unauthorized"))
        then ret Continue
        else
          let info : gmap str value :=
            <[txt "status" := VStr status]> (<[txt "serial" := VStr serial]> ∅) in
          match collect_aux (skipn 2 parts) info with
          | Raise e => raise e
          | Ok info =>
              if bool_decide (status = txt "device")
              then info ← query_properties adb_path serial info; ret (Append info)
              else ret (Append info)
          end
    end.

Fixpoint scan_lines (adb_path : str) (lines : list str)
  (devices : list (gmap str value)) : M (list (gmap str value)) :=
  match lines with
  | [] => ret devices
  | line :: lines' =>
      act ← scan_line adb_path line;
      match act with
      | Continue => scan_lines adb_path lines' devices
      | Append info => scan_lines adb_path lines' (devices ++ [info])
      end
  end.

(** [get_adb_devices] *)
Definition get_adb_devices (adb_path : str) : M (list (gmap str value)) :=
  r ← subprocess_run [adb_path; txt "devices"; txt "-l"];
  match r with
  | Failed TimeoutExpired | Failed FileNotFoundError | Failed OSError => ret []
  | Failed e => raise e
  | Completed stdout => scan_lines adb_path (skipn 1 (splitlines (strip stdout))) []
  end.

End Bridge.


(* ===================================================================== *)
(** * The application object *)
(* ===================================================================== *)

Definition ACCENT : str := txt "#00D68F".
Definition TEXT_MUTED : str := txt "#4A5568".
Definition RED : str := txt "#FF6B6B".
Definition YELLOW : str := txt "#FFD93D".

(** [d[k]] *)
Definition dict_item (d : gmap str value) (k : str) : result value :=
  match d !! k with
  | Some v => Ok v
  | None => Raise KeyError
  end.

(** [str(v)] as an f-string inserts it. *)
Definition format_value (v : value) : str :=
  match v with
  | VStr s => s
  | VInt n => txt (pretty n)
  | VNone => txt "None"
  end.

(** A card widget.  Its labels and colours are presentation; what is kept
    is the device it shows, its click latch, and whether it was
    destroyed. *)
Record DeviceCard := Card {
  device : gmap str value;
  _is_mirroring : bool;
  destroyed : bool
}.

(** A value is a [str]. *)
Definition is_str (v : value) : bool :=
  match v with
  | VStr _ => true
  | _ => false
  end.

(** [DeviceCard.__init__]: the statements that can raise, in the order
    they run: [.capitalize()] on the manufacturer (AttributeError unless
    it is a string), [device["serial"]], the [join] of the sub-title parts
    (TypeError unless each is a string; the parts are the Android text,
    a truthy resolution and the serial), [device["status"]], and the
    comparison [battery > 30] (TypeError for a string). *)
Definition DeviceCard_init (dev : gmap str value) : result DeviceCard :=
  match dict_get dev (txt "manufacturer") (VStr []) with
  | VInt _ | VNone => Raise AttributeError
  | VStr _ =>
      match dict_item dev (txt "serial") with
      | Raise e => Raise e
      | Ok serial =>
          let android_version := dict_get dev (txt "android_version") VNone in
          let resolution := dict_get dev (txt "resolution") VNone in
          let sub_parts :=
            (if truthy android_version
             then [VStr (txt "Android " ++ format_value android_version)] else [])
            ++ (if truthy resolution then [resolution] else [])
            ++ [serial] in
          if negb (forallb is_str sub_parts) then Raise TypeError
          else
            match dict_item dev (txt "status") with
            | Raise e => Raise e
            | Ok status =>
                if bool_decide (status = VStr (txt "unauthorized"))
                then Ok (Card dev false false)
                else match dev !! txt "battery" with
                     | Some (VStr _) => Raise TypeError
                     | _ => Ok (Card dev false false)
                     end
            end
      end
  end.

(** What the empty frame shows, chosen by [_build_empty_state]. *)
Inductive empty_content := AdbNotFound | ScrcpyNotFound | NoDevicesConnected.

Record AndroidMirrorApp := App {
  adb_path : option str;
  scrcpy_path : option str;
  current_devices : list (gmap str value);
  device_cards : list nat;                 (* references into [widgets] *)
  active_mirrors : gmap value nat;         (* serial -> process handle *)
  device_count_label : str * str;          (* text, text_color *)
  empty_frame : empty_content * bool;      (* content, packed *)
  widgets : gmap nat DeviceCard;           (* the card objects *)
  next_widget : nat;
  toasts : list (str * str)                (* [_show_toast] calls, oldest first *)
}.

Definition with_count_label (l : str * str) (a : AndroidMirrorApp) : AndroidMirrorApp :=
  App (adb_path a) (scrcpy_path a) (current_devices a) (device_cards a)
      (active_mirrors a) l (empty_frame a) (widgets a) (next_widget a) (toasts a).

Definition with_current_devices (ds : list (gmap str value)) (a : AndroidMirrorApp)
  : AndroidMirrorApp :=
  App (adb_path a) (scrcpy_path a) ds (device_cards a)
      (active_mirrors a) (device_count_label a) (empty_frame a) (widgets a)
      (next_widget a) (toasts a).

Definition with_cards (cards : list nat) (w : gmap nat DeviceCard) (next : nat)
  (a : AndroidMirrorApp) : AndroidMirrorApp :=
  App (adb_path a) (scrcpy_path a) (current_devices a) cards
      (active_mirrors a) (device_count_label a) (empty_frame a) w next (toasts a).

Definition with_empty_frame (e : empty_content * bool) (a : AndroidMirrorApp)
  : AndroidMirrorApp :=
  App (adb_path a) (scrcpy_path a) (current_devices a) (device_cards a)
      (active_mirrors a) (device_count_label a) e (widgets a) (next_widget a) (toasts a).

Definition with_active_mirrors (m : gmap value nat) (a : AndroidMirrorApp)
  : AndroidMirrorApp :=
  App (adb_path a) (scrcpy_path a) (current_devices a) (device_cards a)
      m (device_count_label a) (empty_frame a) (widgets a) (next_widget a) (toasts a).

Definition with_paths (adb scrcpy : option str) (a : AndroidMirrorApp) : AndroidMirrorApp :=
  App adb scrcpy (current_devices a) (device_cards a)
      (active_mirrors a) (device_count_label a) (empty_frame a) (widgets a)
      (next_widget a) (toasts a).

(** [_show_toast] *)
Definition _show_toast (message color : str) (a : AndroidMirrorApp) : AndroidMirrorApp :=
  App (adb_path a) (scrcpy_path a) (current_devices a) (device_cards a)
      (active_mirrors a) (device_count_label a) (empty_frame a) (widgets a)
      (next_widget a) (toasts a ++ [(message, color)]).

(** [card.destroy()] *)
Definition destroy_card (c : DeviceCard) : DeviceCard :=
  Card (device c) (_is_mirroring c) true.

(** [card.reset_state()] *)
Definition reset_state (c : DeviceCard) : DeviceCard :=
  Card (device c) false (destroyed c).

(** [for card in self.device_cards: card.destroy()] followed by
    [self.device_cards.clear()]. *)
Definition destroy_all_cards (a : AndroidMirrorApp) : AndroidMirrorApp :=
  with_cards []
    (foldl (fun w id => alter destroy_card id w) (widgets a) (device_cards a))
    (next_widget a) a.

(** [_update_count] *)
Definition _update_count (count : nat) (a : AndroidMirrorApp) : AndroidMirrorApp :=
  match count with
  | O => with_count_label ([], (device_count_label a).2) a
  | 1%nat => with_count_label (txt "1 device", ACCENT) a
  | _ => with_count_label (txt (pretty count) ++ txt " devices", ACCENT) a
  end.

(** [_build_empty_state] *)
Definition _build_empty_state (a : AndroidMirrorApp) : AndroidMirrorApp :=
  let content :=
    match adb_path a, scrcpy_path a with
    | None, _ => AdbNotFound
    | Some _, None => ScrcpyNotFound
    | Some _, Some _ => NoDevicesConnected
    end in
  with_empty_frame (content, (empty_frame a).2) a.

(** [_show_empty] *)
Definition _show_empty (a : AndroidMirrorApp) : AndroidMirrorApp :=
  let a := destroy_all_cards a in
  let a := _build_empty_state a in
  with_empty_frame ((empty_frame a).1, true) a.

(** [{d["serial"] for d in devices}] *)
Fixpoint serial_set (devices : list (gmap str value)) : result (gset value) :=
  match devices with
  | [] => Ok ∅
  | d :: ds =>
      match dict_item d (txt "serial") with
      | Raise e => Raise e
      | Ok s =>
          match serial_set ds with
          | Raise e => Raise e
          | Ok rest => Ok ({[ s ]} ∪ rest)
          end
      end
  end.

(** The loop that builds, packs and records one card per device.  When
    a constructor raises, the cards built so far stay recorded. *)
Fixpoint build_cards (devices : list (gmap str value)) (a : AndroidMirrorApp)
  : result unit * AndroidMirrorApp :=
  match devices with
  | [] => (Ok tt, a)
  | dev :: devices' =>
      match DeviceCard_init dev with
      | Raise e => (Raise e, a)
      | Ok card =>
          let id := next_widget a in
          build_cards devices'
            (with_cards (device_cards a ++ [id]) (<[id := card]> (widgets a)) (S id) a)
      end
  end.

(** [_update_device_list]: how it ends and the state it leaves.  It is
    run as a callback of the event loop, which reports an exception and
    goes on with the state as the callback left it. *)
Definition _update_device_list (devices : list (gmap str value)) (a : AndroidMirrorApp)
  : result unit * AndroidMirrorApp :=
  match serial_set (current_devices a) with
  | Raise e => (Raise e, a)
  | Ok current_serials =>
      match serial_set devices with
      | Raise e => (Raise e, a)
      | Ok new_serials =>
          if bool_decide (current_serials = new_serials)
             && bool_decide (length devices = length (current_devices a))
          then (Ok tt, _update_count (length devices) a)
          else
            let a := with_current_devices devices a in
            let a := _update_count (length devices) a in
            let a := destroy_all_cards a in
            match devices with
            | [] => (Ok tt, _show_empty a)
            | _ =>
                let a := with_empty_frame ((empty_frame a).1, false) a in
                build_cards devices a
            end
      end
  end.

(* ===================================================================== *)
(** * Mirror sessions *)
(* ===================================================================== *)

#[export] Instance exn_eq_dec : EqDecision exn.
Proof. solve_decision. Defined.

(** Callbacks handed to [self.after(delay, callback)]. *)
Inductive ui_call :=
  | UpdateApkStatus (message color : str)
  | ShowInstallPopup (success : bool)
  | ErrorToast (e : exn)            (* [_show_toast(f"Error: {e}", RED)] *)
  | ResetState (card : nat).        (* [card.reset_state] *)

#[export] Instance ui_call_eq_dec : EqDecision ui_call.
Proof. solve_decision. Defined.

(** The body of the loop of [monitor_output] for one decoded line: the
    [(delay, callback)] pairs it hands to [self.after], in order. *)
Definition monitor_line (line : str) : list (Z * ui_call) :=
  let line := strip line in
  if bool_decide (line = []) then []
  else
    let line_lower := lower line in
    if contains (txt "installing") line_lower || contains (txt "install ") line_lower
    then [(0, UpdateApkStatus (txt "Installing...") YELLOW)]
    else if contains (txt "success") line_lower
    then [(0, UpdateApkStatus (txt "Success!") ACCENT);
          (0, ShowInstallPopup true);
          (3000, UpdateApkStatus [] TEXT_MUTED)]
    else if contains (txt "failure") line_lower
            || contains (txt "failed") line_lower
            || contains (txt "error") line_lower
    then [(0, UpdateApkStatus (txt "Failed!") RED);
          (0, ShowInstallPopup false);
          (3000, UpdateApkStatus [] TEXT_MUTED)]
    else [].

(** [monitor_output]: lines are read until the stream ends; a read that
    raises ([None]) ends the loop silently. *)
Fixpoint monitor_output (stream : list (option str)) : list (Z * ui_call) :=
  match stream with
  | [] => []
  | None :: _ => []
  | Some line :: stream' => monitor_line line ++ monitor_output stream'
  end.

(** Where a [launch] thread stands. *)
Inductive pc :=
  | PcPopen                      (* about to call [subprocess.Popen] *)
  | PcRegister (proc : nat)      (* about to store the handle *)
  | PcStartMonitors (proc : nat) (* about to start the two monitor threads *)
  | PcWait (proc : nat)          (* blocked in [proc.wait()] *)
  | PcExcept (e : exn)           (* in the [except Exception] handler *)
  | PcFinallyPop                 (* [finally]: about to pop the serial *)
  | PcFinallyNotify              (* [finally]: about to post [card.reset_state] *)
  | PcDone.

#[export] Instance pc_eq_dec : EqDecision pc.
Proof. solve_decision. Defined.

(** One [launch] closure running on its own thread: the serial, device
    and card it captured. *)
Record launcher := Launcher {
  l_serial : value;
  l_device : gmap str value;
  l_card : nat;
  l_pc : pc;
  l_proc : option nat                      (* its local [proc], once bound *)
}.

Definition at_pc (p : pc) (t : launcher) : launcher :=
  Launcher (l_serial t) (l_device t) (l_card t) p (l_proc t).

(** [proc = subprocess.Popen(...)] has returned the handle [p]. *)
Definition with_proc (p : nat) (t : launcher) : launcher :=
  Launcher (l_serial t) (l_device t) (l_card t) (l_pc t) (Some p).

(** [_on_device_click]; [running p] is [proc.poll() is None].  The second
    component is the [launch] thread it starts, if any. *)
Definition _on_device_click (running : nat -> bool)
  (dev : gmap str value) (card : nat) (a : AndroidMirrorApp)
  : result (AndroidMirrorApp * option launcher) :=
  match dict_item dev (txt "serial") with
  | Raise e => Raise e
  | Ok serial =>
      let reset a :=
        with_cards (device_cards a) (alter reset_state card (widgets a)) (next_widget a) a in
      match scrcpy_path a with
      | None =>
          Ok (reset (_show_toast (txt "scrcpy not found — see README for setup.") RED a),
              None)
      | Some _ =>
          let name := format_value (dict_get dev (txt "model") serial) in
          let busy :=
            match active_mirrors a !! serial with
            | Some proc => running proc
            | None => false
            end in
          if busy
          then Ok (reset (_show_toast (txt "Already mirroring " ++ name) YELLOW a), None)
          else
            let a := with_active_mirrors (delete serial (active_mirrors a)) a in
            let a := _show_toast (txt "Launching mirror for " ++ name ++ txt "…") ACCENT a in
            Ok (a, Some (Launcher serial dev card PcPopen None))
      end
  end.

(** An operating-system process started by [Popen]. *)
Record process := Process {
  argv : list str;
  has_exited : bool
}.

(** Who handed a callback to [self.after]. *)
Inductive poster :=
  | ByLauncher (tid : nat)
  | ByMonitor (proc : nat).

#[export] Instance poster_eq_dec : EqDecision poster.
Proof. solve_decision. Defined.

Record World := Mk {
  app : AndroidMirrorApp;
  launchers : list launcher;               (* every [launch] thread started *)
  procs : gmap nat process;                (* every process started *)
  next_pid : nat;
  monitored : gset nat;                    (* processes whose monitors run *)
  posted : list (poster * Z * ui_call)     (* [self.after] calls, oldest first *)
}.

Definition with_app (a : AndroidMirrorApp) (w : World) : World :=
  Mk a (launchers w) (procs w) (next_pid w) (monitored w) (posted w).

Definition with_launcher (tid : nat) (t : launcher) (w : World) : World :=
  Mk (app w) (<[tid := t]> (launchers w)) (procs w) (next_pid w) (monitored w) (posted w).

Definition post (by_ : poster) (calls : list (Z * ui_call)) (w : World) : World :=
  Mk (app w) (launchers w) (procs w) (next_pid w) (monitored w)
     (posted w ++ map (fun c => (by_, c.1, c.2)) calls).

(** [proc.poll() is None] *)
Definition running (w : World) (p : nat) : bool :=
  match procs w !! p with
  | Some pr => negb (has_exited pr)
  | None => false
  end.

(** The command line [launch] builds; [Popen] raises TypeError unless
    every argument is a string. *)
Definition launch_cmd (a : AndroidMirrorApp) (t : launcher) : result (list str) :=
  match scrcpy_path a, l_serial t with
  | Some path, VStr serial =>
      Ok [path; txt "-s"; serial; txt "--window-title";
          txt "Mirror: " ++ format_value (dict_get (l_device t) (txt "model") (l_serial t))]
  | _, _ => Raise TypeError
  end.

(** [_refresh_devices], given what the two lookups of bundled tools find;
    the listing it starts on another thread arrives later as a call of
    [_update_device_list]. *)
Definition _refresh_devices (found_adb found_scrcpy : option str) (a : AndroidMirrorApp)
  : AndroidMirrorApp :=
  let adb := match adb_path a with Some p => Some p | None => found_adb end in
  let scrcpy := match scrcpy_path a with Some p => Some p | None => found_scrcpy end in
  let a := with_paths adb scrcpy a in
  match adb with
  | None => _show_empty a
  | Some _ => a
  end.

(** Atomic steps of the running program. *)
Inductive label :=
  | Click (dev : gmap str value) (card : nat)   (* [_on_device_click] on the UI thread *)
  | Poll (devices : list (gmap str value))      (* [_update_device_list] on the UI thread *)
  | Refresh (found_adb found_scrcpy : option str)
  | PopenOk (tid : nat)                         (* [Popen] returns a handle *)
  | Throw (tid : nat) (e : exn)                 (* the statement at hand raises *)
  | Advance (tid : nat)                         (* the statement at hand completes *)
  | Exit (proc : nat)                           (* a process exits *)
  | MonitorReads (proc : nat) (line : str).     (* a monitor thread reads a line *)

(** One step; [None] when the step is not enabled. *)
Definition step (w : World) (l : label) : option World :=
  match l with
  | Click dev card =>
      match _on_device_click (running w) dev card (app w) with
      | Ok (a, started) =>
          Some (Mk a (launchers w ++ match started with Some t => [t] | None => [] end)
                   (procs w) (next_pid w) (monitored w) (posted w))
      | Raise _ => None
      end
  | Poll devices =>
      Some (with_app (_update_device_list devices (app w)).2 w)
  | Refresh found_adb found_scrcpy =>
      Some (with_app (_refresh_devices found_adb found_scrcpy (app w)) w)
  | PopenOk tid =>
      match launchers w !! tid with
      | Some t =>
          match l_pc t, launch_cmd (app w) t with
          | PcPopen, Ok cmd =>
              let p := next_pid w in
              Some (Mk (app w) (<[tid := at_pc (PcRegister p) (with_proc p t)]> (launchers w))
                       (<[p := Process cmd false]> (procs w)) (S p)
                       (monitored w) (posted w))
          | _, _ => None
          end
      | None => None
      end
  | Throw tid e =>
      match launchers w !! tid with
      | Some t =>
          match l_pc t with
          | PcPopen | PcStartMonitors _ | PcWait _ =>
              Some (with_launcher tid (at_pc (PcExcept e) t) w)
          | _ => None
          end
      | None => None
      end
  | Advance tid =>
      match launchers w !! tid with
      | Some t =>
          match l_pc t with
          | PcRegister p =>
              Some (with_launcher tid (at_pc (PcStartMonitors p) t)
                      (with_app (with_active_mirrors
                                   (<[l_serial t := p]> (active_mirrors (app w))) (app w)) w))
          | PcStartMonitors p =>
              Some (Mk (app w) (<[tid := at_pc (PcWait p) t]> (launchers w))
                       (procs w) (next_pid w) ({[ p ]} ∪ monitored w) (posted w))
          | PcWait p =>
              if running w p then None
              else Some (with_launcher tid (at_pc PcFinallyPop t) w)
          | PcExcept e =>
              Some (with_launcher tid (at_pc PcFinallyPop t)
                      (post (ByLauncher tid) [(0, ErrorToast e)] w))
          | PcFinallyPop =>
              Some (with_launcher tid (at_pc PcFinallyNotify t)
                      (with_app (with_active_mirrors
                                   (delete (l_serial t) (active_mirrors (app w))) (app w)) w))
          | PcFinallyNotify =>
              Some (with_launcher tid (at_pc PcDone t)
                      (post (ByLauncher tid) [(0, ResetState (l_card t))] w))
          | PcPopen | PcDone => None
          end
      | None => None
      end
  | Exit p =>
      match procs w !! p with
      | Some pr =>
          if has_exited pr then None
          else Some (Mk (app w) (launchers w) (<[p := Process (argv pr) true]> (procs w))
                        (next_pid w) (monitored w) (posted w))
      | None => None
      end
  | MonitorReads p line =>
      if bool_decide (p ∈ monitored w)
      then Some (post (ByMonitor p) (monitor_line line) w)
      else None
  end.

(** A run: the steps taken, oldest first. *)
Fixpoint run_steps (w : World) (ls : list label) : option World :=
  match ls with
  | [] => Some w
  | l :: ls' =>
      match step w l with
      | Some w' => run_steps w' ls'
      | None => None
      end
  end.

(** The state [__init__] leaves, given what the tool lookups found. *)
Definition initial (found_adb found_scrcpy : option str) : World :=
  Mk (App found_adb found_scrcpy [] [] ∅ ([], TEXT_MUTED)
          (match found_adb, found_scrcpy with
           | None, _ => AdbNotFound
           | Some _, None => ScrcpyNotFound
           | Some _, Some _ => NoDevicesConnected
           end, false) ∅ 0%nat [])
     [] ∅ 0%nat ∅ [].

Definition reachable (w : World) : Prop :=
  exists found_adb found_scrcpy ls, run_steps (initial found_adb found_scrcpy) ls = Some w.

(** Number of times launcher [tid] has posted [card.reset_state]. *)
Definition is_reset_by (tid : nat) (x : poster * Z * ui_call) : bool :=
  match x with
  | (ByLauncher t, _, ResetState _) => bool_decide (t = tid)
  | _ => false
  end.

Definition resets_posted (tid : nat) (w : World) : nat :=
  length (List.filter (is_reset_by tid) (posted w)).


(* ===================================================================== *)
(** * The listing as the specification words it *)
(* ===================================================================== *)

(** Token 1 of a line, ["unknown"] when the line has a single token. *)
Definition status_token (line : str) : str :=
  nth 1 (split_ws (strip line)) (txt "unknown").

(** A line yields a device when it is not blank, does not contain
    ["offline"], and its status token is ["device"] or
    ["unauthorized"]. *)
Definition listed (line : str) : bool :=
  negb (bool_decide (strip line = []))
  && negb (contains (txt "offline") (strip line))
  && (bool_decide (status_token line = txt "device")
      || bool_decide (status_token line = txt "unauthorized")).

Fixpoint before (sep : ascii) (s : str) : str :=
  match s with
  | [] => []
  | c :: s' => if Ascii.eqb c sep then [] else c :: before sep s'
  end.

Fixpoint after (sep : ascii) (s : str) : str :=
  match s with
  | [] => []
  | c :: s' => if Ascii.eqb c sep then s' else after sep s'
  end.

(** The [key:value] tokens among [tokens], in order, each cut at its
    first colon. *)
Definition aux_pairs (tokens : list str) : list (str * value) :=
  omap (fun part =>
          if contains (txt ":") part
          then Some (before ":" part, VStr (after ":" part))
          else None) tokens.

(** What the line itself says about the device: serial, status, and the
    auxiliary properties, a later token winning over an earlier one with
    the same key. *)
Definition listing_info (line : str) : gmap str value :=
  let parts := split_ws (strip line) in
  list_to_map (rev (aux_pairs (skipn 2 parts)))
  ∪ <[txt "status" := VStr (status_token line)]>
      (<[txt "serial" := VStr (nth 0 parts [])]> ∅).

(** The keys filled by the per-device queries. *)
Definition QUERIED : list str :=
  [txt "model"; txt "manufacturer"; txt "android_version"; txt "sdk";
   txt "resolution"; txt "battery"].

(** The six command lines of the per-device queries, in the order they
    are issued. *)
Definition getprop_argv (adb serial prop : str) : list str :=
  [adb; txt "-s"; serial; txt "shell"; txt "getprop"; prop].

Definition wm_size_argv (adb serial : str) : list str :=
  [adb; txt "-s"; serial; txt "shell"; txt "wm"; txt "size"].

Definition battery_argv (adb serial : str) : list str :=
  [adb; txt "-s"; serial; txt "shell"; txt "dumpsys"; txt "battery"].

(** An entry of a device dictionary that is the empty string or
    absent. *)
Definition emptied (entry : option value) : Prop :=
  entry = None \/ entry = Some (VStr []) \/ entry = Some VNone.

(** The leading characters of [s] that satisfy [p], and what follows
    them. *)
Fixpoint lead (p : ascii -> bool) (s : str) : str :=
  match s with
  | c :: s' => if p c then c :: lead p s' else []
  | [] => []
  end.

Fixpoint rest_after (p : ascii -> bool) (s : str) : str :=
  match s with
  | c :: s' => if p c then rest_after p s' else s
  | [] => []
  end.

(** [s] begins with a WIDTHxHEIGHT pattern whose text is [m]: digits, an
    [x], digits, and no further digit. *)
Definition size_at (s m : str) : Prop :=
  exists w h rest,
    s = w ++ "x"%char :: h ++ rest
    /\ w <> [] /\ h <> []
    /\ Forall (fun c => is_digit c = true) w
    /\ Forall (fun c => is_digit c = true) h
    /\ lead is_digit rest = []
    /\ m = w ++ "x"%char :: h.

(** The status events of a mirror session, as the callbacks that carry
    them. *)
Definition INSTALLING : ui_call := UpdateApkStatus (txt "Installing...") YELLOW.
Definition INSTALL_SUCCESS : ui_call := UpdateApkStatus (txt "Success!") ACCENT.
Definition INSTALL_FAILURE : ui_call := UpdateApkStatus (txt "Failed!") RED.
Definition STATUS_RESET : ui_call := UpdateApkStatus [] TEXT_MUTED.





(** The serials of a device list, as a set. *)
Definition serials (devices : list (gmap str value)) : gset value :=
  list_to_set (omap (fun d => d !! txt "serial") devices).

Definition has_serial (d : gmap str value) : Prop := is_Some (d !! txt "serial").

(** A device for which building a card raises nothing. *)
Definition card_ready (d : gmap str value) : Prop :=
  DeviceCard_init d = Ok (Card d false false).

(** Every card the application refers to was allocated earlier. *)
Definition cards_allocated (a : AndroidMirrorApp) : Prop :=
  Forall (fun id => (id < next_widget a)%nat) (device_cards a).

(** The poll found the same serials, and as many devices, as the stored
    list has. *)
Definition same_listing (devices : list (gmap str value)) (a : AndroidMirrorApp) : Prop :=
  serials devices = serials (current_devices a)
  /\ length devices = length (current_devices a).

(* ===================================================================== *)
(** * Sample environments *)
(* ===================================================================== *)

Definition sample_listing : str := txt "List of devices attached
ABC123 device usb:1-1 product:sailfish model:Pixel
XYZ offline
QQQ unauthorized usb:1-2
LONE
".

(** A bridge that lists [sample_listing] and answers some of the
    queries about ABC123. *)
Definition sample_run (n : nat) (argv : list str) : run_outcome :=
  match n with
  | 0%nat => Completed sample_listing
  | 1%nat => Failed TimeoutExpired
  | 2%nat => Completed (txt "Google
")
  | 5%nat => Completed (txt "Physical size: 1080x2340")
  | 6%nat => Completed (txt "  level: 87")
  | _ => Completed []
  end.

(** A bridge that lists one device and then lets every query time out. *)
Definition queries_time_out (n : nat) (argv : list str) : run_outcome :=
  match n with
  | 0%nat => Completed (txt "List of devices attached
ABC device
")
  | _ => Failed TimeoutExpired
  end.

Definition sample_device : gmap str value :=
  <[txt "status" := VStr (txt "device")]> (<[txt "serial" := VStr (txt "ABC")]> ∅).

(** The application after [__init__] found both tools and a first poll
    listed [sample_device]. *)
Definition sample_app : AndroidMirrorApp :=
  with_current_devices [sample_device]
    (app (initial (Some (txt "adb")) (Some (txt "scrcpy")))).

(** A second device, not yet authorised. *)
Definition other_device : gmap str value :=
  <[txt "status" := VStr (txt "unauthorized")]> (<[txt "serial" := VStr (txt "QQQ")]> ∅).

(** The application once the first poll has listed [sample_device]: the
    device is stored and its card, the first one built, is on display. *)
Definition polled_app : AndroidMirrorApp :=
  App (Some (txt "adb")) (Some (txt "scrcpy")) [sample_device] [0%nat] ∅
      (txt "1 device", ACCENT) (NoDevicesConnected, false)
      {[ 0%nat := Card sample_device false false ]} 1%nat [].

Definition world_after (ls : list label) : World :=
  let w0 := initial (Some (txt "adb")) (Some (txt "scrcpy")) in
  match run_steps w0 ls with
  | Some w => w
  | None => w0
  end.

(** A click on the card of [sample_device], the process started and its
    handle stored. *)
Definition mirroring_trace : list label :=
  [Poll [sample_device]; Click sample_device 0%nat; PopenOk 0%nat; Advance 0%nat].

(** The same, with the monitors started and the process gone. *)
Definition exited_trace : list label :=
  mirroring_trace ++ [Advance 0%nat; Exit 0%nat].

(** The [launch] thread [tid], started for [t], has run to its end from
    [w] along [ls]: it is done, has posted [card.reset_state] exactly
    once, that post being the latest, and its serial is absent from the
    sessions map. *)
Definition ended_once (w : World) (tid : nat) (t : launcher) (ls : list label) : Prop :=
  exists w',
    run_steps w ls = Some w'
    /\ launchers w' !! tid = Some (at_pc PcDone t)
    /\ resets_posted tid w' = 1%nat
    /\ last (posted w') = Some (ByLauncher tid, 0, ResetState (l_card t))
    /\ active_mirrors (app w') !! l_serial t = None.


(** The notifications a [launch] thread owes: one when it is done, none
    before. *)
Definition resets_due (tid : nat) (w : World) : nat :=
  match launchers w !! tid with
  | Some t => if decide (l_pc t = PcDone) then 1%nat else 0%nat
  | None => 0%nat
  end.

Definition notified_when_done (w : World) : Prop :=
  forall tid, resets_posted tid w = resets_due tid w.

(* ===================================================================== *)
(** * Tool lookup, environment and file modes *)
(* ===================================================================== *)

Definition S_IEXEC : Z := 64.      (* 0o100 *)
Definition S_IXGRP : Z := 8.       (* 0o010 *)
Definition S_IXOTH : Z := 1.       (* 0o001 *)

(** [_ensure_executable].  The file system is the mode of every existing
    path; [os.stat] raises FileNotFoundError on a missing path and
    [os.chmod] raises an OSError where [may_chmod] refuses. *)
Definition _ensure_executable (may_chmod : str -> bool) (path : str) (fs : gmap str Z)
  : result (gmap str Z) :=
  match fs !! path with
  | None => Raise FileNotFoundError
  | Some st_mode =>
      if Z.land st_mode S_IEXEC =? 0
      then if may_chmod path
           then Ok (<[path := Z.lor (Z.lor (Z.lor st_mode S_IEXEC) S_IXGRP) S_IXOTH]> fs)
           else Raise OSError
      else Ok fs
  end.

Section Tools.

(** The platform: [platform.system()], the directory of the bundled
    tools, [os.path.join], [os.path.isfile], [os.path.dirname] and
    [os.pathsep]. *)
Variable SYSTEM : str.
Variable TOOLS_DIR : str.
Variable join : list str -> str.
Variable isfile : str -> bool.
Variable dirname : str -> str.
Variable pathsep : ascii.

(** [_find_bundled_adb] *)
Definition _find_bundled_adb : option str :=
  if bool_decide (SYSTEM = txt "Windows")
  then let path := join [TOOLS_DIR; txt "windows"; txt "scrcpy"; txt "adb.exe"] in
       if isfile path then Some path else None
  else None.

(** [_find_bundled_scrcpy] *)
Definition _find_bundled_scrcpy : option str :=
  if bool_decide (SYSTEM = txt "Windows")
  then let path := join [TOOLS_DIR; txt "windows"; txt "scrcpy"; txt "scrcpy.exe"] in
       if isfile path then Some path else None
  else None.

(** [_find_zadig] *)
Definition _find_zadig : option str :=
  if negb (bool_decide (SYSTEM = txt "Windows")) then None
  else
    let path := join [TOOLS_DIR; txt "windows"; txt "zadig-2.9.exe"] in
    if isfile path then Some path
    else
      let path := join [TOOLS_DIR; txt "windows"; txt "zadig.exe"] in
      if isfile path then Some path else None.

(** [_build_env], from a copy of [os.environ]. *)
Definition _build_env (environ : gmap str str) (adb_path scrcpy_path : str)
  : gmap str str :=
  let env := environ in
  let adb_dir := dirname adb_path in
  let env := <[txt "ADB" := adb_path]> env in
  let scrcpy_dir := dirname scrcpy_path in
  let extra_path := scrcpy_dir ++ [pathsep] ++ adb_dir in
  <[txt "PATH" := extra_path ++ [pathsep] ++ default [] (env !! txt "PATH")]> env.

End Tools.

(** [_is_windows_11], given [platform.version()]; the bare [except]
    turns a failing [int] into [False]. *)
Definition _is_windows_11 (SYSTEM version : str) : bool :=
  if negb (bool_decide (SYSTEM = txt "Windows")) then false
  else
    let parts := split_sep "." version in
    if bool_decide (2 < length parts)%nat
    then match py_int (nth 2 parts []) with
         | Some build => 22000 <=? build
         | None => false
         end
    else 22000 <=? 0.

(** [DeviceCard._handle_click] on the card object [id], whose fields are
    [card]; [on_click] is [_on_device_click]. *)
Definition _handle_click (running : nat -> bool) (id : nat) (card : DeviceCard)
  (a : AndroidMirrorApp) : result (AndroidMirrorApp * option launcher) :=
  match dict_item (device card) (txt "status") with
  | Raise e => Raise e
  | Ok status =>
      if bool_decide (status = VStr (txt "unauthorized")) then Ok (a, None)
      else if _is_mirroring card then Ok (a, None)
      else
        let latched := Card (device card) true (destroyed card) in
        let a := with_cards (device_cards a) (<[id := latched]> (widgets a))
                   (next_widget a) a in
        _on_device_click running (device card) id a
  end.

(** [AndroidMirrorApp.destroy]: the processes that are sent
    [terminate()]. *)
Definition destroy_terminates (w : World) : gset nat :=
  list_to_set (List.filter (running w) (map snd (map_to_list (active_mirrors (app w))))).

(* ===================================================================== *)
(** * Notions used by the further properties *)
(* ===================================================================== *)

(** The value of a string of decimal digits. *)
Definition decimal (ds : str) : Z :=
  fold_left (fun acc c => 10 * acc + digit_val c) ds 0.

(** Number of lines of a listing that are listed with status "device". *)
Definition device_lines (lines : list str) : nat :=
  length (List.filter (fun l => listed l && bool_decide (status_token l = txt "device"))
            lines).

(** A callback is one of the three status reports of a monitor. *)
Definition is_transient (c : Z * ui_call) : bool :=
  bool_decide (c = (0, INSTALL_SUCCESS)) || bool_decide (c = (0, INSTALL_FAILURE)).

Definition is_status_reset (c : Z * ui_call) : bool :=
  bool_decide (c = (3000, STATUS_RESET)).



(** Process [p] was started by this program as a mirror of [serial]. *)
Definition started_for (w : World) (serial : value) (p : nat) : Prop :=
  (p < next_pid w)%nat
  /\ exists path s title,
       serial = VStr s
       /\ (argv <$> procs w !! p)
          = Some [path; txt "-s"; s; txt "--window-title"; title].

(** The process tracked for a serial was started for that serial. *)
Definition tracked_for_serial (w : World) : Prop :=
  forall serial p, active_mirrors (app w) !! serial = Some p -> started_for w serial p.

(** So was the process whose handle a [launch] thread is about to
    store. *)
Definition handles_for_serial (w : World) : Prop :=
  (forall tid t p, launchers w !! tid = Some t -> l_pc t = PcRegister p ->
                   started_for w (l_serial t) p)
  /\ tracked_for_serial w.

(** The local [proc] of a [launch] thread agrees with where the thread
    is: unbound before [Popen] returns, and the handle the thread is about
    to store, has stored, or waits for. *)
Definition proc_bound (w : World) : Prop :=
  forall tid t, launchers w !! tid = Some t ->
    match l_pc t with
    | PcPopen => l_proc t = None
    | PcRegister p | PcStartMonitors p | PcWait p => l_proc t = Some p
    | _ => True
    end.

(** Handles are given out once: the [proc] of a thread is a process
    started earlier, and no two threads have the same one. *)
Definition handles_fresh (w : World) : Prop :=
  (forall tid t p, launchers w !! tid = Some t -> l_proc t = Some p -> (p < next_pid w)%nat)
  /\ (forall tid1 tid2 t1 t2 p,
        launchers w !! tid1 = Some t1 -> launchers w !! tid2 = Some t2 ->
        l_proc t1 = Some p -> l_proc t2 = Some p -> tid1 = tid2).

(** A [launch] thread that has stored its handle and not yet popped its
    serial: its [proc] is bound and it is past the store and before the
    pop.  The handler and the pop are also reached by a thread whose
    [Popen] raised; that thread has no [proc], has stored nothing and
    does not count. *)
Definition holds_session (t : launcher) : bool :=
  match l_proc t, l_pc t with
  | Some _, (PcStartMonitors _ | PcWait _ | PcExcept _ | PcFinallyPop) => true
  | _, _ => false
  end.

(** Every tracked serial has a [launch] thread that will still pop it. *)
Definition tracked_has_launcher (w : World) : Prop :=
  forall serial p,
    active_mirrors (app w) !! serial = Some p ->
    exists tid t, launchers w !! tid = Some t /\ l_serial t = serial
                  /\ l_proc t = Some p /\ holds_session t = true.

(** Nothing was ever started: no tool path, no [launch] thread, no
    process, no session, no callback; the only toasts are the complaint
    that scrcpy is missing. *)
Definition nothing_started (w : World) : Prop :=
  adb_path (app w) = None /\ scrcpy_path (app w) = None
  /\ launchers w = [] /\ procs w = ∅ /\ active_mirrors (app w) = ∅
  /\ monitored w = ∅ /\ posted w = []
  /\ Forall (fun x => x = (txt "scrcpy not found — see README for setup.", RED))
            (toasts (app w)).

(** A [Refresh] step whose findings are those of the tool lookups on
    this platform, for some state of the files. *)
Definition refresh_by_lookup (SYSTEM TOOLS_DIR : str) (join : list str -> str)
  (l : label) : Prop :=
  match l with
  | Refresh found_adb found_scrcpy =>
      exists isfile,
        found_adb = _find_bundled_adb SYSTEM TOOLS_DIR join isfile
        /\ found_scrcpy = _find_bundled_scrcpy SYSTEM TOOLS_DIR join isfile
  | _ => True
  end.

(** A step that is not a poll listing a device. *)
Definition lists_no_device (l : label) : Prop :=
  match l with
  | Poll devices => devices = []
  | _ => True
  end.

(** The placeholder of the empty list is as [__init__] built it for the
    lookups [found_adb]: no device is stored, the count label is blank,
    the content is [built], and when the bridge tool was found at startup
    the placeholder is not shown. *)
Definition placeholder_as_built (found_adb : option str) (built : empty_content)
  (a : AndroidMirrorApp) : Prop :=
  current_devices a = []
  /\ device_count_label a = ([], TEXT_MUTED)
  /\ (empty_frame a).1 = built
  /\ (found_adb = None -> built = AdbNotFound)
  /\ (found_adb <> None -> adb_path a <> None /\ (empty_frame a).2 = false).

(* ===================================================================== *)
(** * Facts about the text primitives *)
(* ===================================================================== *)

(** Two literals differ. *)
Ltac literals_differ :=
  let H := fresh in intros H; vm_compute in H; discriminate H.

Lemma lstrip_head (s t : str) (c : ascii) :
  lstrip s = c :: t -> is_space c = false.
Proof.
  induction s as [|a s IH]; simpl; [discriminate|].
  destruct (is_space a) eqn:Ha; [exact IH|].
  intros [= -> _]. exact Ha.
Qed.

Lemma lstrip_suffix (s : str) : exists pre, s = pre ++ lstrip s /\ forallb is_space pre = true.
Proof.
  induction s as [|a s (pre & E & Hpre)]; simpl.
  - by exists [].
  - destruct (is_space a) eqn:Ha.
    + exists (a :: pre). simpl. rewrite Ha, Hpre. split; [by f_equal|done].
    + by exists [].
Qed.

Lemma lstrip_fixed (c : ascii) (s : str) : is_space c = false -> lstrip (c :: s) = c :: s.
Proof. intros H. simpl. by rewrite H. Qed.

(** A stripped text that is not empty ends with a character that is not
    white space. *)
Lemma strip_last (s : str) :
  strip s <> [] -> exists t c, strip s = t ++ [c] /\ is_space c = false.
Proof.
  unfold strip, rstrip. intros H.
  destruct (lstrip (rev (lstrip s))) as [|c t] eqn:E; [done|].
  exists (rev t), c. split; [done|]. by eapply lstrip_head.
Qed.

Lemma split_ws_from_cur (cur s : str) : cur <> [] -> split_ws_from cur s <> [].
Proof.
  revert cur. induction s as [|a s IH]; intros cur H; simpl.
  - by destruct cur.
  - destruct (is_space a); [by destruct cur|]. by apply IH.
Qed.

Lemma split_ws_from_nonspace (cur s : str) (c : ascii) :
  c ∈ s -> is_space c = false -> split_ws_from cur s <> [].
Proof.
  revert cur. induction s as [|a s IH]; intros cur Hin Hc; [by apply elem_of_nil in Hin|].
  simpl. destruct (is_space a) eqn:Ha.
  - apply elem_of_cons in Hin as [->|Hin]; [congruence|].
    destruct cur; [by apply IH|done].
  - by apply split_ws_from_cur.
Qed.

(** After [line = line.strip()] and the test [not line], [line.split()]
    has a first element. *)
Lemma split_ws_strip_nonempty (s : str) : strip s <> [] -> split_ws (strip s) <> [].
Proof.
  intros H. destruct (strip_last s H) as (t & c & E & Hc).
  rewrite E. unfold split_ws. apply split_ws_from_nonspace with c; [|done].
  apply elem_of_app. right. by apply list_elem_of_singleton.
Qed.

Lemma contains_char (c : ascii) (s : str) : contains [c] s = true <-> c ∈ s.
Proof.
  induction s as [|a s IH]; simpl.
  - split; [done|]. intros H. by apply elem_of_nil in H.
  - rewrite elem_of_cons, <- IH. destruct (Ascii.eqb_spec c a) as [->|Hne]; simpl.
    + split; [by left|done].
    + split; [by right|]. intros [?|?]; [done|assumption].
Qed.

Lemma split_sep1_from_found (sep : ascii) (cur s : str) :
  sep ∈ s ->
  exists pre post, s = pre ++ (sep :: post) /\ (sep ∉ pre) /\
                   split_sep1_from sep cur s = [rev cur ++ pre; post].
Proof.
  revert cur. induction s as [|a s IH]; intros cur Hin; [by apply elem_of_nil in Hin|].
  simpl. destruct (Ascii.eqb_spec a sep) as [->|Hne].
  - exists [], s. rewrite app_nil_r. split_and!; [done| |done]. apply not_elem_of_nil.
  - apply elem_of_cons in Hin as [->|Hin]; [done|].
    destruct (IH (a :: cur) Hin) as (pre & post & -> & Hpre & E).
    exists (a :: pre), post. split_and!; [done| |].
    + rewrite elem_of_cons. intros [->|?]; done.
    + rewrite E. simpl. by rewrite <- app_assoc.
Qed.

Lemma split_sep1_from_absent (sep : ascii) (cur s : str) :
  sep ∉ s -> split_sep1_from sep cur s = [rev cur ++ s].
Proof.
  revert cur. induction s as [|a s IH]; intros cur Hin; simpl.
  - by rewrite app_nil_r.
  - rewrite not_elem_of_cons in Hin. destruct Hin as [Hne Hin].
    destruct (Ascii.eqb_spec a sep) as [->|_]; [done|].
    rewrite IH by done. simpl. by rewrite <- app_assoc.
Qed.

(** The loop over [parts[2:]] cannot raise: the test [":" in part]
    guards the unpacking of the split. *)
Lemma collect_aux_ok (tokens : list str) (info : gmap str value) :
  exists info', collect_aux tokens info = Ok info'.
Proof.
  revert info. induction tokens as [|part tokens IH]; intros info; simpl; [by eexists|].
  destruct (contains _ part) eqn:Hc; [|apply IH].
  apply (contains_char ":" part) in Hc.
  destruct (split_sep1_from_found ":" [] part Hc) as (pre & post & _ & _ & E).
  unfold split_sep1. rewrite E. apply IH.
Qed.

(* ===================================================================== *)
(** * Update check: version order *)
(* ===================================================================== *)

Lemma tuple_lt_spec (a b : list Z) :
  tuple_lt a b = true <->
  exists common a' b', a = common ++ a' /\ b = common ++ b' /\
    ((a' = [] /\ b' <> []) \/
     exists x y a'' b'', a' = x :: a'' /\ b' = y :: b'' /\ x < y).
Proof.
  revert b. induction a as [|x a IH]; intros [|y b]; simpl.
  - split; [done|]. intros (c & a' & b' & Ha & Hb & H).
    symmetry in Ha, Hb. apply app_eq_nil in Ha as [-> ->], Hb as [_ ->].
    destruct H as [[_ ?]|(? & ? & ? & ? & ? & _)]; done.
  - split; [|done]. intros _. exists [], [], (y :: b). split_and!; [done..|]. by left.
  - split; [done|]. intros (c & a' & b' & Ha & Hb & H).
    symmetry in Hb. apply app_eq_nil in Hb as [-> ->]. simpl in Ha. subst a'.
    destruct H as [[? ?]|(? & ? & ? & ? & _ & ? & _)]; done.
  - destruct (Z.eqb_spec x y) as [->|Hne].
    + rewrite IH. split.
      * intros (c & a' & b' & -> & -> & H). by exists (y :: c), a', b'.
      * intros (c & a' & b' & Ha & Hb & H). destruct c as [|z c]; simpl in *.
        -- subst a' b'. destruct H as [[? ?]|(? & ? & ? & ? & [= <- <-] & [= <- <-] & ?)];
             [done|lia].
        -- injection Ha as _ ->. injection Hb as _ ->. by exists c, a', b'.
    + rewrite Z.ltb_lt. split.
      * intros Hlt. exists [], (x :: a), (y :: b). split_and!; [done..|].
        right. by exists x, y, a, b.
      * intros (c & a' & b' & Ha & Hb & H). destruct c as [|z c]; simpl in *.
        -- subst a' b'. by destruct H as [[? ?]|(? & ? & ? & ? & [= <- <-] & [= <- <-] & ?)].
        -- congruence.
Qed.

Lemma int_digits_chars (acc : Z) (prev : bool) (s : str) (n : Z) :
  int_digits acc prev s = Some n ->
  Forall (fun c => is_digit c = true \/ code c = 95%N) s.
Proof.
  revert acc prev. induction s as [|c s IH]; intros acc prev H; [constructor|].
  simpl in H. destruct (is_digit c) eqn:Hd.
  - constructor; [by left|by eapply IH].
  - destruct (N.eqb_spec (code c) 95); [|done].
    destruct prev; [|done]. constructor; [by right|by eapply IH].
Qed.

Lemma int_body_chars (negative : bool) (u : str) (n : Z) :
  int_body negative u = Some n ->
  Forall (fun c => is_digit c = true \/ code c = 95%N \/ code c = 43%N \/ code c = 45%N) u.
Proof.
  unfold int_body. destruct (_ <? _); [done|].
  destruct (int_digits 0 false u) as [m|] eqn:Hu; [|done]. intros _.
  eapply Forall_impl; [by eapply int_digits_chars|]. intros a [?|?]; auto.
Qed.

Lemma py_int_chars (s : str) (n : Z) :
  py_int s = Some n ->
  Forall (fun c => is_digit c = true \/ code c = 95%N \/ code c = 43%N \/ code c = 45%N)
         (int_strip s).
Proof.
  unfold py_int. destruct (int_strip s) as [|c t]; [done|].
  destruct (N.eqb_spec (code c) 45) as [E|_].
  - intros Ht. constructor; [by auto|by eapply int_body_chars].
  - destruct (N.eqb_spec (code c) 43) as [E|_].
    + intros Ht. constructor; [by auto|by eapply int_body_chars].
    + by apply int_body_chars.
Qed.

Lemma lstrip_keeps (s : str) (c : ascii) : c ∈ s -> is_space c = false -> c ∈ lstrip s.
Proof.
  induction s as [|a s IH]; [done|]. intros Hin Hc. simpl.
  destruct (is_space a) eqn:Ha; [|done].
  apply elem_of_cons in Hin as [->|Hin]; [congruence|by apply IH].
Qed.

Lemma elem_of_rev (s : str) (c : ascii) : c ∈ rev s <-> c ∈ s.
Proof. rewrite !list_elem_of_In. symmetry. apply in_rev. Qed.

Lemma strip_keeps (s : str) (c : ascii) : c ∈ s -> is_space c = false -> c ∈ strip s.
Proof.
  intros Hin Hc. unfold strip, rstrip. apply elem_of_rev.
  apply lstrip_keeps; [|done]. apply elem_of_rev. by apply lstrip_keeps.
Qed.

Lemma skip_c_space_keeps (s : str) (c : ascii) :
  c ∈ s -> is_c_space c = false -> c ∈ skip_c_space s.
Proof.
  induction s as [|a s IH]; [done|]. intros Hin Hc. simpl.
  destruct (is_c_space a) eqn:Ha; [|done].
  apply elem_of_cons in Hin as [->|Hin]; [congruence|by apply IH].
Qed.

Lemma int_strip_keeps (s : str) (c : ascii) :
  c ∈ s -> is_c_space c = false -> c ∈ int_strip s.
Proof.
  intros Hin Hc. unfold int_strip. apply elem_of_rev.
  apply skip_c_space_keeps; [|done]. apply elem_of_rev. by apply skip_c_space_keeps.
Qed.

Lemma digit_not_c_space (c : ascii) : is_digit c = true -> is_c_space c = false.
Proof. destruct c as [[] [] [] [] [] [] [] []]; vm_compute; congruence. Qed.

Lemma skip_c_space_digits (s : str) :
  List.filter is_digit (skip_c_space s) = List.filter is_digit s.
Proof.
  induction s as [|a s IH]; [done|]. simpl. destruct (is_c_space a) eqn:Ha; [|done].
  rewrite IH. destruct (is_digit a) eqn:Hd; [|done].
  apply digit_not_c_space in Hd. congruence.
Qed.

Lemma filter_rev_length (f : ascii -> bool) (s : str) :
  length (List.filter f (rev s)) = length (List.filter f s).
Proof.
  induction s as [|a s IH]; [done|]. simpl. rewrite List.filter_app, length_app, IH.
  simpl. destruct (f a); simpl; lia.
Qed.

Lemma int_strip_digits (s : str) :
  length (List.filter is_digit (int_strip s)) = length (List.filter is_digit s).
Proof.
  unfold int_strip.
  by rewrite filter_rev_length, skip_c_space_digits, filter_rev_length, skip_c_space_digits.
Qed.

(** [int] rejects a text with more digits than the limit. *)
Lemma py_int_too_long (s : str) :
  INT_MAX_STR_DIGITS < Z.of_nat (length (List.filter is_digit s)) -> py_int s = None.
Proof.
  intros Hlong. rewrite <- int_strip_digits in Hlong. unfold py_int.
  destruct (int_strip s) as [|c t]; [done|].
  assert (Ht : INT_MAX_STR_DIGITS < Z.of_nat (length (List.filter is_digit t)) ->
               forall b, int_body b t = None).
  { intros H b. unfold int_body. by rewrite (proj2 (Z.ltb_lt _ _) H). }
  assert (Hsign : (code c =? 45)%N = true \/ (code c =? 43)%N = true -> is_digit c = false).
  { destruct c as [[] [] [] [] [] [] [] []]; vm_compute; intuition congruence. }
  destruct (code c =? 45)%N eqn:E1.
  - apply Ht. revert Hlong. cbn [List.filter]. rewrite Hsign by auto. done.
  - destruct (code c =? 43)%N eqn:E2.
    + apply Ht. revert Hlong. cbn [List.filter]. rewrite Hsign by auto. done.
    + unfold int_body. by rewrite (proj2 (Z.ltb_lt _ _) Hlong).
Qed.

Lemma int_tuple_None (parts : list str) (p : str) :
  p ∈ parts -> py_int p = None -> int_tuple parts = None.
Proof.
  induction parts as [|q parts IH]; intros Hin Hp; [by apply elem_of_nil in Hin|].
  simpl. apply elem_of_cons in Hin as [<-|Hin]; [by rewrite Hp|].
  destruct (py_int q); [|done]. by rewrite IH.
Qed.

Lemma int_tuple_Some (parts : list str) (t : list Z) :
  Forall2 (fun p n => py_int p = Some n) parts t -> int_tuple parts = Some t.
Proof. induction 1 as [|p n parts t Hp _ IH]; simpl; [done|]. by rewrite Hp, IH. Qed.

(** C8.  [_check_for_update] yields the metadata exactly when the request
    gave a decoded object whose ["latest"] entry (["0.0.0"] when absent)
    parses to a tuple strictly greater than the tuple of the current
    version.  Tuples are compared component by component: the first
    differing component decides and a longer tuple beats its proper
    prefix.  A version string in which some dot-separated component is
    empty or otherwise not accepted by [int] parses to [(0, 0, 0)], as
    does a value that is not a string; a string whose components are all
    accepted parses to their integers.  [int] rejects the empty text, a
    text holding a character other than a digit, an underscore, a sign or
    the whitespace it skips (so a component holding the separator 28,
    which [str.strip] would remove, is rejected), and a text of more
    digits than the interpreter's limit.  With current version 2.0.0,
    "1.9.0" gives no update, "2.1.0" gives one, and "abc" parses to
    [(0, 0, 0)]. *)
Theorem update_only_for_greater_version :
  (forall resp data,
     _check_for_update resp = Some data <->
     exists kv, resp = FetchDecoded (JObj kv) /\ data = JObj kv /\
       tuple_gt (_parse_version (obj_get kv (txt "latest") (JStr (txt "0.0.0"))))
                (_parse_version (JStr VERSION)) = true)
  /\ (forall a b,
        tuple_gt a b = true <->
        exists common a' b', a = common ++ a' /\ b = common ++ b' /\
          ((b' = [] /\ a' <> []) \/
           exists x y a'' b'', a' = x :: a'' /\ b' = y :: b'' /\ y < x))
  /\ (forall s p, p ∈ split_sep "." (strip s) -> py_int p = None ->
        _parse_version (JStr s) = [0; 0; 0])
  /\ (forall s t, Forall2 (fun p n => py_int p = Some n) (split_sep "." (strip s)) t ->
        _parse_version (JStr s) = t)
  /\ py_int [] = None
  /\ (forall p c, c ∈ p -> is_c_space c = false -> is_digit c = false ->
        code c <> 95%N -> code c <> 43%N -> code c <> 45%N -> py_int p = None)
  /\ (forall p, INT_MAX_STR_DIGITS < Z.of_nat (length (List.filter is_digit p)) ->
        py_int p = None)
  /\ (forall v, (forall s, v <> JStr s) -> _parse_version v = [0; 0; 0])
  /\ _parse_version (JStr VERSION) = [2; 0; 0]
  /\ _parse_version (JStr (txt "abc")) = [0; 0; 0]
  /\ _parse_version (JStr (txt "2.1" ++ ascii_of_N 28 :: txt ".0")) = [0; 0; 0]
  /\ _check_for_update (FetchDecoded (JObj [(txt "latest", JStr (txt "1.9.0"))])) = None
  /\ _check_for_update (FetchDecoded (JObj [(txt "latest", JStr (txt "2.1.0"))]))
     = Some (JObj [(txt "latest", JStr (txt "2.1.0"))]).
Proof.
  split_and!.
  - intros resp data. split.
    + destruct resp as [|[| | | | |kv]]; try done. unfold _check_for_update.
      destruct (tuple_gt _ _) eqn:E; [|done]. intros [= <-]. by exists kv.
    + intros (kv & -> & -> & E). unfold _check_for_update. by rewrite E.
  - intros a b. unfold tuple_gt. rewrite tuple_lt_spec. split.
    + intros (c & b' & a' & -> & -> & H). exists c, a', b'. split_and!; [done..|].
      destruct H as [?|(x & y & b'' & a'' & -> & -> & ?)]; [by left|].
      right. by exists y, x, a'', b''.
    + intros (c & a' & b' & -> & -> & H). exists c, b', a'. split_and!; [done..|].
      destruct H as [?|(x & y & a'' & b'' & -> & -> & ?)]; [by left|].
      right. by exists y, x, b'', a''.
  - intros s p Hin Hp. simpl. by rewrite (int_tuple_None _ p).
  - intros s t H. simpl. by rewrite (int_tuple_Some _ t).
  - done.
  - intros p c Hin Hsp Hd H1 H2 H3. destruct (py_int p) as [n|] eqn:E; [|done].
    apply py_int_chars in E. rewrite Forall_forall in E.
    destruct (E c) as [?|[?|[?|?]]]; [by apply int_strip_keeps|congruence..].
  - apply py_int_too_long.
  - intros v Hv. destruct v; try done. by destruct (Hv s).
  - by vm_compute.
  - by vm_compute.
  - by vm_compute.
  - by vm_compute.
  - by vm_compute.
Qed.

Lemma update_only_for_greater_version_witness :
  txt "x" ∈ split_sep "." (strip (txt "2.x")) /\ py_int (txt "x") = None /\
  _parse_version (JStr (txt "2.x")) = [0; 0; 0].
Proof.
  assert (Hin : txt "x" ∈ split_sep "." (strip (txt "2.x")))
    by (vm_compute; apply elem_of_cons; right; apply list_elem_of_singleton; reflexivity).
  split; [exact Hin|]. split; [reflexivity|].
  exact (proj1 (proj2 (proj2 update_only_for_greater_version)) (txt "2.x") (txt "x") Hin eq_refl).
Defined.

(* ===================================================================== *)
(** * Device listing *)
(* ===================================================================== *)

Lemma split_sep1_colon (part : str) :
  contains (txt ":") part = true ->
  split_sep1 ":" part = [before ":" part; after ":" part].
Proof.
  unfold split_sep1.
  enough (forall cur, contains (txt ":") part = true ->
            split_sep1_from ":" cur part = [rev cur ++ before ":" part; after ":" part]) as H.
  { intros Hc. by apply (H []). }
  induction part as [|c s IH]; intros cur Hc; [done|].
  simpl. destruct (Ascii.eqb_spec c ":") as [->|Hne].
  - by rewrite app_nil_r.
  - rewrite IH.
    + simpl. by rewrite <- app_assoc.
    + apply (contains_char ":") in Hc. apply (contains_char ":").
      apply elem_of_cons in Hc as [Heq|Hc]; [by destruct Hne|done].
Qed.

(** The loop over [parts[2:]] leaves the auxiliary properties laid over
    the dictionary it started from. *)
Lemma collect_aux_spec (tokens : list str) (info : gmap str value) :
  collect_aux tokens info = Ok (list_to_map (rev (aux_pairs tokens)) ∪ info).
Proof.
  revert info. induction tokens as [|part tokens IH]; intros info.
  - simpl. by rewrite (left_id ∅ (∪)).
  - cbn [collect_aux aux_pairs omap list_omap].
    destruct (contains (txt ":") part) eqn:Hc.
    + rewrite split_sep1_colon, IH by done. f_equal.
      cbn [rev]. rewrite list_to_map_app. cbn [list_to_map foldr fst snd].
      rewrite <- (assoc (∪)). f_equal.
      rewrite insert_empty. by rewrite insert_union_singleton_l.
    + apply IH.
Qed.

Section BridgeFacts.

Variable run : nat -> list str -> run_outcome.

Lemma _adb_prop_total (adb serial prop : str) (n : nat) :
  exists s, _adb_prop run adb serial prop n = (Ok s, S n)
    /\ (forall e, run n (getprop_argv adb serial prop) = Failed e -> s = [])
    /\ (forall out, run n (getprop_argv adb serial prop) = Completed out -> s = strip out).
Proof.
  unfold _adb_prop, mbind, M_bind, bind, subprocess_run, getprop_argv.
  destruct (run n _) as [out|e]; eexists; (split; [reflexivity|]); split; congruence.
Qed.

Lemma _get_resolution_total (adb serial : str) (n : nat) :
  exists s, _get_resolution run adb serial n = (Ok s, S n)
    /\ (forall e, run n (wm_size_argv adb serial) = Failed e -> s = [])
    /\ (forall out, run n (wm_size_argv adb serial) = Completed out ->
          s = default [] (re_search RESOLUTION_RE out)).
Proof.
  unfold _get_resolution, mbind, M_bind, bind, subprocess_run, wm_size_argv.
  destruct (run n _) as [out|e].
  - destruct (re_search RESOLUTION_RE out) eqn:E; eexists;
      (split; [reflexivity|]); split; try congruence; intros ? [= <-]; by rewrite E.
  - eexists; (split; [reflexivity|]); split; congruence.
Qed.

Lemma _get_battery_total (adb serial : str) (n : nat) :
  exists v, _get_battery run adb serial n = (Ok v, S n)
    /\ (forall e, run n (battery_argv adb serial) = Failed e -> v = VNone).
Proof.
  unfold _get_battery, mbind, M_bind, bind, subprocess_run, battery_argv.
  destruct (run n _) as [out|e].
  - destruct (re_search BATTERY_RE out) as [g|]; [destruct (py_int g)|];
      eexists; (split; [reflexivity|]); congruence.
  - eexists; (split; [reflexivity|]); congruence.
Qed.

(** The six queries always complete, in six invocations, and touch
    only their own keys. *)
Lemma query_properties_total (adb serial : str) (info : gmap str value) (n : nat) :
  exists model manufacturer release sdk resolution battery,
    _adb_prop run adb serial (txt "ro.product.model") n = (Ok model, S n)
    /\ _adb_prop run adb serial (txt "ro.product.manufacturer") (S n)
       = (Ok manufacturer, S (S n))
    /\ _adb_prop run adb serial (txt "ro.build.version.release") (S (S n))
       = (Ok release, S (S (S n)))
    /\ _adb_prop run adb serial (txt "ro.build.version.sdk") (S (S (S n)))
       = (Ok sdk, S (S (S (S n))))
    /\ _get_resolution run adb serial (S (S (S (S n))))
       = (Ok resolution, S (S (S (S (S n)))))
    /\ _get_battery run adb serial (S (S (S (S (S n)))))
       = (Ok battery, S (S (S (S (S (S n))))))
    /\ query_properties run adb serial info n
       = (Ok (<[txt "battery" := battery]>
               (<[txt "resolution" := VStr resolution]>
                 (<[txt "sdk" := py_or (VStr sdk) (VStr [])]>
                   (<[txt "android_version" := py_or (VStr release) (VStr [])]>
                     (<[txt "manufacturer" := py_or (VStr manufacturer) (VStr [])]>
                       (<[txt "model" :=
                           py_or (VStr model) (dict_get info (txt "model") (VStr serial))]>
                          info)))))),
          S (S (S (S (S (S n)))))).
Proof.
  destruct (_adb_prop_total adb serial (txt "ro.product.model") n) as (s1 & E1 & _).
  destruct (_adb_prop_total adb serial (txt "ro.product.manufacturer") (S n)) as (s2 & E2 & _).
  destruct (_adb_prop_total adb serial (txt "ro.build.version.release") (S (S n)))
    as (s3 & E3 & _).
  destruct (_adb_prop_total adb serial (txt "ro.build.version.sdk") (S (S (S n))))
    as (s4 & E4 & _).
  destruct (_get_resolution_total adb serial (S (S (S (S n))))) as (s5 & E5 & _).
  destruct (_get_battery_total adb serial (S (S (S (S (S n)))))) as (v6 & E6 & _).
  exists s1, s2, s3, s4, s5, v6. split_and!; [done..|].
  unfold query_properties, mbind, M_bind, bind.
  by rewrite E1, E2, E3, E4, E5, E6.
Qed.

Lemma query_properties_frame (adb serial : str) (info info' : gmap str value)
  (n n' : nat) (k : str) :
  query_properties run adb serial info n = (Ok info', n') ->
  k ∉ QUERIED -> info' !! k = info !! k.
Proof.
  destruct (query_properties_total adb serial info n)
    as (s1 & s2 & s3 & s4 & s5 & v6 & _ & _ & _ & _ & _ & _ & E).
  rewrite E. intros [= <- <-] Hk. unfold QUERIED in Hk.
  rewrite !not_elem_of_cons in Hk. destruct Hk as (? & ? & ? & ? & ? & ? & _).
  by rewrite !lookup_insert_ne.
Qed.

(** What one pass of the loop does, in the words of the
    specification. *)
Lemma scan_line_spec (adb line : str) (n : nat) :
  if listed line
  then exists info n',
      scan_line run adb line n = (Ok (Append info), n')
      /\ (forall k, k ∉ QUERIED -> info !! k = listing_info line !! k)
      /\ (status_token line = txt "unauthorized" -> info = listing_info line /\ n' = n)
      /\ (status_token line = txt "device" ->
          query_properties run adb (nth 0 (split_ws (strip line)) []) (listing_info line) n
          = (Ok info, n'))
  else scan_line run adb line n = (Ok Continue, n).
Proof.
  unfold listed, scan_line.
  destruct (bool_decide (strip line = [])) eqn:Hblank; [done|].
  apply bool_decide_eq_false in Hblank.
  destruct (contains (txt "offline") (strip line)) eqn:Hoff; [done|].
  cbn [negb andb orb].
  pose proof (split_ws_strip_nonempty line Hblank) as Hparts.
  assert (Hstatus : (if bool_decide (1 < length (split_ws (strip line)))%nat
                     then nth 1 (split_ws (strip line)) [] else txt "unknown")
                    = status_token line).
  { unfold status_token. destruct (split_ws (strip line)) as [|a [|b l]]; done. }
  unfold listing_info.
  destruct (split_ws (strip line)) as [|serial parts] eqn:Eparts; [done|].
  rewrite Hstatus. clear Hstatus.
  destruct (bool_decide (status_token line = txt "device")) eqn:Hdev.
  - apply bool_decide_eq_true in Hdev. cbn [orb negb].
    rewrite collect_aux_spec.
    destruct (query_properties_total adb (serial : str)
                (list_to_map (rev (aux_pairs (skipn 2 (serial :: parts))))
                 ∪ <[txt "status" := VStr (status_token line)]>
                     (<[txt "serial" := VStr serial]> ∅)) n)
      as (s1 & s2 & s3 & s4 & s5 & v6 & _ & _ & _ & _ & _ & _ & E).
    eexists _, _. unfold mbind, M_bind, bind. rewrite E. split; [reflexivity|].
    split_and!.
    + intros k Hk. eapply query_properties_frame; [exact E|exact Hk].
    + rewrite Hdev. intros [=].
    + intros _. exact E.
  - cbn [orb]. destruct (bool_decide (status_token line = txt "unauthorized")) eqn:Hun;
      [|done].
    apply bool_decide_eq_false in Hdev.
    cbn [negb]. rewrite collect_aux_spec. eexists _, _. split; [reflexivity|]. done.
Qed.

(** What the six queries leave in the dictionary when they fail. *)
Lemma query_properties_degraded (adb serial : str) (info : gmap str value) (n : nat) :
  exists info',
    query_properties run adb serial info n = (Ok info', (n + 6)%nat)
    /\ (forall e, run n (getprop_argv adb serial (txt "ro.product.model")) = Failed e ->
          info' !! txt "model" = Some (dict_get info (txt "model") (VStr serial)))
    /\ (forall e, run (n + 1)%nat
                      (getprop_argv adb serial (txt "ro.product.manufacturer"))
                  = Failed e ->
          info' !! txt "manufacturer" = Some (VStr []))
    /\ (forall e, run (n + 2)%nat
                      (getprop_argv adb serial (txt "ro.build.version.release"))
                  = Failed e ->
          info' !! txt "android_version" = Some (VStr []))
    /\ (forall e, run (n + 3)%nat
                      (getprop_argv adb serial (txt "ro.build.version.sdk"))
                  = Failed e ->
          info' !! txt "sdk" = Some (VStr []))
    /\ (forall e, run (n + 4)%nat (wm_size_argv adb serial) = Failed e ->
          info' !! txt "resolution" = Some (VStr []))
    /\ (forall e, run (n + 5)%nat (battery_argv adb serial) = Failed e ->
          info' !! txt "battery" = Some VNone).
Proof.
  destruct (query_properties_total adb serial info n)
    as (s1 & s2 & s3 & s4 & s5 & v6 & E1 & E2 & E3 & E4 & E5 & E6 & E).
  eexists. split; [rewrite E; f_equal; lia|].
  replace (n + 1)%nat with (S n) by lia.
  replace (n + 2)%nat with (S (S n)) by lia.
  replace (n + 3)%nat with (S (S (S n))) by lia.
  replace (n + 4)%nat with (S (S (S (S n)))) by lia.
  replace (n + 5)%nat with (S (S (S (S (S n))))) by lia.
  split_and!; intros e Hrun.
  + destruct (_adb_prop_total adb serial (txt "ro.product.model") n)
      as (s & E' & Hfail & _).
    assert (s1 = []) as -> by (rewrite E' in E1; injection E1 as <-; eauto).
    do 5 (rewrite lookup_insert_ne by literals_differ). by rewrite lookup_insert_eq.
  + destruct (_adb_prop_total adb serial (txt "ro.product.manufacturer") (S n))
      as (s & E' & Hfail & _).
    assert (s2 = []) as -> by (rewrite E' in E2; injection E2 as <-; eauto).
    do 4 (rewrite lookup_insert_ne by literals_differ). by rewrite lookup_insert_eq.
  + destruct (_adb_prop_total adb serial (txt "ro.build.version.release") (S (S n)))
      as (s & E' & Hfail & _).
    assert (s3 = []) as -> by (rewrite E' in E3; injection E3 as <-; eauto).
    do 3 (rewrite lookup_insert_ne by literals_differ). by rewrite lookup_insert_eq.
  + destruct (_adb_prop_total adb serial (txt "ro.build.version.sdk") (S (S (S n))))
      as (s & E' & Hfail & _).
    assert (s4 = []) as -> by (rewrite E' in E4; injection E4 as <-; eauto).
    do 2 (rewrite lookup_insert_ne by literals_differ). by rewrite lookup_insert_eq.
  + destruct (_get_resolution_total adb serial (S (S (S (S n)))))
      as (s & E' & Hfail & _).
    assert (s5 = []) as -> by (rewrite E' in E5; injection E5 as <-; eauto).
    do 1 (rewrite lookup_insert_ne by literals_differ). by rewrite lookup_insert_eq.
  + destruct (_get_battery_total adb serial (S (S (S (S (S n))))))
      as (v & E' & Hfail).
    assert (v6 = VNone) as -> by (rewrite E' in E6; injection E6 as <-; eauto).
    by rewrite lookup_insert_eq.
Qed.

Lemma scan_lines_spec (adb : str) (lines : list str) (devices : list (gmap str value))
  (n : nat) :
  exists found n',
    scan_lines run adb lines devices n = (Ok (devices ++ found), n')
    /\ Forall2 (fun line info =>
                  (forall k, k ∉ QUERIED -> info !! k = listing_info line !! k)
                  /\ (status_token line = txt "unauthorized" -> info = listing_info line))
               (List.filter listed lines) found.
Proof.
  revert devices n. induction lines as [|line lines IH]; intros devices n.
  - exists [], n. simpl. rewrite app_nil_r. split; [done|constructor].
  - cbn [scan_lines List.filter]. unfold mbind, M_bind, bind.
    pose proof (scan_line_spec adb line n) as Hline.
    destruct (listed line).
    + destruct Hline as (info & n1 & E & Hframe & Hun & _). rewrite E.
      destruct (IH (devices ++ [info]) n1) as (found & n' & E' & Hall).
      exists (info :: found), n'. rewrite E', <- app_assoc. split; [done|].
      constructor; [|done]. split; [done|]. intros Hs. by apply Hun.
    + rewrite Hline. apply IH.
Qed.

End BridgeFacts.

(** C3.  When the invocation of the bridge tool times out, finds no
    executable, or fails with any other OS-level error, [get_adb_devices]
    returns the empty list and raises nothing. *)
Theorem listing_failure_gives_empty_list
  (run : nat -> list str -> run_outcome) (adb_path : str) (n : nat) (e : exn) :
  run n [adb_path; txt "devices"; txt "-l"] = Failed e ->
  e = TimeoutExpired \/ e = FileNotFoundError \/ e = OSError ->
  get_adb_devices run adb_path n = (Ok [], S n).
Proof.
  intros Hrun He. unfold get_adb_devices, mbind, M_bind, bind, subprocess_run.
  rewrite Hrun. by destruct He as [-> | [-> | ->]].
Qed.

Lemma listing_failure_gives_empty_list_witness :
  get_adb_devices (fun _ _ => Failed TimeoutExpired) (txt "adb") 0%nat = (Ok [], 1%nat).
Proof.
  apply (listing_failure_gives_empty_list (fun _ _ => Failed TimeoutExpired)
           (txt "adb") 0%nat TimeoutExpired); [reflexivity|by left].
Defined.

(** C4.  When the bridge tool answers, [get_adb_devices] returns one
    dictionary per listed line, in the order of the lines: the first line
    (the header) is dropped, and a line is listed exactly when it is not
    blank, does not contain "offline", and has "device" or "unauthorized"
    as its status token.  Outside the six queried keys the dictionary of a
    line holds its serial, its status and its [key:value] tokens (for an
    unauthorized device it holds nothing else). *)
Theorem listing_keeps_listed_lines_in_order
  (run : nat -> list str -> run_outcome) (adb_path : str) (n : nat) (stdout : str) :
  run n [adb_path; txt "devices"; txt "-l"] = Completed stdout ->
  exists devices n',
    get_adb_devices run adb_path n = (Ok devices, n')
    /\ Forall2 (fun line info =>
                  (forall k, k ∉ QUERIED -> info !! k = listing_info line !! k)
                  /\ (status_token line = txt "unauthorized" -> info = listing_info line))
               (List.filter listed (skipn 1 (splitlines (strip stdout)))) devices.
Proof.
  intros Hrun. unfold get_adb_devices, mbind, M_bind, bind, subprocess_run. rewrite Hrun.
  destruct (scan_lines_spec run adb_path (skipn 1 (splitlines (strip stdout))) [] (S n))
    as (found & n' & E & Hall).
  exists found, n'. by rewrite E.
Qed.

Lemma listing_keeps_listed_lines_in_order_witness :
  exists devices n',
    get_adb_devices sample_run (txt "adb") 0%nat = (Ok devices, n')
    /\ Forall2 (fun line info =>
                  (forall k, k ∉ QUERIED -> info !! k = listing_info line !! k)
                  /\ (status_token line = txt "unauthorized" -> info = listing_info line))
               (List.filter listed (skipn 1 (splitlines (strip sample_listing)))) devices.
Proof.
  apply (listing_keeps_listed_lines_in_order sample_run (txt "adb") 0%nat sample_listing).
  reflexivity.
Defined.

(** C10.  A line that consists of a single token is skipped and nothing
    is raised: its status defaults to "unknown", which is neither "device"
    nor "unauthorized".  The loop as a whole never raises, so no index
    past the end of the token list is ever read. *)
Theorem single_token_line_is_skipped
  (run : nat -> list str -> run_outcome) (adb_path : str) :
  (forall line tok n,
      split_ws (strip line) = [tok] ->
      status_token line = txt "unknown"
      /\ listed line = false
      /\ scan_line run adb_path line n = (Ok Continue, n)
      /\ forall lines devices,
           scan_lines run adb_path (line :: lines) devices n
           = scan_lines run adb_path lines devices n)
  /\ (forall lines devices n,
        exists devices' n', scan_lines run adb_path lines devices n = (Ok devices', n')).
Proof.
  split.
  - intros line tok n Hparts.
    assert (Hst : status_token line = txt "unknown") by (unfold status_token; by rewrite Hparts).
    assert (Hl : listed line = false).
    { unfold listed. rewrite Hst. by rewrite !andb_false_r. }
    pose proof (scan_line_spec run adb_path line n) as Hline. rewrite Hl in Hline.
    split_and!; [done..|]. intros lines devices.
    cbn [scan_lines]. unfold mbind, M_bind, bind. by rewrite Hline.
  - intros lines devices n.
    destruct (scan_lines_spec run adb_path lines devices n) as (found & n' & E & _).
    by eexists _, _.
Qed.

Lemma single_token_line_is_skipped_witness :
  scan_line sample_run (txt "adb") (txt "LONE") 7%nat = (Ok Continue, 7%nat).
Proof.
  apply (proj1 (single_token_line_is_skipped sample_run (txt "adb"))
           (txt "LONE") (txt "LONE") 7%nat).
  reflexivity.
Defined.

(** C6 as stated fails for the model: every query of the only device
    times out, and its "model" entry is the serial. *)
Lemma failed_model_query_is_not_emptied :
  (forall n argv, (0 < n)%nat -> queries_time_out n argv = Failed TimeoutExpired)
  /\ exists info,
       get_adb_devices queries_time_out (txt "adb") 0%nat = (Ok [info], 7%nat)
       /\ info !! txt "model" = Some (VStr (txt "ABC"))
       /\ ~ emptied (info !! txt "model").
Proof.
  split; [intros [|n] argv Hn; [lia|done]|].
  set (line := txt "ABC device").
  assert (Hparts : split_ws (strip line) = [txt "ABC"; txt "device"]) by reflexivity.
  assert (Hstatus : status_token line = txt "device") by reflexivity.
  pose proof (scan_line_spec queries_time_out (txt "adb") line 1%nat) as Hline.
  replace (listed line) with true in Hline by reflexivity.
  destruct Hline as (info & n' & Escan & _ & _ & Hq). specialize (Hq Hstatus).
  rewrite Hparts in Hq. cbn [nth] in Hq.
  destruct (query_properties_degraded queries_time_out (txt "adb") (txt "ABC")
              (listing_info line) 1%nat) as (info' & Eq & Hmodel & _).
  rewrite Eq in Hq. injection Hq as <- <-.
  specialize (Hmodel TimeoutExpired eq_refl).
  assert (Hname : dict_get (listing_info line) (txt "model") (VStr (txt "ABC"))
                  = VStr (txt "ABC")).
  { unfold dict_get, listing_info. rewrite Hparts. cbn [skipn aux_pairs omap list_omap rev].
    cbn [list_to_map foldr]. rewrite lookup_union, lookup_empty.
    do 2 (rewrite lookup_insert_ne by literals_differ). by rewrite lookup_empty. }
  rewrite Hname in Hmodel.
  exists info'. split_and!.
  - unfold get_adb_devices, mbind, M_bind, bind, subprocess_run.
    change (queries_time_out 0 [txt "adb"; txt "devices"; txt "-l"])
      with (Completed (txt "List of devices attached
ABC device
")).
    cbn beta iota.
    match goal with
    | |- scan_lines _ _ ?ls _ _ = _ => replace ls with [line] by reflexivity
    end.
    cbn [scan_lines]. unfold mbind, M_bind, bind. by rewrite Escan.
  - exact Hmodel.
  - rewrite Hmodel. by intros [H|[H|H]].
Qed.

(** C6, amended.  A query that fails yields the empty string (no value,
    for the battery) and raises nothing.  In the dictionary of the device
    a failed query leaves the empty string under "manufacturer",
    "android_version", "sdk" and "resolution" and [None] under "battery";
    under "model" it leaves the model token of the listing line, or the
    serial when the line has none.  Whatever the queries answer, the
    listing returns one device per listed line. *)
Theorem failed_queries_degrade_and_never_abort
  (run : nat -> list str -> run_outcome) (adb : str) :
  (forall serial prop n e,
      run n (getprop_argv adb serial prop) = Failed e ->
      _adb_prop run adb serial prop n = (Ok [], S n))
  /\ (forall serial n e,
        run n (wm_size_argv adb serial) = Failed e ->
        _get_resolution run adb serial n = (Ok [], S n))
  /\ (forall serial n e,
        run n (battery_argv adb serial) = Failed e ->
        _get_battery run adb serial n = (Ok VNone, S n))
  /\ (forall serial info n,
        exists info',
          query_properties run adb serial info n = (Ok info', (n + 6)%nat)
          /\ (forall e, run n (getprop_argv adb serial (txt "ro.product.model")) = Failed e ->
                info' !! txt "model" = Some (dict_get info (txt "model") (VStr serial)))
          /\ (forall e, run (n + 1)%nat
                            (getprop_argv adb serial (txt "ro.product.manufacturer"))
                        = Failed e ->
                info' !! txt "manufacturer" = Some (VStr []))
          /\ (forall e, run (n + 2)%nat
                            (getprop_argv adb serial (txt "ro.build.version.release"))
                        = Failed e ->
                info' !! txt "android_version" = Some (VStr []))
          /\ (forall e, run (n + 3)%nat
                            (getprop_argv adb serial (txt "ro.build.version.sdk"))
                        = Failed e ->
                info' !! txt "sdk" = Some (VStr []))
          /\ (forall e, run (n + 4)%nat (wm_size_argv adb serial) = Failed e ->
                info' !! txt "resolution" = Some (VStr []))
          /\ (forall e, run (n + 5)%nat (battery_argv adb serial) = Failed e ->
                info' !! txt "battery" = Some VNone))
  /\ (forall n stdout,
        run n [adb; txt "devices"; txt "-l"] = Completed stdout ->
        exists devices n',
          get_adb_devices run adb n = (Ok devices, n')
          /\ length devices
             = length (List.filter listed (skipn 1 (splitlines (strip stdout))))).
Proof.
  split_and!.
  - intros serial prop n e Hrun.
    destruct (_adb_prop_total run adb serial prop n) as (s & E & Hfail & _).
    by rewrite E, (Hfail e Hrun).
  - intros serial n e Hrun.
    destruct (_get_resolution_total run adb serial n) as (s & E & Hfail & _).
    by rewrite E, (Hfail e Hrun).
  - intros serial n e Hrun.
    destruct (_get_battery_total run adb serial n) as (v & E & Hfail).
    by rewrite E, (Hfail e Hrun).
  - intros serial info n. apply query_properties_degraded.
  - intros n stdout Hrun.
    unfold get_adb_devices, mbind, M_bind, bind, subprocess_run. rewrite Hrun.
    destruct (scan_lines_spec run adb (skipn 1 (splitlines (strip stdout))) [] (S n))
      as (found & n' & E & Hall).
    exists found, n'. rewrite E. split; [done|]. symmetry. by eapply Forall2_length.
Qed.

Lemma failed_queries_degrade_and_never_abort_witness :
  _adb_prop queries_time_out (txt "adb") (txt "ABC") (txt "ro.product.model") 1%nat
  = (Ok [], 2%nat).
Proof.
  apply (proj1 (failed_queries_degrade_and_never_abort queries_time_out (txt "adb"))
           (txt "ABC") (txt "ro.product.model") 1%nat TimeoutExpired).
  reflexivity.
Defined.


(* ===================================================================== *)
(** * Resolution parsing *)
(* ===================================================================== *)

Lemma lead_rest_after (p : ascii -> bool) (s : str) : s = lead p s ++ rest_after p s.
Proof.
  induction s as [|c s IH]; [done|]. simpl. destruct (p c); [|done]. simpl. by f_equal.
Qed.

Lemma lead_Forall (p : ascii -> bool) (s : str) : Forall (fun c => p c = true) (lead p s).
Proof.
  induction s as [|c s IH]; simpl; [constructor|].
  destruct (p c) eqn:E; by constructor.
Qed.

Lemma lead_of_rest_after (p : ascii -> bool) (s : str) : lead p (rest_after p s) = [].
Proof.
  induction s as [|c s IH]; [done|]. simpl. destruct (p c) eqn:E; [done|]. simpl. by rewrite E.
Qed.

Lemma lead_app (p : ascii -> bool) (w r : str) :
  Forall (fun c => p c = true) w -> lead p r = [] ->
  lead p (w ++ r) = w /\ rest_after p (w ++ r) = r.
Proof.
  intros Hw Hr. induction Hw as [|c w Hc _ [IH1 IH2]]; simpl.
  - split; [done|]. destruct r as [|c r]; [done|]. simpl in *. by destruct (p c).
  - rewrite Hc. split; [by f_equal|done].
Qed.

(** A greedy run of grouped characters at the end of a pattern takes
    every leading character it accepts. *)
Lemma greedy_last (p : ascii -> bool) (s : str) :
  greedy (Atom p Plus true) (fun _ => Some []) s = Some (lead p s).
Proof.
  induction s as [|c s IH]; [done|]. simpl. destruct (p c); [|done]. by rewrite IH.
Qed.

(** A greedy run followed by something that cannot start with a
    character of the run gives nothing back. *)
Lemma greedy_then (p : ascii -> bool) (rest : str -> option str) (s : str) :
  (forall c t, p c = true -> rest (c :: t) = None) ->
  greedy (Atom p Plus true) rest s = (fun g => lead p s ++ g) <$> rest (rest_after p s).
Proof.
  intros Hrest. induction s as [|c s IH]; simpl.
  - by destruct (rest []).
  - destruct (p c) eqn:E.
    + rewrite IH. destruct (rest (rest_after p s)) as [g|] eqn:Er; simpl; [done|].
      by apply Hrest.
    + by destruct (rest (c :: s)).
Qed.

(** The pattern [(\d+x\d+)] at the start of a text, computed from the
    leading digits. *)
Lemma match_resolution (s : str) :
  match_here RESOLUTION_RE s =
  match lead is_digit s, rest_after is_digit s with
  | _ :: _, c :: r =>
      if Ascii.eqb "x" c
      then match lead is_digit r with
           | [] => None
           | h => Some (lead is_digit s ++ c :: h)
           end
      else None
  | _, _ => None
  end.
Proof.
  destruct s as [|c s]; [done|].
  cbn [RESOLUTION_RE match_here times accepts lead rest_after].
  destruct (is_digit c) eqn:Hc; [|done].
  rewrite greedy_then.
  - cbn [keep grouped]. destruct (rest_after is_digit s) as [|d r]; [done|].
    destruct (Ascii.eqb_spec "x" d) as [<-|_]; [|done].
    destruct r as [|e r]; [done|]. cbn [lead]. destruct (is_digit e) eqn:He; [|done].
    rewrite greedy_last. reflexivity.
  - intros d t Hd. destruct (Ascii.eqb_spec "x" d) as [<-|_]; [discriminate Hd|done].
Qed.

Lemma match_resolution_size_at (s m : str) :
  match_here RESOLUTION_RE s = Some m <-> size_at s m.
Proof.
  rewrite match_resolution. split.
  - pose proof (lead_rest_after is_digit s) as Hs.
    pose proof (lead_Forall is_digit s) as Hw.
    destruct (lead is_digit s) as [|a w] eqn:Ew; [done|].
    destruct (rest_after is_digit s) as [|c r] eqn:Er; [done|].
    destruct (Ascii.eqb_spec "x" c) as [<-|_]; [|done].
    pose proof (lead_rest_after is_digit r) as Hr.
    pose proof (lead_Forall is_digit r) as Hh.
    pose proof (lead_of_rest_after is_digit r) as Hend.
    destruct (lead is_digit r) as [|b h] eqn:Eh; [done|].
    intros [= <-]. exists (a :: w), (b :: h), (rest_after is_digit r).
    split_and!; try done. by rewrite Hs, Hr at 1.
  - intros (w & h & rest & -> & Hw & Hh & Dw & Dh & Hrest & ->).
    assert (lead is_digit ("x"%char :: h ++ rest) = []) as Hx by done.
    destruct (lead_app is_digit w ("x"%char :: h ++ rest) Dw Hx) as [-> ->].
    destruct (lead_app is_digit h rest Dh Hrest) as [-> _].
    destruct w; [done|]. simpl. by destruct h.
Qed.

Lemma re_search_None (pat : list atom) (s : str) :
  re_search pat s = None <-> forall pre s', s = pre ++ s' -> match_here pat s' = None.
Proof.
  induction s as [|c s IH]; simpl.
  - split.
    + intros H pre s' E. symmetry in E. apply app_eq_nil in E as [_ ->].
      by destruct (match_here pat []).
    + intros H. by rewrite (H [] []).
  - destruct (match_here pat (c :: s)) as [g|] eqn:E.
    + split; [done|]. intros H. by rewrite (H [] (c :: s)) in E.
    + rewrite IH. split.
      * intros H [|d pre] s' Es; simpl in Es; [by subst|].
        injection Es as _ ->. by apply (H pre).
      * intros H pre s' ->. by apply (H (c :: pre)).
Qed.

Lemma re_search_Some (pat : list atom) (s m : str) :
  re_search pat s = Some m <->
  exists pre s', s = pre ++ s' /\ match_here pat s' = Some m
    /\ forall pre' s'', s = pre' ++ s'' -> (length pre' < length pre)%nat ->
         match_here pat s'' = None.
Proof.
  induction s as [|c s IH]; simpl.
  - split.
    + destruct (match_here pat []) as [g|] eqn:E; [|done]. intros [= <-].
      exists [], []. split_and!; [done..|]. simpl. lia.
    + intros (pre & s' & E & Hm & _). symmetry in E. apply app_eq_nil in E as [_ ->].
      by rewrite Hm.
  - destruct (match_here pat (c :: s)) as [g|] eqn:E.
    + split.
      * intros [= <-]. exists [], (c :: s). split_and!; [done..|]. simpl. lia.
      * intros (pre & s' & Es & Hm & Hfirst). destruct pre as [|d pre]; simpl in Es.
        -- subst s'. congruence.
        -- rewrite (Hfirst [] (c :: s)) in E; [done..|]. simpl. lia.
    + rewrite IH. split.
      * intros (pre & s' & -> & Hm & Hfirst). exists (c :: pre), s'.
        split_and!; [done..|]. intros [|d pre'] s'' Es Hlen; simpl in Es.
        -- by subst.
        -- injection Es as _ Es. apply (Hfirst pre'); [done|]. simpl in Hlen. lia.
      * intros (pre & s' & Es & Hm & Hfirst). destruct pre as [|d pre]; simpl in Es.
        -- subst s'. congruence.
        -- injection Es as _ ->. exists pre, s'. split_and!; [done..|].
           intros pre' s'' Es' Hlen.
           apply (Hfirst (c :: pre')); [simpl; by rewrite Es'|simpl; lia].
Qed.

(** C9.  When the shell command answers, [_get_resolution] returns the
    text of the first WIDTHxHEIGHT pattern of the output (the one that
    starts earliest), and the empty string when no part of the output
    begins with such a pattern; "Physical size: 1080x2340" gives
    "1080x2340". *)
Theorem resolution_is_first_size_pattern
  (run : nat -> list str -> run_outcome) (adb serial : str) (n : nat) (out : str) :
  run n (wm_size_argv adb serial) = Completed out ->
  (forall pre s m,
      out = pre ++ s -> size_at s m ->
      (forall pre' s' m', out = pre' ++ s' -> (length pre' < length pre)%nat ->
                          ~ size_at s' m') ->
      _get_resolution run adb serial n = (Ok m, S n))
  /\ ((forall pre s m, out = pre ++ s -> ~ size_at s m) ->
      _get_resolution run adb serial n = (Ok [], S n))
  /\ (out = txt "Physical size: 1080x2340" ->
      _get_resolution run adb serial n = (Ok (txt "1080x2340"), S n)).
Proof.
  intros Hrun.
  destruct (_get_resolution_total run adb serial n) as (r & E & _ & Hout).
  rewrite E, (Hout out Hrun). split_and!.
  - intros pre s m Hs Hm Hfirst.
    assert (re_search RESOLUTION_RE out = Some m) as ->; [|done].
    apply re_search_Some. exists pre, s. split_and!; [done|by apply match_resolution_size_at|].
    intros pre' s'' Es Hlen.
    destruct (match_here RESOLUTION_RE s'') as [m'|] eqn:Em; [|done].
    apply match_resolution_size_at in Em. by destruct (Hfirst pre' s'' m').
  - intros Hnone.
    assert (re_search RESOLUTION_RE out = None) as ->; [|done].
    apply re_search_None. intros pre s Es.
    destruct (match_here RESOLUTION_RE s) as [m|] eqn:Em; [|done].
    apply match_resolution_size_at in Em. by destruct (Hnone pre s m).
  - by intros ->.
Qed.

Lemma resolution_is_first_size_pattern_witness :
  _get_resolution sample_run (txt "adb") (txt "ABC123") 5%nat
  = (Ok (txt "1080x2340"), 6%nat).
Proof.
  apply (resolution_is_first_size_pattern sample_run (txt "adb") (txt "ABC123") 5%nat
           (txt "Physical size: 1080x2340") eq_refl).
  reflexivity.
Defined.

(* ===================================================================== *)
(** * Classification of output lines *)
(* ===================================================================== *)









(* ===================================================================== *)
(** * Reconciliation after a poll *)
(* ===================================================================== *)

Lemma serial_set_serials (devices : list (gmap str value)) :
  Forall has_serial devices -> serial_set devices = Ok (serials devices).
Proof.
  induction 1 as [|d ds [v Hv] _ IH]; [done|].
  cbn [serial_set]. unfold dict_item. rewrite Hv, IH.
  unfold serials. cbn [omap list_omap]. by rewrite Hv.
Qed.

Lemma destroy_card_idem (c : DeviceCard) : destroy_card (destroy_card c) = destroy_card c.
Proof. done. Qed.

Lemma destroy_loop_lookup (ids : list nat) (w : gmap nat DeviceCard) (id : nat) :
  foldl (fun w id => alter destroy_card id w) w ids !! id
  = if decide (id ∈ ids) then destroy_card <$> w !! id else w !! id.
Proof.
  revert w. induction ids as [|i ids IH]; intros w; [done|].
  cbn [foldl]. rewrite IH. destruct (decide (i = id)) as [->|Hne].
  - rewrite lookup_alter_eq.
    destruct (decide (id ∈ id :: ids)) as [_|Hn]; [|destruct Hn; apply list_elem_of_here].
    destruct (decide (id ∈ ids)); [|done].
    destruct (w !! id); [|done]. simpl. by rewrite destroy_card_idem.
  - rewrite lookup_alter_ne by done.
    destruct (decide (id ∈ ids)) as [Hin|Hnin], (decide (id ∈ i :: ids)) as [Hin'|Hnin'];
      try done.
    + destruct Hnin'. by apply list_elem_of_further.
    + apply elem_of_cons in Hin' as [?|?]; congruence.
Qed.

(** The loop that builds the cards: one fresh card per device, appended
    in order; nothing else changes. *)
Lemma build_cards_spec (devices : list (gmap str value)) (a : AndroidMirrorApp) :
  Forall card_ready devices ->
  exists a',
    build_cards devices a = (Ok tt, a')
    /\ device_cards a' = device_cards a ++ seq (next_widget a) (length devices)
    /\ next_widget a' = (next_widget a + length devices)%nat
    /\ (forall i d, devices !! i = Some d ->
          widgets a' !! (next_widget a + i)%nat = Some (Card d false false))
    /\ (forall id, (id < next_widget a)%nat -> widgets a' !! id = widgets a !! id)
    /\ adb_path a' = adb_path a /\ scrcpy_path a' = scrcpy_path a
    /\ current_devices a' = current_devices a
    /\ active_mirrors a' = active_mirrors a
    /\ device_count_label a' = device_count_label a
    /\ empty_frame a' = empty_frame a /\ toasts a' = toasts a.
Proof.
  intros Hready. revert a. induction Hready as [|d ds Hd _ IH]; intros a.
  - exists a. simpl. rewrite app_nil_r, Nat.add_0_r. split_and!; done.
  - cbn [build_cards]. rewrite Hd.
    destruct (IH (with_cards (device_cards a ++ [next_widget a])
                    (<[next_widget a := Card d false false]> (widgets a))
                    (S (next_widget a)) a))
      as (a' & E & Hcards & Hnext & Hnew & Hold & ? & ? & ? & ? & ? & ? & ?).
    exists a'. cbn [with_cards device_cards next_widget widgets] in *.
    split_and!; try done.
    + rewrite Hcards, <- app_assoc. done.
    + rewrite Hnext. simpl. lia.
    + intros [|i] d' Hi; simpl in Hi.
      * injection Hi as <-. rewrite Nat.add_0_r, Hold by lia. apply lookup_insert_eq.
      * replace (next_widget a + S i)%nat with (S (next_widget a) + i)%nat by lia.
        by apply Hnew.
    + intros id Hid. rewrite Hold by lia. apply lookup_insert_ne. lia.
Qed.

(** What [_update_count] writes on the label. *)
Lemma _update_count_label (n : nat) (a : AndroidMirrorApp) :
  device_count_label (_update_count n a)
  = match n with
    | 0%nat => ([], (device_count_label a).2)
    | 1%nat => (txt "1 device", ACCENT)
    | _ => (txt (pretty n) ++ txt " devices", ACCENT)
    end.
Proof. by destruct n as [|[|n]]. Qed.

(** C5.  A poll whose device list has the same serial set and the same
    length as the stored list returns normally and only rewrites the
    device-count label (blank for no device, "1 device", or the count
    followed by " devices", in the accent colour): the stored list, the
    cards, their widgets and every other field stay as they were.
    Otherwise the stored list is replaced by the new one, the label is
    rewritten in the same way, every card the application held is
    destroyed, and the cards it then holds are fresh ones, none of them
    an old card, one per device in the order listed, each showing its
    device, unlatched and not destroyed; for an empty list the empty frame
    is rebuilt for the tools at hand and shown instead, for a non-empty
    one it is hidden.  Sessions, tool paths and toasts are untouched in
    both cases. *)
Theorem poll_reconciles_only_on_change
  (devices : list (gmap str value)) (a : AndroidMirrorApp) :
  Forall has_serial (current_devices a) ->
  Forall has_serial devices ->
  (same_listing devices a ->
     exists a',
       _update_device_list devices a = (Ok tt, a')
       /\ device_count_label a'
          = match length devices with
            | 0%nat => ([], (device_count_label a).2)
            | 1%nat => (txt "1 device", ACCENT)
            | _ => (txt (pretty (length devices)) ++ txt " devices", ACCENT)
            end
       /\ current_devices a' = current_devices a
       /\ device_cards a' = device_cards a
       /\ widgets a' = widgets a /\ next_widget a' = next_widget a
       /\ empty_frame a' = empty_frame a
       /\ active_mirrors a' = active_mirrors a
       /\ adb_path a' = adb_path a /\ scrcpy_path a' = scrcpy_path a
       /\ toasts a' = toasts a)
  /\ (~ same_listing devices a -> Forall card_ready devices -> cards_allocated a ->
      exists a',
        _update_device_list devices a = (Ok tt, a')
        /\ current_devices a' = devices
        /\ device_count_label a'
           = match length devices with
             | 0%nat => ([], (device_count_label a).2)
             | 1%nat => (txt "1 device", ACCENT)
             | _ => (txt (pretty (length devices)) ++ txt " devices", ACCENT)
             end
        /\ (forall id card, id ∈ device_cards a -> widgets a !! id = Some card ->
              widgets a' !! id = Some (Card (device card) (_is_mirroring card) true))
        /\ device_cards a' = seq (next_widget a) (length devices)
        /\ (forall id, id ∈ device_cards a' -> id ∉ device_cards a)
        /\ (forall i d, devices !! i = Some d ->
              exists id, device_cards a' !! i = Some id
                         /\ widgets a' !! id = Some (Card d false false))
        /\ (devices = [] ->
            empty_frame a'
            = (match adb_path a, scrcpy_path a with
               | None, _ => AdbNotFound
               | Some _, None => ScrcpyNotFound
               | Some _, Some _ => NoDevicesConnected
               end, true))
        /\ (devices <> [] -> empty_frame a' = ((empty_frame a).1, false))
        /\ active_mirrors a' = active_mirrors a
        /\ adb_path a' = adb_path a /\ scrcpy_path a' = scrcpy_path a
        /\ toasts a' = toasts a).
Proof.
  intros Hcur Hnew. unfold _update_device_list.
  rewrite (serial_set_serials _ Hcur), (serial_set_serials _ Hnew). split.
  - intros [Hs Hl]. rewrite bool_decide_eq_true_2 by done.
    rewrite bool_decide_eq_true_2 by done. eexists. split; [reflexivity|].
    split; [apply _update_count_label|].
    by destruct (length devices) as [|[|n]].
  - intros Hdiff Hready Halloc.
    assert ((bool_decide (serials (current_devices a) = serials devices)
             && bool_decide (length devices = length (current_devices a))) = false) as ->.
    { apply andb_false_iff.
      destruct (decide (serials (current_devices a) = serials devices)) as [Hs|Hs];
        [|left; by apply bool_decide_eq_false].
      right. apply bool_decide_eq_false. intros Hl. by apply Hdiff. }
    set (a1 := _update_count (length devices) (with_current_devices devices a)).
    assert (Hcount : device_count_label a1
                     = match length devices with
                       | 0%nat => ([], (device_count_label a).2)
                       | 1%nat => (txt "1 device", ACCENT)
                       | _ => (txt (pretty (length devices)) ++ txt " devices", ACCENT)
                       end).
    { unfold a1. by rewrite _update_count_label. }
    assert (Hsame : current_devices a1 = devices /\ device_cards a1 = device_cards a
                    /\ widgets a1 = widgets a /\ next_widget a1 = next_widget a
                    /\ active_mirrors a1 = active_mirrors a /\ adb_path a1 = adb_path a
                    /\ scrcpy_path a1 = scrcpy_path a /\ toasts a1 = toasts a
                    /\ empty_frame a1 = empty_frame a).
    { unfold a1, _update_count. by destruct (length devices) as [|[|n]]. }
    destruct Hsame as (H1 & H2 & H3 & H4 & H5 & H6 & H7 & H8 & H9).
    clearbody a1.
    assert (Hdestroyed : forall id card, id ∈ device_cards a -> widgets a !! id = Some card ->
              widgets (destroy_all_cards a1) !! id
              = Some (Card (device card) (_is_mirroring card) true)).
    { intros id card Hin Hc. unfold destroy_all_cards. cbn [with_cards widgets].
      rewrite destroy_loop_lookup, H2, H3, Hc. by rewrite decide_True. }
    assert (Hfresh_ids : forall n id, id ∈ seq (next_widget a) n -> id ∉ device_cards a).
    { intros n id Hid Hold. apply list_elem_of_In, in_seq in Hid.
      unfold cards_allocated in Halloc. rewrite Forall_forall in Halloc.
      specialize (Halloc id Hold). lia. }
    destruct devices as [|d ds].
    + eexists. split; [reflexivity|].
      cbn [_show_empty _build_empty_state with_empty_frame destroy_all_cards with_cards
           device_cards next_widget widgets adb_path scrcpy_path current_devices
           active_mirrors device_count_label empty_frame toasts fst snd length seq].
      split_and!; try done.
      * intros id Hid. by apply elem_of_nil in Hid.
      * intros _. by rewrite H6, H7.
    + destruct (build_cards_spec (d :: ds)
                  (with_empty_frame ((empty_frame (destroy_all_cards a1)).1, false)
                     (destroy_all_cards a1)) Hready)
        as (a' & E & Hcards & Hnext & Hfresh & Hold & ? & ? & ? & ? & ? & Hframe & ?).
      cbn [with_empty_frame destroy_all_cards with_cards device_cards next_widget widgets
           adb_path scrcpy_path current_devices active_mirrors device_count_label
           empty_frame toasts fst snd] in *.
      rewrite app_nil_l in Hcards.
      exists a'. rewrite H4 in *. split_and!; try congruence.
      * intros id card Hin Hc. rewrite Hold.
        -- apply (Hdestroyed id card Hin Hc).
        -- unfold cards_allocated in Halloc. rewrite Forall_forall in Halloc. by apply Halloc.
      * intros id. rewrite Hcards. apply Hfresh_ids.
      * intros i d' Hi. exists (next_widget a + i)%nat. split; [|by apply Hfresh].
        rewrite Hcards. apply lookup_seq. split; [done|]. by eapply lookup_lt_Some.
Qed.

Lemma sample_device_entries :
  sample_device !! txt "serial" = Some (VStr (txt "ABC"))
  /\ sample_device !! txt "status" = Some (VStr (txt "device"))
  /\ other_device !! txt "serial" = Some (VStr (txt "QQQ"))
  /\ other_device !! txt "status" = Some (VStr (txt "unauthorized")).
Proof.
  unfold sample_device, other_device. split_and!.
  - rewrite lookup_insert_ne by literals_differ. apply lookup_insert_eq.
  - apply lookup_insert_eq.
  - rewrite lookup_insert_ne by literals_differ. apply lookup_insert_eq.
  - apply lookup_insert_eq.
Qed.

Lemma sample_devices_card_ready : card_ready sample_device /\ card_ready other_device.
Proof. split; vm_compute; reflexivity. Qed.

Lemma poll_reconciles_only_on_change_witness :
  exists a',
    _update_device_list [sample_device; other_device] polled_app = (Ok tt, a')
    /\ current_devices a' = [sample_device; other_device]
    /\ device_count_label a' = (txt "2 devices", ACCENT)
    /\ widgets a' !! 0%nat = Some (Card sample_device false true)
    /\ device_cards a' = [1%nat; 2%nat]
    /\ widgets a' !! 1%nat = Some (Card sample_device false false)
    /\ widgets a' !! 2%nat = Some (Card other_device false false)
    /\ empty_frame a' = (NoDevicesConnected, false).
Proof.
  destruct sample_device_entries as (Hs1 & _ & Hs2 & _).
  destruct sample_devices_card_ready as [Hr1 Hr2].
  assert (Hcur : Forall has_serial (current_devices polled_app)).
  { repeat constructor. by eexists. }
  assert (Hnew : Forall has_serial [sample_device; other_device]).
  { repeat constructor; by eexists. }
  assert (Hdiff : ~ same_listing [sample_device; other_device] polled_app).
  { intros [_ Hlen]. discriminate Hlen. }
  assert (Hready : Forall card_ready [sample_device; other_device]).
  { by repeat constructor. }
  assert (Halloc : cards_allocated polled_app).
  { unfold cards_allocated, polled_app. cbn. repeat constructor. }
  destruct (proj2 (poll_reconciles_only_on_change _ polled_app Hcur Hnew) Hdiff Hready Halloc)
    as (a' & E & Hdev & Hlab & Hdes & Hids & _ & Hcards & _ & Hframe & _).
  exists a'. split_and!; [exact E|exact Hdev|exact Hlab| |exact Hids| | |].
  - apply (Hdes 0%nat (Card sample_device false false)).
    + apply list_elem_of_here.
    + apply lookup_singleton_eq.
  - destruct (Hcards 0%nat sample_device eq_refl) as (id & Hid & Hw).
    rewrite Hids in Hid. injection Hid as <-. exact Hw.
  - destruct (Hcards 1%nat other_device eq_refl) as (id & Hid & Hw).
    rewrite Hids in Hid. injection Hid as <-. exact Hw.
  - apply Hframe. discriminate.
Defined.

(* ===================================================================== *)
(** * Mirror sessions: invariants of the running program *)
(* ===================================================================== *)

Lemma build_cards_frame (devices : list (gmap str value)) (a : AndroidMirrorApp) :
  scrcpy_path (build_cards devices a).2 = scrcpy_path a
  /\ active_mirrors (build_cards devices a).2 = active_mirrors a.
Proof.
  revert a. induction devices as [|d ds IH]; intros a; cbn [build_cards]; [done|].
  destruct (DeviceCard_init d); [|done]. by destruct (IH (with_cards
    (device_cards a ++ [next_widget a]) (<[next_widget a := a0]> (widgets a))
    (S (next_widget a)) a)) as [-> ->].
Qed.

Lemma _update_count_frame (n : nat) (a : AndroidMirrorApp) :
  scrcpy_path (_update_count n a) = scrcpy_path a
  /\ active_mirrors (_update_count n a) = active_mirrors a.
Proof. by destruct n as [|[|n]]. Qed.

(** Whether it returns or raises, a poll leaves the sessions and the path
    of the mirroring tool alone. *)
Lemma _update_device_list_frame (devices : list (gmap str value)) (a : AndroidMirrorApp) :
  scrcpy_path (_update_device_list devices a).2 = scrcpy_path a
  /\ active_mirrors (_update_device_list devices a).2 = active_mirrors a.
Proof.
  unfold _update_device_list.
  destruct (serial_set (current_devices a)); [|done].
  destruct (serial_set devices); [|done].
  destruct (_ && _).
  - apply _update_count_frame.
  - destruct devices as [|d ds]; [done|].
    match goal with
    | |- context [build_cards ?ds ?x] => destruct (build_cards_frame ds x) as [-> ->]
    end.
    cbn. by destruct (length ds).
Qed.

Lemma _refresh_devices_frame (found_adb found_scrcpy : option str) (a : AndroidMirrorApp) :
  active_mirrors (_refresh_devices found_adb found_scrcpy a) = active_mirrors a
  /\ (scrcpy_path (_refresh_devices found_adb found_scrcpy a) = None ->
      scrcpy_path a = None).
Proof.
  unfold _refresh_devices.
  destruct (adb_path a), found_adb, (scrcpy_path a), found_scrcpy; done.
Qed.

Lemma _on_device_click_frame (alive : nat -> bool) (dev : gmap str value) (card : nat)
  (a a' : AndroidMirrorApp) (started : option launcher) :
  _on_device_click alive dev card a = Ok (a', started) ->
  scrcpy_path a' = scrcpy_path a
  /\ (scrcpy_path a = None -> active_mirrors a' = active_mirrors a /\ started = None).
Proof.
  unfold _on_device_click. destruct (dict_item dev (txt "serial")) as [serial|]; [|done].
  destruct (scrcpy_path a) eqn:Hp.
  - destruct (match active_mirrors a !! serial with Some proc => alive proc | None => false end);
      intros [= <- <-]; cbn; by rewrite Hp.
  - intros [= <- <-]. cbn. by rewrite Hp.
Qed.


Lemma resets_posted_post (tid : nat) (by_ : poster) (calls : list (Z * ui_call)) (w : World) :
  resets_posted tid (post by_ calls w)
  = (resets_posted tid w
     + length (List.filter (is_reset_by tid) (map (fun c => (by_, c.1, c.2)) calls)))%nat.
Proof. unfold resets_posted, post. cbn. by rewrite List.filter_app, length_app. Qed.

Lemma resets_posted_by_monitor (tid p : nat) (calls : list (Z * ui_call)) (w : World) :
  resets_posted tid (post (ByMonitor p) calls w) = resets_posted tid w.
Proof.
  rewrite resets_posted_post.
  assert (List.filter (is_reset_by tid) (map (fun c => (ByMonitor p, c.1, c.2)) calls) = [])
    as ->; [|simpl; lia].
  induction calls as [|c calls IH]; [done|]. simpl. exact IH.
Qed.

Lemma resets_due_insert (tid tid0 : nat) (t t' : launcher) (w w' : World) :
  launchers w !! tid0 = Some t ->
  launchers w' = <[tid0 := t']> (launchers w) ->
  resets_due tid w'
  = if decide (tid = tid0)
    then (if decide (l_pc t' = PcDone) then 1%nat else 0%nat)
    else resets_due tid w.
Proof.
  intros Ht Hl. unfold resets_due. rewrite Hl. destruct (decide (tid = tid0)) as [->|Hne].
  - rewrite list_lookup_insert_eq; [done|]. by eapply lookup_lt_Some.
  - by rewrite list_lookup_insert_ne.
Qed.

Lemma _on_device_click_started (alive : nat -> bool) (dev : gmap str value) (card : nat)
  (a a' : AndroidMirrorApp) (t : launcher) :
  _on_device_click alive dev card a = Ok (a', Some t) ->
  exists serial, dev !! txt "serial" = Some serial /\ t = Launcher serial dev card PcPopen None.
Proof.
  unfold _on_device_click, dict_item.
  destruct (dev !! txt "serial") as [serial|]; [|done].
  destruct (scrcpy_path a); [|done].
  destruct (match active_mirrors a !! serial with Some proc => alive proc | None => false end);
    [done|].
  intros [= <- <-]. by exists serial.
Qed.

Lemma step_notified_when_done (w w' : World) (l : label) :
  notified_when_done w -> step w l = Some w' -> notified_when_done w'.
Proof.
  intros Inv Hstep tid'. specialize (Inv tid').
  destruct l as [dev card|devices|fa fs|tid|tid e|tid|p|p line]; cbn [step] in Hstep.
  - destruct (_on_device_click _ _ _ _) as [[a [t|]]|] eqn:E; [| |done];
      injection Hstep as <-.
    + apply _on_device_click_started in E as (serial & _ & ->).
      unfold resets_posted, resets_due in *. cbn. rewrite lookup_app.
      destruct (launchers w !! tid') as [t|] eqn:Ht; [done|].
      rewrite Inv. by destruct (tid' - length (launchers w))%nat as [|[|k]].
    + unfold resets_posted, resets_due in *. cbn. by rewrite app_nil_r.
  - by injection Hstep as <-.
  - by injection Hstep as <-.
  - destruct (launchers w !! tid) as [t|] eqn:Ht; [|done].
    destruct (l_pc t) eqn:Hpc; try done. destruct (launch_cmd _ _); [|done].
    injection Hstep as <-.
    rewrite (resets_due_insert tid' tid t (at_pc (PcRegister (next_pid w)) (with_proc (next_pid w) t)) w) by done.
    unfold resets_posted in *. cbn. destruct (decide (tid' = tid)) as [->|]; [|done].
    rewrite Inv. unfold resets_due. by rewrite Ht, Hpc.
  - destruct (launchers w !! tid) as [t|] eqn:Ht; [|done].
    destruct (l_pc t) eqn:Hpc; try done; injection Hstep as <-;
      rewrite (resets_due_insert tid' tid t (at_pc (PcExcept e) t) w) by done;
      unfold resets_posted in *; cbn; (destruct (decide (tid' = tid)) as [->|]; [|done]);
      rewrite Inv; unfold resets_due; by rewrite Ht, Hpc.
  - destruct (launchers w !! tid) as [t|] eqn:Ht; [|done].
    destruct (l_pc t) eqn:Hpc; try done.
    + injection Hstep as <-.
      rewrite (resets_due_insert tid' tid t (at_pc (PcStartMonitors proc) t) w) by done.
      unfold resets_posted in *. cbn. destruct (decide (tid' = tid)) as [->|]; [|done].
      rewrite Inv. unfold resets_due. by rewrite Ht, Hpc.
    + injection Hstep as <-.
      rewrite (resets_due_insert tid' tid t (at_pc (PcWait proc) t) w) by done.
      unfold resets_posted in *. cbn. destruct (decide (tid' = tid)) as [->|]; [|done].
      rewrite Inv. unfold resets_due. by rewrite Ht, Hpc.
    + destruct (running w proc); [done|]. injection Hstep as <-.
      rewrite (resets_due_insert tid' tid t (at_pc PcFinallyPop t) w) by done.
      unfold resets_posted in *. cbn. destruct (decide (tid' = tid)) as [->|]; [|done].
      rewrite Inv. unfold resets_due. by rewrite Ht, Hpc.
    + injection Hstep as <-.
      rewrite (resets_due_insert tid' tid t (at_pc PcFinallyPop t)
                 (post (ByLauncher tid) [(0, ErrorToast e)] w)) by done.
      unfold resets_due at 1. cbn [post launchers]. fold (resets_due tid' w).
      change (resets_posted tid' (with_launcher tid (at_pc PcFinallyPop t)
                (post (ByLauncher tid) [(0, ErrorToast e)] w)))
        with (resets_posted tid' (post (ByLauncher tid) [(0, ErrorToast e)] w)).
      rewrite resets_posted_post. cbn. rewrite Nat.add_0_r.
      destruct (decide (tid' = tid)) as [->|]; [|done].
      rewrite Inv. unfold resets_due. by rewrite Ht, Hpc.
    + injection Hstep as <-.
      rewrite (resets_due_insert tid' tid t (at_pc PcFinallyNotify t) w) by done.
      unfold resets_posted in *. cbn. destruct (decide (tid' = tid)) as [->|]; [|done].
      rewrite Inv. unfold resets_due. by rewrite Ht, Hpc.
    + injection Hstep as <-.
      rewrite (resets_due_insert tid' tid t (at_pc PcDone t)
                 (post (ByLauncher tid) [(0, ResetState (l_card t))] w)) by done.
      unfold resets_due at 1. cbn [post launchers]. fold (resets_due tid' w).
      change (resets_posted tid' (with_launcher tid (at_pc PcDone t)
                (post (ByLauncher tid) [(0, ResetState (l_card t))] w)))
        with (resets_posted tid' (post (ByLauncher tid) [(0, ResetState (l_card t))] w)).
      rewrite resets_posted_post. cbn.
      destruct (decide (tid' = tid)) as [->|Hne].
      * rewrite bool_decide_eq_true_2 by done. rewrite Inv. unfold resets_due.
        by rewrite Ht, Hpc.
      * rewrite bool_decide_eq_false_2 by congruence. simpl. lia.
  - destruct (procs w !! p) as [pr|]; [|done]. destruct (has_exited pr); [done|].
    by injection Hstep as <-.
  - destruct (bool_decide _); [|done]. injection Hstep as <-.
    rewrite resets_posted_by_monitor. exact Inv.
Qed.

Lemma run_steps_invariant (P : World -> Prop) :
  (forall w w' l, P w -> step w l = Some w' -> P w') ->
  forall ls w w', P w -> run_steps w ls = Some w' -> P w'.
Proof.
  intros Hstep. induction ls as [|l ls IH]; intros w w' Hw; cbn [run_steps].
  - by intros [= <-].
  - destruct (step w l) as [w1|] eqn:E; [|done]. apply IH. by eapply Hstep.
Qed.


Lemma reachable_notified_when_done (w : World) : reachable w -> notified_when_done w.
Proof.
  intros (fa & fs & ls & Hrun).
  eapply (run_steps_invariant notified_when_done step_notified_when_done); [|exact Hrun].
  by intros tid.
Qed.

Lemma world_after_reachable (ls : list label) :
  run_steps (initial (Some (txt "adb")) (Some (txt "scrcpy"))) ls <> None ->
  reachable (world_after ls).
Proof.
  intros H. exists (Some (txt "adb")), (Some (txt "scrcpy")), ls. unfold world_after.
  by destruct (run_steps _ ls).
Qed.

(* ===================================================================== *)
(** * Mirror sessions: one live session per serial *)
(* ===================================================================== *)



(* ===================================================================== *)
(** * Mirror sessions: the end of a session *)
(* ===================================================================== *)

Lemma launcher_after_update (tid : nat) (t t' : launcher) (w : World) :
  launchers w !! tid = Some t ->
  launchers (with_launcher tid t' w) !! tid = Some t'.
Proof. intros Ht. cbn. apply list_lookup_insert_eq. by eapply lookup_lt_Some. Qed.

(** From the [finally] clause on. *)
Lemma ended_from_pop (w : World) (tid : nat) (t : launcher) :
  launchers w !! tid = Some t -> l_pc t = PcFinallyPop -> resets_posted tid w = 0%nat ->
  ended_once w tid t [Advance tid; Advance tid].
Proof.
  intros Ht Hpc Hnone. unfold ended_once.
  set (w1 := with_launcher tid (at_pc PcFinallyNotify t)
               (with_app (with_active_mirrors
                            (delete (l_serial t) (active_mirrors (app w))) (app w)) w)).
  assert (H1 : step w (Advance tid) = Some w1) by (cbn [step]; by rewrite Ht, Hpc).
  assert (Ht1 : launchers w1 !! tid = Some (at_pc PcFinallyNotify t))
    by (by apply (launcher_after_update tid t)).
  set (w2 := with_launcher tid (at_pc PcDone t)
               (post (ByLauncher tid) [(0, ResetState (l_card t))] w1)).
  assert (H2 : step w1 (Advance tid) = Some w2) by (cbn [step]; by rewrite Ht1).
  exists w2. cbn [run_steps]. rewrite H1, H2. split_and!.
  - done.
  - by apply (launcher_after_update tid (at_pc PcFinallyNotify t)).
  - change (resets_posted tid w2)
      with (resets_posted tid (post (ByLauncher tid) [(0, ResetState (l_card t))] w1)).
    rewrite resets_posted_post. change (resets_posted tid w1) with (resets_posted tid w).
    rewrite Hnone. cbn. by rewrite bool_decide_eq_true_2.
  - cbn. apply last_snoc.
  - cbn. apply lookup_delete_eq.
Qed.

(** From the [except] clause on. *)
Lemma ended_from_except (w : World) (tid : nat) (t : launcher) (e : exn) :
  launchers w !! tid = Some t -> l_pc t = PcExcept e -> resets_posted tid w = 0%nat ->
  ended_once w tid t [Advance tid; Advance tid; Advance tid].
Proof.
  intros Ht Hpc Hnone.
  set (w1 := with_launcher tid (at_pc PcFinallyPop t)
               (post (ByLauncher tid) [(0, ErrorToast e)] w)).
  assert (H1 : step w (Advance tid) = Some w1) by (cbn [step]; by rewrite Ht, Hpc).
  assert (Ht1 : launchers w1 !! tid = Some (at_pc PcFinallyPop t))
    by (by apply (launcher_after_update tid t)).
  assert (Hnone1 : resets_posted tid w1 = 0%nat).
  { change (resets_posted tid w1)
      with (resets_posted tid (post (ByLauncher tid) [(0, ErrorToast e)] w)).
    rewrite resets_posted_post, Hnone. done. }
  destruct (ended_from_pop w1 tid (at_pc PcFinallyPop t) Ht1 eq_refl Hnone1)
    as (w' & Hrun & Hdone & Hone & Hlast & Habsent).
  exists w'. cbn [run_steps]. rewrite H1. by split_and!.
Qed.

Lemma thrown_then_ended (w : World) (tid : nat) (t : launcher) (e : exn) :
  launchers w !! tid = Some t ->
  (l_pc t = PcPopen \/ exists p, l_pc t = PcWait p) ->
  resets_posted tid w = 0%nat ->
  ended_once w tid t [Throw tid e; Advance tid; Advance tid; Advance tid].
Proof.
  intros Ht Hpc Hnone.
  set (w1 := with_launcher tid (at_pc (PcExcept e) t) w).
  assert (H1 : step w (Throw tid e) = Some w1).
  { cbn [step]. rewrite Ht. by destruct Hpc as [->|[p ->]]. }
  assert (Ht1 : launchers w1 !! tid = Some (at_pc (PcExcept e) t))
    by (by apply (launcher_after_update tid t)).
  destruct (ended_from_except w1 tid (at_pc (PcExcept e) t) e Ht1 eq_refl Hnone)
    as (w' & Hrun & Hdone & Hone & Hlast & Habsent).
  exists w'. cbn [run_steps]. rewrite H1. by split_and!.
Qed.

(** C7.  In every state the running program can reach, a [launch]
    thread has posted [card.reset_state] once if it is done and not at
    all before.  Once its process has exited, the thread runs to its end:
    it removes the serial from the sessions map and posts the
    notification, once.  The same holds when [Popen] raises (spawn
    failure) and when an exception interrupts the wait.  While the
    process runs the thread stays blocked, and a thread that is done takes
    no further step, so no second notification can follow. *)
Theorem session_end_notifies_once (w : World) (tid : nat) (t : launcher) :
  reachable w ->
  launchers w !! tid = Some t ->
  resets_posted tid w = (if decide (l_pc t = PcDone) then 1 else 0)%nat
  /\ (forall p, l_pc t = PcWait p -> running w p = false ->
        ended_once w tid t [Advance tid; Advance tid; Advance tid])
  /\ (forall e, l_pc t = PcPopen ->
        ended_once w tid t [Throw tid e; Advance tid; Advance tid; Advance tid])
  /\ (forall p e, l_pc t = PcWait p ->
        ended_once w tid t [Throw tid e; Advance tid; Advance tid; Advance tid])
  /\ (forall p, l_pc t = PcWait p -> running w p = true -> step w (Advance tid) = None)
  /\ (l_pc t = PcDone ->
      step w (Advance tid) = None /\ step w (PopenOk tid) = None
      /\ forall e, step w (Throw tid e) = None).
Proof.
  intros Hreach Ht.
  pose proof (reachable_notified_when_done w Hreach tid) as Hcount.
  unfold resets_due in Hcount. rewrite Ht in Hcount.
  assert (Hnone : l_pc t <> PcDone -> resets_posted tid w = 0%nat).
  { intros Hpc. by rewrite Hcount, decide_False. }
  split_and!.
  - exact Hcount.
  - intros p Hpc Hrun.
    set (w1 := with_launcher tid (at_pc PcFinallyPop t) w).
    assert (H1 : step w (Advance tid) = Some w1) by (cbn [step]; by rewrite Ht, Hpc, Hrun).
    assert (Ht1 : launchers w1 !! tid = Some (at_pc PcFinallyPop t))
      by (by apply (launcher_after_update tid t)).
    assert (Hnone1 : resets_posted tid w1 = 0%nat) by (apply Hnone; by rewrite Hpc).
    destruct (ended_from_pop w1 tid (at_pc PcFinallyPop t) Ht1 eq_refl Hnone1)
      as (w' & Hrun' & Hdone & Hone & Hlast & Habsent).
    exists w'. cbn [run_steps]. rewrite H1. by split_and!.
  - intros e Hpc. apply thrown_then_ended; [done|by left|]. apply Hnone. by rewrite Hpc.
  - intros p e Hpc. apply thrown_then_ended; [done|right; by exists p|].
    apply Hnone. by rewrite Hpc.
  - intros p Hpc Hrun. cbn [step]. by rewrite Ht, Hpc, Hrun.
  - intros Hpc. cbn [step]. rewrite Ht, Hpc. done.
Qed.

Lemma session_end_notifies_once_witness :
  ended_once (world_after exited_trace) 0%nat
    (Launcher (VStr (txt "ABC")) sample_device 0%nat (PcWait 0%nat) (Some 0%nat))
    [Advance 0%nat; Advance 0%nat; Advance 0%nat].
Proof.
  assert (Hreach : reachable (world_after exited_trace)).
  { apply world_after_reachable. intros H. vm_compute in H. discriminate H. }
  assert (Ht : launchers (world_after exited_trace) !! 0%nat
               = Some (Launcher (VStr (txt "ABC")) sample_device 0%nat (PcWait 0%nat) (Some 0%nat)))
    by (vm_compute; reflexivity).
  assert (Hrun : running (world_after exited_trace) 0%nat = false)
    by (vm_compute; reflexivity).
  exact (proj1 (proj2 (session_end_notifies_once (world_after exited_trace) 0%nat _ Hreach Ht))
           0%nat eq_refl Hrun).
Defined.

(* ===================================================================== *)
(** * Checks on concrete inputs *)
(* ===================================================================== *)

Example parse_version_samples :
  _parse_version (JStr (txt "2.1")) = [2; 1]
  /\ _parse_version (JStr (txt " 2.1.0 ")) = [2; 1; 0]
  /\ _parse_version (JStr (txt "2..0")) = [0; 0; 0]
  /\ _parse_version (JStr []) = [0; 0; 0]
  /\ _parse_version (JNum 3) = [0; 0; 0].
Proof. by split_and!. Qed.

Example shorter_version_is_smaller :
  tuple_gt (_parse_version (JStr (txt "2.0"))) (_parse_version (JStr VERSION)) = false
  /\ tuple_gt (_parse_version (JStr (txt "2.0.0.1"))) (_parse_version (JStr VERSION)) = true.
Proof. by split. Qed.

Example first_size_wins :
  re_search RESOLUTION_RE (txt "Physical size: 1080x2340
Override size: 720x1280") = Some (txt "1080x2340").
Proof. reflexivity. Qed.

Example no_size_in_output :
  re_search RESOLUTION_RE (txt "wm: no display x found") = None.
Proof. reflexivity. Qed.

Example battery_level_sample :
  re_search BATTERY_RE (txt "  AC powered: false
  level: 87
  scale: 100") = Some (txt "87").
Proof. reflexivity. Qed.

Example listed_sample_lines :
  List.filter listed (skipn 1 (splitlines (strip sample_listing)))
  = [txt "ABC123 device usb:1-1 product:sailfish model:Pixel";
     txt "QQQ unauthorized usb:1-2"].
Proof. reflexivity. Qed.

Example success_line_sample :
  monitor_line (txt "  Success
") = [(0, INSTALL_SUCCESS); (0, ShowInstallPopup true); (3000, STATUS_RESET)].
Proof. reflexivity. Qed.

Example success_after_installing_sample :
  monitor_line (txt "Installing app.apk: Success") = [(0, INSTALLING)].
Proof. reflexivity. Qed.

Example silent_read_error_sample :
  monitor_output [Some (txt "error: device offline"); None; Some (txt "Success")]
  = [(0, INSTALL_FAILURE); (0, ShowInstallPopup false); (3000, STATUS_RESET)].
Proof. reflexivity. Qed.

(** The guard of [_on_device_click] reads the sessions map only: a click
    that arrives before the first [launch] thread has stored its handle
    starts a second thread. *)
Example click_before_handle_is_stored :
  length (launchers (world_after [Click sample_device 0%nat; Click sample_device 1%nat]))
  = 2%nat.
Proof. vm_compute. reflexivity. Qed.

Example session_runs_to_its_end :
  let w := world_after (exited_trace ++ [Advance 0%nat; Advance 0%nat; Advance 0%nat]) in
  map l_pc (launchers w) = [PcDone]
  /\ posted w = [(ByLauncher 0%nat, 0, ResetState 0%nat)]
  /\ map_to_list (active_mirrors (app w)) = [].
Proof. vm_compute. by split_and!. Qed.

(* ===================================================================== *)
(** * Further properties: numbers and versions *)
(* ===================================================================== *)

Lemma digit_not_space (c : ascii) : is_digit c = true -> is_space c = false.
Proof. destruct c as [[] [] [] [] [] [] [] []]; vm_compute; congruence. Qed.

Lemma digit_not_sign (c : ascii) :
  is_digit c = true -> (code c =? 45)%N = false /\ (code c =? 43)%N = false
                       /\ (code c =? 95)%N = false /\ 0 <= digit_val c.
Proof. destruct c as [[] [] [] [] [] [] [] []]; vm_compute; intuition congruence. Qed.

Lemma strip_fixed (s : str) (c d : ascii) (t : str) :
  s = c :: t -> last s = Some d -> is_space c = false -> is_space d = false ->
  strip s = s.
Proof.
  intros -> Hlast Hc Hd. unfold strip, rstrip. rewrite lstrip_fixed by done.
  destruct (rev (c :: t)) as [|e r] eqn:E.
  - apply (f_equal (@length _)) in E. rewrite length_rev in E. discriminate E.
  - assert (e = d) as ->.
    { rewrite <- (rev_involutive (c :: t)), E in Hlast. simpl in Hlast.
      rewrite last_snoc in Hlast. congruence. }
    rewrite lstrip_fixed by done. by rewrite <- E, rev_involutive.
Qed.

Lemma int_digits_all (ds : str) (acc : Z) (prev : bool) :
  Forall (fun c => is_digit c = true) ds -> (prev = true \/ ds <> []) ->
  int_digits acc prev ds = Some (fold_left (fun a c => 10 * a + digit_val c) ds acc).
Proof.
  intros Hd. revert acc prev. induction Hd as [|c ds Hc _ IH]; intros acc prev Hne.
  - destruct Hne as [->|?]; done.
  - cbn [int_digits fold_left]. rewrite Hc. apply IH. by left.
Qed.

Lemma fold_digits_nonneg (ds : str) (acc : Z) :
  Forall (fun c => is_digit c = true) ds -> 0 <= acc ->
  0 <= fold_left (fun a c => 10 * a + digit_val c) ds acc.
Proof.
  intros Hd. revert acc. induction Hd as [|c ds Hc _ IH]; intros acc Hacc; [done|].
  cbn [fold_left]. apply IH. destruct (digit_not_sign c Hc) as (_ & _ & _ & ?). lia.
Qed.

Lemma int_strip_fixed (s : str) (c d : ascii) (t : str) :
  s = c :: t -> last s = Some d -> is_c_space c = false -> is_c_space d = false ->
  int_strip s = s.
Proof.
  intros -> Hlast Hc Hd. unfold int_strip. cbn [skip_c_space]. rewrite Hc.
  destruct (rev (c :: t)) as [|e r] eqn:E.
  - apply (f_equal (@length _)) in E. rewrite length_rev in E. discriminate E.
  - assert (e = d) as ->.
    { rewrite <- (rev_involutive (c :: t)), E in Hlast. simpl in Hlast.
      rewrite last_snoc in Hlast. congruence. }
    cbn [skip_c_space]. rewrite Hd. by rewrite <- E, rev_involutive.
Qed.

Lemma filter_digits_all (ds : str) :
  Forall (fun c => is_digit c = true) ds -> List.filter is_digit ds = ds.
Proof. induction 1 as [|c ds Hc _ IH]; [done|]. simpl. by rewrite Hc, IH. Qed.

(** [int] of a non-empty string of digits is its decimal value, unless
    the digits are more than the limit. *)
Lemma py_int_digits (ds : str) :
  Forall (fun c => is_digit c = true) ds -> ds <> [] ->
  py_int ds = (if INT_MAX_STR_DIGITS <? Z.of_nat (length ds) then None
               else Some (decimal ds))
  /\ 0 <= decimal ds.
Proof.
  intros Hd Hne. split; [|by apply fold_digits_nonneg].
  destruct ds as [|c t] eqn:E; [done|]. rewrite <- E in *.
  assert (exists d, last ds = Some d) as [d Hlast].
  { rewrite E. destruct (last (c :: t)) eqn:El; [by eexists|].
    apply last_None in El. done. }
  assert (Hc : is_digit c = true) by (rewrite E in Hd; by inversion Hd).
  assert (Hdd : is_digit d = true).
  { rewrite Forall_forall in Hd. apply Hd. apply last_Some in Hlast as [l' ->].
    apply elem_of_app. right. by apply list_elem_of_singleton. }
  unfold py_int. rewrite (int_strip_fixed ds c d t E Hlast) by (by apply digit_not_c_space).
  rewrite E. destruct (digit_not_sign c Hc) as (-> & -> & _).
  rewrite <- E. unfold int_body. rewrite filter_digits_all by done.
  destruct (_ <? _); [done|].
  by rewrite (int_digits_all ds 0 false Hd) by (by right).
Qed.

Lemma split_sep_from_absent (sep : ascii) (cur s : str) :
  sep ∉ s -> split_sep_from sep cur s = [rev cur ++ s].
Proof.
  revert cur. induction s as [|a s IH]; intros cur Hin; simpl.
  - by rewrite app_nil_r.
  - rewrite not_elem_of_cons in Hin. destruct Hin as [Hne Hin].
    destruct (Ascii.eqb_spec a sep) as [->|_]; [done|].
    rewrite IH by done. simpl. by rewrite <- app_assoc.
Qed.

Lemma split_sep_from_first (sep : ascii) (cur a r : str) :
  sep ∉ a ->
  split_sep_from sep cur (a ++ sep :: r) = (rev cur ++ a) :: split_sep_from sep [] r.
Proof.
  revert cur. induction a as [|c a IH]; intros cur Hin; simpl.
  - rewrite Ascii.eqb_refl. by rewrite app_nil_r.
  - rewrite not_elem_of_cons in Hin. destruct Hin as [Hne Hin].
    destruct (Ascii.eqb_spec c sep) as [->|_]; [done|].
    rewrite IH by done. simpl. by rewrite <- app_assoc.
Qed.

(** Splitting at a separator cuts off the text before its first
    occurrence. *)
Lemma split_sep_first (sep : ascii) (a r : str) :
  sep ∉ a -> split_sep sep (a ++ sep :: r) = a :: split_sep sep r.
Proof. intros H. unfold split_sep. by rewrite split_sep_from_first. Qed.

Lemma split_sep_absent (sep : ascii) (a : str) : sep ∉ a -> split_sep sep a = [a].
Proof. intros H. unfold split_sep. by rewrite split_sep_from_absent. Qed.

Lemma split_sep_length (sep : ascii) (s : str) :
  length (split_sep sep s) = S (length (List.filter (Ascii.eqb sep) s)).
Proof.
  unfold split_sep. generalize (@nil ascii) as cur.
  induction s as [|c s IH]; intros cur; simpl; [done|].
  rewrite (Ascii.eqb_sym sep c). destruct (Ascii.eqb c sep); simpl; by rewrite IH.
Qed.

Lemma tuple_lt_irrefl (a : list Z) : tuple_lt a a = false.
Proof. induction a as [|x a IH]; [done|]. simpl. by rewrite Z.eqb_refl. Qed.

Lemma tuple_lt_trans (a b c : list Z) :
  tuple_lt a b = true -> tuple_lt b c = true -> tuple_lt a c = true.
Proof.
  revert b c. induction a as [|x a IH]; intros [|y b] [|z c]; simpl; try done.
  destruct (Z.eqb_spec x y) as [->|Hxy], (Z.eqb_spec y z) as [->|Hyz].
  - apply IH.
  - by intros _ H.
  - intros H _. by destruct (Z.eqb_spec x z).
  - rewrite !Z.ltb_lt. intros H1 H2.
    destruct (Z.eqb_spec x z) as [->|_]; [lia|]. apply Z.ltb_lt. lia.
Qed.

Lemma tuple_lt_total (a b : list Z) :
  tuple_lt a b = false -> tuple_lt b a = false -> a = b.
Proof.
  revert b. induction a as [|x a IH]; intros [|y b]; simpl; try done.
  destruct (Z.eqb_spec x y) as [->|Hxy].
  - rewrite Z.eqb_refl. intros H1 H2. f_equal. by apply IH.
  - destruct (Z.eqb_spec y x) as [->|_]; [done|]. rewrite !Z.ltb_ge. lia.
Qed.

(** X1.  The order that decides about an update is a strict total order
    on version tuples: no tuple is greater than itself, greater-than is
    transitive, and of two different tuples exactly one is the greater.
    Hence no update is reported for a remote version that parses to the
    tuple of the running version. *)
Theorem version_order_is_strict_and_total :
  (forall a, tuple_gt a a = false)
  /\ (forall a b c, tuple_gt a b = true -> tuple_gt b c = true -> tuple_gt a c = true)
  /\ (forall a b, tuple_gt a b = true -> tuple_gt b a = false)
  /\ (forall a b, tuple_gt a b = false -> tuple_gt b a = false -> a = b)
  /\ (forall kv,
        _parse_version (obj_get kv (txt "latest") (JStr (txt "0.0.0")))
        = _parse_version (JStr VERSION) ->
        _check_for_update (FetchDecoded (JObj kv)) = None).
Proof.
  unfold tuple_gt. split_and!.
  - intros a. apply tuple_lt_irrefl.
  - intros a b c H1 H2. by apply (tuple_lt_trans c b a).
  - intros a b H. destruct (tuple_lt a b) eqn:E; [|done].
    pose proof (tuple_lt_trans a b a E H) as Hcycle. by rewrite tuple_lt_irrefl in Hcycle.
  - intros a b H1 H2. by apply tuple_lt_total.
  - intros kv H. unfold _check_for_update, tuple_gt. by rewrite H, tuple_lt_irrefl.
Qed.

Lemma version_order_is_strict_and_total_witness :
  tuple_gt [2; 1; 0] [1; 9; 0] = true.
Proof.
  apply (proj1 (proj2 version_order_is_strict_and_total) [2; 1; 0] [2; 0; 0] [1; 9; 0]);
    reflexivity.
Defined.

Lemma obj_get_elem (kv : list (str * json)) (key : str) (default v : json) :
  obj_get kv key default = v -> v <> default -> (key, v) ∈ kv.
Proof.
  induction kv as [|[k x] kv IH]; simpl; [congruence|].
  destruct (decide (k = key)) as [->|_].
  - intros -> _. apply list_elem_of_here.
  - intros H1 H2. apply list_elem_of_further. by apply IH.
Qed.

(** X2.  Whatever [_check_for_update] returns is the decoded object
    itself, and that object has a "latest" entry holding a string that
    parses to a tuple greater than that of the running version; a
    response without a "latest" entry, or with one that is not a string,
    yields nothing. *)
Theorem update_metadata_has_latest_string (resp : fetch_result) (data : json) :
  _check_for_update resp = Some data ->
  exists kv s,
    resp = FetchDecoded data /\ data = JObj kv
    /\ (txt "latest", JStr s) ∈ kv
    /\ tuple_gt (_parse_version (JStr s)) [2; 0; 0] = true.
Proof.
  destruct resp as [|[| | | | |kv]]; try done. unfold _check_for_update.
  destruct (tuple_gt _ _) eqn:E; [|done]. intros [= <-].
  destruct (obj_get kv (txt "latest") (JStr (txt "0.0.0"))) as [| | |s| |] eqn:Eg;
    try done.
  exists kv, s. split_and!; [done..| |done].
  apply (obj_get_elem kv _ (JStr (txt "0.0.0"))); [done|].
  intros [= ->]. done.
Qed.

Lemma update_metadata_has_latest_string_witness :
  exists kv s,
    FetchDecoded (JObj [(txt "latest", JStr (txt "2.1.0"))])
    = FetchDecoded (JObj [(txt "latest", JStr (txt "2.1.0"))])
    /\ JObj [(txt "latest", JStr (txt "2.1.0"))] = JObj kv
    /\ (txt "latest", JStr s) ∈ kv
    /\ tuple_gt (_parse_version (JStr s)) [2; 0; 0] = true.
Proof.
  apply (update_metadata_has_latest_string
           (FetchDecoded (JObj [(txt "latest", JStr (txt "2.1.0"))]))).
  reflexivity.
Defined.

(** X3.  On Windows, for a version text whose first two components are
    followed by a third made of digits (no more of them than [int]
    converts), [_is_windows_11] holds exactly when that third component
    is at least 22000; the first two components and whatever follows the
    third do not matter.  With fewer than three components, a third
    component that [int] rejects, or on another platform, it is false. *)
Theorem windows_11_decided_by_build_number (SYSTEM version : str) :
  (forall major minor build more,
      SYSTEM = txt "Windows" ->
      version = major ++ "."%char :: minor ++ "."%char :: build ++ more ->
      "."%char ∉ major -> "."%char ∉ minor ->
      build <> [] -> Forall (fun c => is_digit c = true) build ->
      (more = [] \/ exists rest, more = "."%char :: rest) ->
      _is_windows_11 SYSTEM version
      = if INT_MAX_STR_DIGITS <? Z.of_nat (length build) then false
        else 22000 <=? decimal build)
  /\ (SYSTEM <> txt "Windows" -> _is_windows_11 SYSTEM version = false)
  /\ ((length (List.filter (Ascii.eqb ".") version) < 2)%nat ->
      _is_windows_11 SYSTEM version = false)
  /\ (py_int (nth 2 (split_sep "." version) []) = None ->
      _is_windows_11 SYSTEM version = false).
Proof.
  split_and!.
  - intros major minor build more -> -> Hmaj Hmin Hne Hd Hmore.
    unfold _is_windows_11. rewrite bool_decide_eq_true_2 by done. cbn [negb].
    rewrite split_sep_first by done. rewrite split_sep_first by done.
    assert (Hbuild : "."%char ∉ build).
    { intros Hin. rewrite Forall_forall in Hd. specialize (Hd _ Hin). done. }
    assert (exists tl, split_sep "." (build ++ more) = build :: tl) as [tl ->].
    { destruct Hmore as [->|[rest ->]].
      - rewrite app_nil_r, split_sep_absent by done. by eexists.
      - rewrite split_sep_first by done. by eexists. }
    cbn [length nth]. rewrite bool_decide_eq_true_2 by lia.
    destruct (py_int_digits build Hd Hne) as [-> _]. by destruct (_ <? _).
  - intros Hsys. unfold _is_windows_11. by rewrite bool_decide_eq_false_2.
  - intros Hlen. unfold _is_windows_11. destruct (negb _); [done|].
    rewrite split_sep_length. rewrite bool_decide_eq_false_2 by lia. done.
  - intros Hint. unfold _is_windows_11. destruct (negb _); [done|].
    rewrite Hint. by destruct (bool_decide _).
Qed.

Lemma windows_11_decided_by_build_number_witness :
  _is_windows_11 (txt "Windows") (txt "10.0.22631")
  = if INT_MAX_STR_DIGITS <? Z.of_nat (length (txt "22631")) then false
    else 22000 <=? decimal (txt "22631").
Proof.
  apply (proj1 (windows_11_decided_by_build_number (txt "Windows") (txt "10.0.22631"))
           (txt "10") (txt "0") (txt "22631") []).
  - reflexivity.
  - reflexivity.
  - intros H. vm_compute in H. by repeat (apply elem_of_cons in H as [H|H]; [discriminate H|]);
      apply elem_of_nil in H.
  - intros H. by repeat (apply elem_of_cons in H as [H|H]; [discriminate H|]);
      apply elem_of_nil in H.
  - discriminate.
  - repeat constructor.
  - by left.
Defined.

(* ===================================================================== *)
(** * Further properties: the device listing *)
(* ===================================================================== *)

Lemma before_after_colon (k v : str) :
  ":"%char ∉ k ->
  contains (txt ":") (k ++ ":"%char :: v) = true
  /\ before ":" (k ++ ":"%char :: v) = k
  /\ after ":" (k ++ ":"%char :: v) = v.
Proof.
  intros Hk. split.
  - apply (contains_char ":"). apply elem_of_app. right. apply list_elem_of_here.
  - induction k as [|c k IH]; [done|].
    rewrite not_elem_of_cons in Hk. destruct Hk as [Hne Hk]. simpl.
    destruct (Ascii.eqb_spec c ":") as [->|_]; [done|].
    destruct (IH Hk) as [-> ->]. done.
Qed.

Lemma aux_pairs_app (ts1 ts2 : list str) :
  aux_pairs (ts1 ++ ts2) = aux_pairs ts1 ++ aux_pairs ts2.
Proof. unfold aux_pairs. apply omap_app. Qed.

Lemma aux_pairs_keys (ts : list str) (k : str) :
  k ∈ (aux_pairs ts).*1 ->
  exists t, t ∈ ts /\ contains (txt ":") t = true /\ before ":" t = k.
Proof.
  induction ts as [|t ts IH]; cbn [aux_pairs omap list_omap fmap list_fmap].
  - intros H. by apply elem_of_nil in H.
  - fold (aux_pairs ts). destruct (contains (txt ":") t) eqn:Hc.
    + cbn [fmap list_fmap fst]. intros [->|Hin]%elem_of_cons.
      * exists t. split_and!; [apply list_elem_of_here|done..].
      * destruct (IH Hin) as (t' & ? & ? & ?). exists t'.
        split_and!; [by apply list_elem_of_further|done..].
    + intros Hin. destruct (IH Hin) as (t' & ? & ? & ?). exists t'.
      split_and!; [by apply list_elem_of_further|done..].
Qed.

Lemma elem_of_rev_list {A : Type} (l : list A) (x : A) : x ∈ rev l <-> x ∈ l.
Proof. rewrite !list_elem_of_In. symmetry. apply in_rev. Qed.

Lemma aux_pairs_strings (ts : list str) (k : str) (v : value) :
  list_to_map (M := gmap str value) (rev (aux_pairs ts)) !! k = Some v ->
  exists s, v = VStr s.
Proof.
  intros H. apply elem_of_list_to_map_2 in H. apply (proj1 (elem_of_rev_list _ _)) in H.
  unfold aux_pairs in H. apply list_elem_of_omap in H as (t & _ & Ht).
  destruct (contains (txt ":") t); [|done]. injection Ht as _ <-. by eexists.
Qed.

(** The listing entry of a key is the value of the last token that binds
    the key. *)
Lemma listing_info_last_token (line : str) (ts1 ts2 : list str) (k v : str) :
  skipn 2 (split_ws (strip line)) = ts1 ++ (k ++ ":"%char :: v) :: ts2 ->
  ":"%char ∉ k ->
  (forall t, t ∈ ts2 -> contains (txt ":") t = true -> before ":" t <> k) ->
  listing_info line !! k = Some (VStr v).
Proof.
  intros Hts Hk Hlater. unfold listing_info. rewrite Hts.
  apply lookup_union_Some_l.
  rewrite aux_pairs_app. cbn [aux_pairs omap list_omap]. fold (aux_pairs ts2).
  destruct (before_after_colon k v Hk) as (-> & -> & ->).
  rewrite rev_app_distr. cbn [rev]. rewrite <- app_assoc. cbn [app].
  rewrite list_to_map_app. apply lookup_union_Some_raw. right. split.
  - apply not_elem_of_list_to_map_1. intros Hin.
    assert (Hin' : k ∈ (aux_pairs ts2).*1).
    { apply list_elem_of_fmap in Hin as ([k' x] & -> & Hx).
      apply list_elem_of_fmap. exists (k', x). split; [done|].
      by apply (proj1 (elem_of_rev_list _ _)) in Hx. }
    destruct (aux_pairs_keys ts2 k Hin') as (t & Ht & Hc & Hb).
    by destruct (Hlater t Ht Hc).
  - cbn [list_to_map foldr fst snd]. apply lookup_insert_eq.
Qed.

Section ListingFacts.

Variable run : nat -> list str -> run_outcome.

(** X4.  A [key:value] token of a listed line ends up in the device
    dictionary under its key, the last such token winning, for every key
    that is not one of the six queried ones.  This includes the keys
    "serial" and "status": a token [serial:V] replaces the serial taken
    from the first token of the line. *)
Theorem last_aux_token_wins (adb line : str) (n n' : nat) (info : gmap str value)
  (ts1 ts2 : list str) (k v : str) :
  scan_line run adb line n = (Ok (Append info), n') ->
  skipn 2 (split_ws (strip line)) = ts1 ++ (k ++ ":"%char :: v) :: ts2 ->
  ":"%char ∉ k ->
  (forall t, t ∈ ts2 -> contains (txt ":") t = true -> before ":" t <> k) ->
  k ∉ QUERIED ->
  info !! k = Some (VStr v).
Proof.
  intros Hscan Hts Hk Hlater Hq.
  pose proof (scan_line_spec run adb line n) as Hspec.
  destruct (listed line).
  - destruct Hspec as (info' & n1 & E & Hframe & _). rewrite E in Hscan.
    injection Hscan as <- <-. rewrite (Hframe k Hq).
    by apply (listing_info_last_token line ts1 ts2).
  - rewrite Hspec in Hscan. discriminate Hscan.
Qed.

Lemma scan_lines_count (adb : str) (lines : list str) (devices found : list (gmap str value))
  (n n' : nat) :
  scan_lines run adb lines devices n = (Ok found, n') ->
  n' = (n + 6 * device_lines lines)%nat.
Proof.
  revert devices n. induction lines as [|line lines IH]; intros devices n.
  - cbn. intros [= _ <-]. unfold device_lines. simpl. lia.
  - cbn [scan_lines]. unfold mbind, M_bind, bind, device_lines. cbn [List.filter].
    pose proof (scan_line_spec run adb line n) as Hline.
    destruct (listed line) eqn:Hl.
    + destruct Hline as (info & n1 & E & _ & Hun & Hdev). rewrite E. cbn [andb].
      destruct (bool_decide (status_token line = txt "device")) eqn:Hs.
      * apply bool_decide_eq_true in Hs. specialize (Hdev Hs).
        destruct (query_properties_degraded run adb (nth 0 (split_ws (strip line)) [])
                    (listing_info line) n) as (info' & Eq & _).
        rewrite Eq in Hdev. injection Hdev as _ <-.
        intros H. apply IH in H. unfold device_lines in H. cbn [length]. lia.
      * apply bool_decide_eq_false in Hs.
        assert (Hu : status_token line = txt "unauthorized").
        { unfold listed in Hl. apply andb_true_iff in Hl as [_ Hl].
          apply orb_true_iff in Hl as [Hl|Hl]; apply bool_decide_eq_true in Hl; done. }
        destruct (Hun Hu) as [_ ->]. intros H. apply IH in H. unfold device_lines in H. lia.
    + rewrite Hline. cbn [andb]. intros H. apply IH in H. unfold device_lines in H. lia.
Qed.

(** X5.  When the bridge tool answers, [get_adb_devices] invokes it once
    for the listing and six more times for every listed line whose status
    is "device": unauthorized, offline, blank and unknown-status lines
    cost no further invocation. *)
Theorem listing_invocation_count (adb_path stdout : str) (n : nat) :
  run n [adb_path; txt "devices"; txt "-l"] = Completed stdout ->
  exists devices,
    get_adb_devices run adb_path n
    = (Ok devices,
       (n + 1 + 6 * device_lines (skipn 1 (splitlines (strip stdout))))%nat).
Proof.
  intros Hrun. unfold get_adb_devices, mbind, M_bind, bind, subprocess_run. rewrite Hrun.
  destruct (scan_lines_spec run adb_path (skipn 1 (splitlines (strip stdout))) [] (S n))
    as (found & n' & E & _).
  exists found. rewrite E. f_equal. apply scan_lines_count in E. lia.
Qed.

Lemma listing_info_serial_status (line : str) :
  (exists s, listing_info line !! txt "serial" = Some (VStr s))
  /\ (exists s, listing_info line !! txt "status" = Some (VStr s)).
Proof.
  unfold listing_info.
  set (aux := list_to_map (rev (aux_pairs (skipn 2 (split_ws (strip line)))))).
  split.
  - destruct (aux !! txt "serial") as [v|] eqn:E.
    + destruct (aux_pairs_strings _ _ _ E) as [s ->]. exists s.
      by apply lookup_union_Some_l.
    + eexists. rewrite lookup_union_r by done.
      rewrite lookup_insert_ne by literals_differ. apply lookup_insert_eq.
  - destruct (aux !! txt "status") as [v|] eqn:E.
    + destruct (aux_pairs_strings _ _ _ E) as [s ->]. exists s.
      by apply lookup_union_Some_l.
    + eexists. rewrite lookup_union_r by done. apply lookup_insert_eq.
Qed.

(** X6.  Every dictionary [get_adb_devices] returns has a "serial" and a
    "status" entry, each holding a string; so the serial sets that
    [_update_device_list] computes from a listing never raise KeyError. *)
Theorem listed_devices_have_serial_and_status (adb_path : str) (n n' : nat)
  (devices : list (gmap str value)) :
  get_adb_devices run adb_path n = (Ok devices, n') ->
  Forall (fun d => (exists s, d !! txt "serial" = Some (VStr s))
                   /\ (exists s, d !! txt "status" = Some (VStr s))) devices
  /\ serial_set devices = Ok (serials devices).
Proof.
  intros Hget.
  assert (Hwf : Forall (fun d => (exists s, d !! txt "serial" = Some (VStr s))
                                 /\ (exists s, d !! txt "status" = Some (VStr s))) devices).
  { revert Hget. unfold get_adb_devices, mbind, M_bind, bind, subprocess_run.
    destruct (run n _) as [stdout|e].
    - destruct (scan_lines_spec run adb_path (skipn 1 (splitlines (strip stdout))) [] (S n))
        as (found & n1 & E & Hall).
      rewrite E. intros [= <- <-]. clear E.
      induction Hall as [|line info lines found [Hframe _] _ IH]; constructor; [|exact IH].
      destruct (listing_info_serial_status line) as [[s Hs] [t Ht]]. split.
      + exists s. rewrite Hframe; [done|]. unfold QUERIED.
        rewrite !not_elem_of_cons. split_and!; try literals_differ. apply not_elem_of_nil.
      + exists t. rewrite Hframe; [done|]. unfold QUERIED.
        rewrite !not_elem_of_cons. split_and!; try literals_differ. apply not_elem_of_nil.
    - destruct e; intros [= <- <-]; constructor. }
  split; [exact Hwf|]. apply serial_set_serials.
  eapply Forall_impl; [exact Hwf|]. intros d [[s Hs] _]. by exists (VStr s).
Qed.

End ListingFacts.

Lemma last_aux_token_wins_witness :
  exists info,
    scan_line sample_run (txt "adb") (txt "QQQ unauthorized usb:1-2 serial:ZZZ") 7%nat
    = (Ok (Append info), 7%nat)
    /\ info !! txt "serial" = Some (VStr (txt "ZZZ")).
Proof.
  pose proof (scan_line_spec sample_run (txt "adb")
                (txt "QQQ unauthorized usb:1-2 serial:ZZZ") 7%nat) as Hspec.
  replace (listed (txt "QQQ unauthorized usb:1-2 serial:ZZZ")) with true in Hspec
    by reflexivity.
  destruct Hspec as (info & n' & Hscan & _ & Hun & _).
  destruct (Hun eq_refl) as [_ ->].
  exists info. split; [exact Hscan|].
  apply (last_aux_token_wins sample_run (txt "adb")
           (txt "QQQ unauthorized usb:1-2 serial:ZZZ") 7%nat 7%nat info
           [txt "usb:1-2"] [] (txt "serial") (txt "ZZZ") Hscan).
  - reflexivity.
  - intros H. by repeat (apply elem_of_cons in H as [H|H]; [discriminate H|]);
      apply elem_of_nil in H.
  - intros t Ht. by apply elem_of_nil in Ht.
  - unfold QUERIED. rewrite !not_elem_of_cons.
    split_and!; try literals_differ. apply not_elem_of_nil.
Defined.

Lemma listing_invocation_count_witness :
  exists devices, get_adb_devices sample_run (txt "adb") 0%nat = (Ok devices, 7%nat).
Proof.
  destruct (listing_invocation_count sample_run (txt "adb") sample_listing 0%nat eq_refl)
    as [devices E].
  exists devices. exact E.
Defined.

Lemma listed_devices_have_serial_and_status_witness :
  exists devices,
    get_adb_devices sample_run (txt "adb") 0%nat = (Ok devices, 7%nat)
    /\ serial_set devices = Ok (serials devices).
Proof.
  destruct (scan_lines_spec sample_run (txt "adb")
              (skipn 1 (splitlines (strip sample_listing))) [] 1%nat)
    as (found & n1 & E & _).
  assert (Hn : n1 = 7%nat).
  { apply scan_lines_count in E. rewrite E. reflexivity. }
  subst n1.
  assert (Hget : get_adb_devices sample_run (txt "adb") 0%nat = (Ok found, 7%nat)).
  { unfold get_adb_devices, mbind, M_bind, bind, subprocess_run. cbn beta iota.
    exact E. }
  exists found. split; [exact Hget|].
  exact (proj2 (listed_devices_have_serial_and_status sample_run (txt "adb") 0%nat 7%nat
                  found Hget)).
Defined.

(* ===================================================================== *)
(** * Further properties: battery level *)
(* ===================================================================== *)

Lemma greedy_group (a : atom) (rest : str -> option str) (P : ascii -> Prop) (s g : str) :
  (grouped a = true -> forall c, accepts a c = true -> P c) ->
  (forall t h, rest t = Some h -> Forall P h) ->
  greedy a rest s = Some g -> Forall P g.
Proof.
  intros Ha Hrest. revert g. induction s as [|c s IH]; intros g; cbn [greedy].
  - apply Hrest.
  - destruct (accepts a c) eqn:Hc; [|apply Hrest].
    destruct (greedy a rest s) as [h|]; [|apply Hrest].
    intros [= <-]. unfold keep. destruct (grouped a) eqn:Hg; [|by apply IH].
    constructor; [by apply Ha|by apply IH].
Qed.

(** The text of group 1 consists of characters accepted by grouped
    atoms. *)
Lemma match_here_group (pat : list atom) (P : ascii -> Prop) (s g : str) :
  Forall (fun a => grouped a = true -> forall c, accepts a c = true -> P c) pat ->
  match_here pat s = Some g -> Forall P g.
Proof.
  intros Hpat. revert s g. induction Hpat as [|a pat Ha _ IH]; intros s g.
  - cbn. intros [= <-]. constructor.
  - cbn [match_here]. destruct (times a).
    + destruct s as [|c s]; [done|]. destruct (accepts a c) eqn:Hc; [|done].
      destruct (match_here pat s) as [h|] eqn:E; [|done]. cbn. intros [= <-].
      unfold keep. destruct (grouped a) eqn:Hg; [|by eapply IH].
      constructor; [by apply Ha|by eapply IH].
    + destruct s as [|c s]; [done|]. destruct (accepts a c) eqn:Hc; [|done].
      destruct (greedy a (match_here pat) s) as [h|] eqn:E; [|done]. cbn. intros [= <-].
      assert (Forall P h) by (eapply greedy_group; [exact Ha| |exact E]; intros; by eapply IH).
      unfold keep. destruct (grouped a) eqn:Hg; [|done]. constructor; [by apply Ha|done].
    + intros E. eapply greedy_group; [exact Ha| |exact E]. intros; by eapply IH.
Qed.

Lemma greedy_nonempty_rest (a : atom) (rest : str -> option str) (s g : str) :
  (forall t h, rest t = Some h -> h <> []) ->
  greedy a rest s = Some g -> g <> [].
Proof.
  intros Hrest. revert g. induction s as [|c s IH]; intros g; cbn [greedy].
  - apply Hrest.
  - destruct (accepts a c); [|apply Hrest].
    destruct (greedy a rest s) as [h|] eqn:E; [|apply Hrest].
    intros [= <-]. unfold keep. destruct (grouped a); [done|by apply IH].
Qed.

(** A match of a pattern that ends with one or more grouped characters
    has a group that is not empty. *)
Lemma match_here_nonempty (pre : list atom) (p : ascii -> bool) (s g : str) :
  match_here (pre ++ [Atom p Plus true]) s = Some g -> g <> [].
Proof.
  revert s g. induction pre as [|a pre IH]; intros s g.
  - cbn. destruct s as [|c s]; [done|]. destruct (p c); [|done].
    destruct (greedy _ _ s); [|done]. by intros [= <-].
  - rewrite <- app_comm_cons. cbn [match_here]. destruct (times a).
    + destruct s as [|c s]; [done|]. destruct (accepts a c); [|done].
      destruct (match_here (pre ++ [Atom p Plus true]) s) as [h|] eqn:E; [|done].
      cbn. intros [= <-]. apply IH in E. unfold keep. by destruct (grouped a).
    + destruct s as [|c s]; [done|]. destruct (accepts a c); [|done].
      destruct (greedy a _ s) as [h|] eqn:E; [|done]. cbn. intros [= <-].
      apply greedy_nonempty_rest in E; [|intros t h' Ht; by eapply IH].
      unfold keep. by destruct (grouped a).
    + intros E. eapply greedy_nonempty_rest; [|exact E]. intros t h' Ht. by eapply IH.
Qed.

Lemma match_literal_prefix (more : list atom) (word s g : str) :
  match_here (map lit word ++ more) s = Some g -> starts_with word s = true.
Proof.
  revert s g. induction word as [|c word IH]; intros s g; [done|].
  cbn [map]. rewrite <- app_comm_cons.
  cbn [match_here lit times accepts keep grouped starts_with].
  destruct s as [|d s]; [done|]. destruct (Ascii.eqb c d); [|done].
  destruct (match_here (map lit word ++ more) s) as [h|] eqn:E; [|done].
  intros _. by eapply IH.
Qed.

Lemma contains_from_suffix (word pre s : str) :
  starts_with word s = true -> contains word (pre ++ s) = true.
Proof.
  intros H. induction pre as [|c pre IH]; simpl.
  - destruct s; simpl in *; by rewrite H.
  - rewrite IH. apply orb_true_r.
Qed.

(** X7.  [_get_battery] always returns, after one invocation: either no
    value or an integer that is not negative.  It returns an integer only
    if the output contains "level:", and the integer is the decimal value
    of the digits matched after it. *)
Theorem battery_is_absent_or_a_natural_number
  (run : nat -> list str -> run_outcome) (adb serial : str) (n : nat) :
  exists v,
    _get_battery run adb serial n = (Ok v, S n)
    /\ (v = VNone
        \/ exists out digits,
             run n (battery_argv adb serial) = Completed out
             /\ re_search BATTERY_RE out = Some digits
             /\ digits <> [] /\ Forall (fun c => is_digit c = true) digits
             /\ contains (txt "level:") out = true
             /\ v = VInt (decimal digits) /\ 0 <= decimal digits).
Proof.
  unfold _get_battery, mbind, M_bind, bind, subprocess_run, battery_argv.
  destruct (run n _) as [out|e]; [|eexists; split; [reflexivity|by left]].
  destruct (re_search BATTERY_RE out) as [g|] eqn:E; [|eexists; split; [reflexivity|by left]].
  pose proof E as E0. apply re_search_Some in E0 as (pre & s & -> & Hm & _).
  assert (Hd : Forall (fun c => is_digit c = true) g).
  { eapply (match_here_group BATTERY_RE); [|exact Hm].
    unfold BATTERY_RE. repeat constructor; cbn; try done. }
  assert (Hne : g <> []).
  { eapply (match_here_nonempty (map lit (txt "level:") ++ [Atom is_space Star false])).
    rewrite <- app_assoc. exact Hm. }
  destruct (py_int_digits g Hd Hne) as [Hint Hpos]. rewrite Hint.
  destruct (_ <? _); [eexists; split; [reflexivity|by left]|].
  eexists. split; [reflexivity|]. right. exists (pre ++ s), g.
  split_and!; try done.
  apply contains_from_suffix. by eapply (match_literal_prefix _ (txt "level:")).
Qed.

(* ===================================================================== *)
(** * Further properties: a whole output stream *)
(* ===================================================================== *)

Lemma monitor_line_shapes (line : str) :
  monitor_line line = []
  \/ monitor_line line = [(0, INSTALLING)]
  \/ monitor_line line
     = [(0, INSTALL_SUCCESS); (0, ShowInstallPopup true); (3000, STATUS_RESET)]
  \/ monitor_line line
     = [(0, INSTALL_FAILURE); (0, ShowInstallPopup false); (3000, STATUS_RESET)].
Proof.
  unfold monitor_line. destruct (bool_decide _); [by left|].
  destruct (_ || _); [right; by left|].
  destruct (contains (txt "success") _); [right; right; by left|].
  destruct (_ || _); [right; right; by right|by left].
Qed.

Lemma monitor_output_app (s1 s2 : list (option str)) :
  Forall is_Some s1 -> monitor_output (s1 ++ s2) = monitor_output s1 ++ monitor_output s2.
Proof.
  induction 1 as [|x s1 [line ->] _ IH]; [done|].
  cbn [monitor_output]. rewrite <- app_comm_cons. cbn [monitor_output].
  by rewrite IH, app_assoc.
Qed.

Lemma monitor_output_cut (s1 s2 : list (option str)) :
  monitor_output (s1 ++ None :: s2) = monitor_output s1.
Proof.
  induction s1 as [|[line|] s1 IH]; [done| |done].
  rewrite <- app_comm_cons. cbn [monitor_output]. by rewrite IH.
Qed.

(** X8.  Over a whole output stream, whatever its lines: every success
    or failure status a monitor posts is followed, two callbacks later,
    by the status reset with delay 3000, and there are exactly as many
    resets as such statuses, so an "Installing..." status is never reset.
    The callbacks of a stream are those of its lines in order, at most
    three per line, and nothing is posted for what follows a failed
    read. *)
Theorem every_transient_status_is_reset (stream : list (option str)) :
  length (List.filter is_status_reset (monitor_output stream))
  = length (List.filter is_transient (monitor_output stream))
  /\ (forall i c, monitor_output stream !! i = Some c -> is_transient c = true ->
        monitor_output stream !! (i + 2)%nat = Some (3000, STATUS_RESET))
  /\ (length (monitor_output stream) <= 3 * length stream)%nat
  /\ (forall s1 s2, stream = s1 ++ s2 -> Forall is_Some s1 ->
        monitor_output stream = monitor_output s1 ++ monitor_output s2)
  /\ (forall s1 s2, stream = s1 ++ None :: s2 -> monitor_output stream = monitor_output s1).
Proof.
  split_and!.
  - induction stream as [|[line|] stream IH]; [done| |done].
    cbn [monitor_output]. rewrite !List.filter_app, !length_app, IH.
    by destruct (monitor_line_shapes line) as [-> | [-> | [-> | ->]]].
  - induction stream as [|[line|] stream IH]; intros i c; [done| |done].
    cbn [monitor_output].
    destruct (monitor_line_shapes line) as [-> | [-> | [-> | ->]]].
    + apply IH.
    + destruct i as [|i]; [by intros [= <-]|]. apply IH.
    + destruct i as [|[|[|i]]]; try (by intros [= <-]). apply IH.
    + destruct i as [|[|[|i]]]; try (by intros [= <-]). apply IH.
  - induction stream as [|[line|] stream IH]; cbn [monitor_output length]; [lia| |lia].
    rewrite length_app.
    destruct (monitor_line_shapes line) as [-> | [-> | [-> | ->]]]; cbn [length]; lia.
  - intros s1 s2 -> H. by apply monitor_output_app.
  - intros s1 s2 ->. apply monitor_output_cut.
Qed.

Lemma every_transient_status_is_reset_witness :
  monitor_output [Some (txt "Success"); None; Some (txt "Failed")]
  = monitor_output [Some (txt "Success")].
Proof.
  apply (proj2 (proj2 (proj2 (proj2
           (every_transient_status_is_reset
              [Some (txt "Success"); None; Some (txt "Failed")]))))
           [Some (txt "Success")] [Some (txt "Failed")]).
  reflexivity.
Defined.

(* ===================================================================== *)
(** * Further properties: polling twice, and what the cards show *)
(* ===================================================================== *)

Lemma DeviceCard_init_Ok (dev : gmap str value) (card : DeviceCard) :
  DeviceCard_init dev = Ok card -> card = Card dev false false.
Proof.
  unfold DeviceCard_init.
  destruct (dict_get dev (txt "manufacturer") (VStr [])); try done.
  destruct (dict_item dev (txt "serial")); [|done].
  destruct (negb _); [done|].
  destruct (dict_item dev (txt "status")); [|done].
  destruct (bool_decide _); [congruence|].
  destruct (dev !! txt "battery") as [[]|]; congruence.
Qed.

Lemma build_cards_ready (devices : list (gmap str value)) (a a' : AndroidMirrorApp) :
  build_cards devices a = (Ok tt, a') -> Forall card_ready devices.
Proof.
  revert a. induction devices as [|d ds IH]; intros a; cbn [build_cards]; [constructor|].
  destruct (DeviceCard_init d) as [card|] eqn:E; [|done]. intros H.
  constructor; [|by eapply IH]. unfold card_ready. rewrite E. f_equal.
  by apply DeviceCard_init_Ok.
Qed.


Lemma _update_count_twice (n : nat) (a : AndroidMirrorApp) :
  _update_count n (_update_count n a) = _update_count n a.
Proof. by destruct n as [|[|n]]. Qed.

Lemma _update_count_fixed (n : nat) (a b : AndroidMirrorApp) :
  device_count_label b = device_count_label (_update_count n a) ->
  _update_count n b = b.
Proof. destruct b. destruct n as [|[|n]]; cbn; by intros ->. Qed.

(** X9.  Re-running a poll is a no-op: when [_update_device_list]
    returns normally on a device list, running it again on the same list
    with the resulting state changes nothing at all: no card is destroyed
    or rebuilt and even the count label stays as it is. *)
Theorem repeated_poll_changes_nothing
  (devices : list (gmap str value)) (a a' : AndroidMirrorApp) :
  _update_device_list devices a = (Ok tt, a') ->
  _update_device_list devices a' = (Ok tt, a').
Proof.
  unfold _update_device_list.
  destruct (serial_set (current_devices a)) as [cs|] eqn:Ecs; [|done].
  destruct (serial_set devices) as [ns|] eqn:Ens; [|done].
  destruct (bool_decide (cs = ns) && bool_decide (length devices = length (current_devices a)))
    eqn:Esame.
  - intros [= <-].
    replace (current_devices (_update_count (length devices) a)) with (current_devices a)
      by (by destruct (length devices) as [|[|n]]).
    rewrite Ecs, Esame. by rewrite _update_count_twice.
  - intros Hbuild.
    assert (Hdev : current_devices a' = devices
                   /\ device_count_label a'
                      = device_count_label (_update_count (length devices) a)).
    { destruct devices as [|d ds].
      - injection Hbuild as <-. done.
      - pose proof (build_cards_ready _ _ _ Hbuild) as Hready.
        match type of Hbuild with
        | build_cards _ ?x = _ =>
            destruct (build_cards_spec (d :: ds) x Hready)
              as (a2 & E2 & _ & _ & _ & _ & _ & _ & Hcur & _ & Hlab & _)
        end.
        rewrite Hbuild in E2. injection E2 as <-. rewrite Hcur, Hlab.
        split; cbn; by destruct (length ds). }
    destruct Hdev as [Hcur Hlab]. rewrite Hcur, Ens.
    rewrite !bool_decide_eq_true_2 by done. cbn [andb]. f_equal.
    by eapply _update_count_fixed.
Qed.

Lemma repeated_poll_changes_nothing_witness :
  exists a',
    _update_device_list [sample_device] (app (initial (Some (txt "adb")) (Some (txt "scrcpy"))))
    = (Ok tt, a')
    /\ _update_device_list [sample_device] a' = (Ok tt, a').
Proof.
  destruct (_update_device_list [sample_device]
              (app (initial (Some (txt "adb")) (Some (txt "scrcpy"))))) as [[[]|e] a'] eqn:E.
  - exists a'. split; [reflexivity|].
    exact (repeated_poll_changes_nothing [sample_device] _ a' E).
  - vm_compute in E. discriminate E.
Defined.














(* ===================================================================== *)
(** * Further properties: what the sessions map holds *)
(* ===================================================================== *)

Lemma started_for_later (w w' : World) (serial : value) (p : nat) :
  (next_pid w <= next_pid w')%nat ->
  (forall q, (q < next_pid w)%nat -> argv <$> procs w' !! q = argv <$> procs w !! q) ->
  started_for w serial p -> started_for w' serial p.
Proof.
  intros Hnext Hprocs (Hp & path & s & title & -> & Hargv).
  split; [lia|]. exists path, s, title. split; [done|]. by rewrite Hprocs.
Qed.

Lemma handles_for_serial_same_processes (w w' : World) :
  procs w' = procs w -> next_pid w' = next_pid w ->
  (forall tid t p, launchers w' !! tid = Some t -> l_pc t = PcRegister p ->
        exists tid0 t0, launchers w !! tid0 = Some t0 /\ l_pc t0 = PcRegister p
                        /\ l_serial t0 = l_serial t) ->
  (forall serial p, active_mirrors (app w') !! serial = Some p ->
        active_mirrors (app w) !! serial = Some p
        \/ exists tid0 t0, launchers w !! tid0 = Some t0 /\ l_pc t0 = PcRegister p
                           /\ l_serial t0 = serial) ->
  handles_for_serial w -> handles_for_serial w'.
Proof.
  intros Hprocs Hnext Hthreads Hmap [H1 H2].
  assert (Hlater : forall serial p, started_for w serial p -> started_for w' serial p).
  { intros serial p. apply started_for_later; [lia|]. intros. by rewrite Hprocs. }
  split.
  - intros tid t p Ht Hpc. destruct (Hthreads tid t p Ht Hpc) as (tid0 & t0 & Ht0 & Hpc0 & <-).
    apply Hlater. by eapply H1.
  - intros serial p Hp. apply Hlater.
    destruct (Hmap serial p Hp) as [Hold|(tid0 & t0 & Ht0 & Hpc0 & <-)];
      [by apply H2|by eapply H1].
Qed.

Lemma launcher_updated (w : World) (tid tid' : nat) (t t' u : launcher) :
  launchers w !! tid = Some t ->
  <[tid := t']> (launchers w) !! tid' = Some u ->
  (tid' = tid /\ u = t') \/ (tid' <> tid /\ launchers w !! tid' = Some u).
Proof.
  intros Ht Hu. destruct (decide (tid' = tid)) as [->|Hne].
  - left. rewrite list_lookup_insert_eq in Hu by (by eapply lookup_lt_Some).
    split; congruence.
  - right. by rewrite list_lookup_insert_ne in Hu.
Qed.

Lemma step_handles_for_serial (w w' : World) (l : label) :
  handles_for_serial w -> step w l = Some w' -> handles_for_serial w'.
Proof.
  intros Inv Hstep.
  destruct l as [dev card|devices|fa fs|tid|tid e|tid|p|p line]; cbn [step] in Hstep.
  - destruct (_on_device_click _ _ _ _) as [[a started]|] eqn:E; [|done].
    injection Hstep as <-.
    apply (handles_for_serial_same_processes w); [reflexivity|reflexivity| | |exact Inv]; cbn.
    + intros tid t p Ht Hpc. apply lookup_app_Some in Ht as [Ht|[_ Ht]]; [by eauto|].
      destruct started as [t0|]; [|by rewrite lookup_nil in Ht].
      apply _on_device_click_started in E as (serial & _ & ->).
      apply list_lookup_singleton_Some in Ht as [_ <-]. done.
    + intros serial p Hp. left. revert E Hp. unfold _on_device_click.
      destruct (dict_item dev (txt "serial")) as [s0|]; [|done].
      destruct (scrcpy_path (app w)).
      * destruct (match active_mirrors (app w) !! s0 with
                  | Some proc => running w proc | None => false end);
          intros [= <- <-]; cbn; [done|].
        intros Hp. by apply lookup_delete_Some in Hp as [_ ?].
      * by intros [= <- <-].
  - injection Hstep as <-.
    destruct (_update_device_list_frame devices (app w)) as [_ Hmap].
    apply (handles_for_serial_same_processes w); [reflexivity|reflexivity| | |exact Inv]; cbn; [by eauto|].
    intros serial p Hp. left. by rewrite <- Hmap.
  - injection Hstep as <-.
    destruct (_refresh_devices_frame fa fs (app w)) as [Hmap _].
    apply (handles_for_serial_same_processes w); [reflexivity|reflexivity| | |exact Inv]; cbn; [by eauto|].
    intros serial p Hp. left. by rewrite <- Hmap.
  - destruct (launchers w !! tid) as [t|] eqn:Ht; [|done].
    destruct (l_pc t) eqn:Hpc; try done.
    destruct (launch_cmd (app w) t) as [cmd|] eqn:Ecmd; [|done].
    injection Hstep as <-. destruct Inv as [H1 H2].
    set (w' := Mk _ _ _ _ _ _).
    assert (Hlater : forall serial p, started_for w serial p -> started_for w' serial p).
    { intros serial p Hs. apply (started_for_later w); [cbn; lia| |done].
      intros q Hq. cbn. rewrite lookup_insert_ne by lia. done. }
    split.
    + intros tid' u p Hu Hpc'. cbn in Hu.
      destruct (launcher_updated w tid tid' t _ u Ht Hu) as [[-> ->]|[_ Hu']].
      * cbn in Hpc'. injection Hpc' as <-. split; [cbn; lia|].
        unfold launch_cmd in Ecmd. destruct (scrcpy_path (app w)) as [path|]; [|done].
        destruct (l_serial t) as [s| |] eqn:Es; try done. injection Ecmd as <-.
        cbn. rewrite Es. eexists _, _, _. split; [done|]. by rewrite lookup_insert_eq.
      * apply Hlater. by eapply H1.
    + intros serial p Hp. apply Hlater. by apply H2.
  - destruct (launchers w !! tid) as [t|] eqn:Ht; [|done].
    assert (Hgoal : handles_for_serial (with_launcher tid (at_pc (PcExcept e) t) w)).
    { apply (handles_for_serial_same_processes w); [reflexivity|reflexivity| | |exact Inv]; cbn; [|by eauto].
      intros tid' u p Hu Hpc. destruct (launcher_updated w tid tid' t _ u Ht Hu)
        as [[-> ->]|[_ Hu']]; [done|by eauto]. }
    destruct (l_pc t); try done; by injection Hstep as <-.
  - destruct (launchers w !! tid) as [t|] eqn:Ht; [|done].
    assert (Hmove : forall pc' a', (forall q, pc' <> PcRegister q) ->
              (forall serial p, active_mirrors a' !! serial = Some p ->
                 active_mirrors (app w) !! serial = Some p
                 \/ exists tid0 t0, launchers w !! tid0 = Some t0 /\ l_pc t0 = PcRegister p
                                    /\ l_serial t0 = serial) ->
              forall mon pst,
              handles_for_serial (Mk a' (<[tid := at_pc pc' t]> (launchers w)) (procs w)
                                    (next_pid w) mon pst)).
    { intros pc' a' Hpc' Hmap mon pst.
      apply (handles_for_serial_same_processes w); [reflexivity|reflexivity| | |exact Inv]; cbn; [|done].
      intros tid' u p Hu Hpc. destruct (launcher_updated w tid tid' t _ u Ht Hu)
        as [[-> ->]|[_ Hu']]; [|by eauto]. cbn in Hpc. by destruct (Hpc' p). }
    destruct (l_pc t) eqn:Hpc; try done.
    + injection Hstep as <-. apply Hmove; [done|]. cbn. intros serial p Hp.
      apply lookup_insert_Some in Hp as [[<- <-]|[_ Hp]]; [right; by eauto|by left].
    + injection Hstep as <-. apply Hmove; [done|]. by left.
    + destruct (running w proc); [done|]. injection Hstep as <-. apply Hmove; [done|].
      by left.
    + injection Hstep as <-. apply Hmove; [done|]. by left.
    + injection Hstep as <-. apply Hmove; [done|]. cbn. intros serial p Hp.
      left. by apply lookup_delete_Some in Hp as [_ ?].
    + injection Hstep as <-. apply Hmove; [done|]. by left.
  - destruct (procs w !! p) as [pr|] eqn:Hp; [|done]. destruct (has_exited pr); [done|].
    injection Hstep as <-. destruct Inv as [H1 H2].
    set (w' := Mk _ _ _ _ _ _).
    assert (Hlater : forall serial q, started_for w serial q -> started_for w' serial q).
    { intros serial q Hs. apply (started_for_later w); [done| |done].
      intros q' _. cbn. destruct (decide (q' = p)) as [->|Hne].
      - by rewrite lookup_insert_eq, Hp.
      - by rewrite lookup_insert_ne. }
    split.
    + intros tid t q Ht Hpc. apply Hlater. by eapply H1.
    + intros serial q Hq. apply Hlater. by apply H2.
  - destruct (bool_decide _); [|done]. injection Hstep as <-.
    apply (handles_for_serial_same_processes w); [reflexivity|reflexivity| | |exact Inv]; cbn; by eauto.
Qed.

(** X11.  In every state the running program can reach, the handle
    stored under a serial refers to a process this program started, with
    the command line [<scrcpy> -s <serial> --window-title <title>] for
    that very serial: the sessions map never tracks a process under a
    serial other than the one it mirrors, nor a handle it did not
    create. *)
Theorem tracked_process_mirrors_its_serial (w : World) (serial : value) (p : nat) :
  reachable w ->
  active_mirrors (app w) !! serial = Some p ->
  (p < next_pid w)%nat
  /\ exists path s title,
       serial = VStr s
       /\ (argv <$> procs w !! p)
          = Some [path; txt "-s"; s; txt "--window-title"; title].
Proof.
  intros (fa & fs & ls & Hrun) Hp.
  assert (Hinv : handles_for_serial w).
  { eapply (run_steps_invariant handles_for_serial step_handles_for_serial); [|exact Hrun].
    split; [by intros tid t q Ht|by intros s0 q Hq]. }
  destruct Hinv as [_ H2]. exact (H2 serial p Hp).
Qed.

Lemma tracked_process_mirrors_its_serial_witness :
  exists path s title,
    VStr (txt "ABC") = VStr s
    /\ (argv <$> procs (world_after mirroring_trace) !! 0%nat)
       = Some [path; txt "-s"; s; txt "--window-title"; title].
Proof.
  assert (Hreach : reachable (world_after mirroring_trace)).
  { apply world_after_reachable. intros H. vm_compute in H. discriminate H. }
  assert (Htracked : active_mirrors (app (world_after mirroring_trace)) !! VStr (txt "ABC")
                     = Some 0%nat) by (vm_compute; reflexivity).
  exact (proj2 (tracked_process_mirrors_its_serial _ _ _ Hreach Htracked)).
Defined.

(** The threads' handles stay as [proc_bound] and [handles_fresh]
    say when a thread moves on without binding a handle. *)
Lemma threads_moved (w : World) (tid : nat) (t : launcher) (pc' : pc)
  (a : AndroidMirrorApp) (prs : gmap nat process) (mon : gset nat)
  (pst : list (poster * Z * ui_call)) :
  launchers w !! tid = Some t ->
  match pc' with
  | PcPopen => l_proc t = None
  | PcRegister p | PcStartMonitors p | PcWait p => l_proc t = Some p
  | _ => True
  end ->
  proc_bound w /\ handles_fresh w ->
  proc_bound (Mk a (<[tid := at_pc pc' t]> (launchers w)) prs (next_pid w) mon pst)
  /\ handles_fresh (Mk a (<[tid := at_pc pc' t]> (launchers w)) prs (next_pid w) mon pst).
Proof.
  intros Ht Hpc' [Hb [Hf1 Hf2]].
  assert (Hback : forall tid' u p,
            <[tid := at_pc pc' t]> (launchers w) !! tid' = Some u -> l_proc u = Some p ->
            exists u0, launchers w !! tid' = Some u0 /\ l_proc u0 = Some p).
  { intros tid' u p Hu Hp. destruct (launcher_updated w tid tid' t _ u Ht Hu)
      as [[-> ->]|[_ Hu']]; [by exists t|by exists u]. }
  split; [|split].
  - intros tid' u Hu. cbn in Hu.
    destruct (launcher_updated w tid tid' t _ u Ht Hu) as [[-> ->]|[_ Hu']];
      [exact Hpc'|exact (Hb _ _ Hu')].
  - intros tid' u p Hu Hp. cbn in Hu. destruct (Hback tid' u p Hu Hp) as (u0 & Hu0 & Hp0).
    cbn. by eapply Hf1.
  - intros tid1 tid2 t1 t2 p H1 H2 Hp1 Hp2. cbn in H1, H2.
    destruct (Hback tid1 t1 p H1 Hp1) as (u1 & Hu1 & Hq1).
    destruct (Hback tid2 t2 p H2 Hp2) as (u2 & Hu2 & Hq2).
    by eapply Hf2.
Qed.

Lemma threads_same (w : World) (a : AndroidMirrorApp) (prs : gmap nat process)
  (mon : gset nat) (pst : list (poster * Z * ui_call)) :
  proc_bound w /\ handles_fresh w ->
  proc_bound (Mk a (launchers w) prs (next_pid w) mon pst)
  /\ handles_fresh (Mk a (launchers w) prs (next_pid w) mon pst).
Proof. by intros [Hb [Hf1 Hf2]]. Qed.

Lemma step_threads (w w' : World) (l : label) :
  proc_bound w /\ handles_fresh w -> step w l = Some w' ->
  proc_bound w' /\ handles_fresh w'.
Proof.
  intros Inv Hstep. pose proof Inv as [Hb [Hf1 Hf2]].
  destruct l as [dev card|devices|fa fs|tid|tid e|tid|p|p line]; cbn [step] in Hstep.
  - destruct (_on_device_click _ _ _ _) as [[a [t|]]|] eqn:E; [| |done];
      injection Hstep as <-.
    + apply _on_device_click_started in E as (serial & _ & ->).
      assert (Hback : forall tid u,
                (launchers w ++ [Launcher serial dev card PcPopen None]) !! tid = Some u ->
                launchers w !! tid = Some u
                \/ u = Launcher serial dev card PcPopen None).
      { intros tid u Hu. apply lookup_app_Some in Hu as [Hu|[_ Hu]]; [by left|].
        apply list_lookup_singleton_Some in Hu as [_ <-]. by right. }
      split; [|split].
      * intros tid u Hu. cbn in Hu. destruct (Hback tid u Hu) as [Hu'| ->]; [exact (Hb _ _ Hu')|done].
      * intros tid u p Hu Hp. cbn in Hu. destruct (Hback tid u Hu) as [Hu'| ->]; [|done].
        cbn. by eapply Hf1.
      * intros tid1 tid2 t1 t2 p H1 H2 Hp1 Hp2. cbn in H1, H2.
        destruct (Hback tid1 t1 H1) as [H1'| ->]; [|done].
        destruct (Hback tid2 t2 H2) as [H2'| ->]; [|done].
        by eapply Hf2.
    + cbn. rewrite app_nil_r. by apply threads_same.
  - injection Hstep as <-. by apply threads_same.
  - injection Hstep as <-. by apply threads_same.
  - destruct (launchers w !! tid) as [t|] eqn:Ht; [|done].
    destruct (l_pc t) eqn:Hpc; try done. destruct (launch_cmd _ _); [|done].
    injection Hstep as <-.
    assert (Hback : forall tid' u q,
              <[tid := at_pc (PcRegister (next_pid w)) (with_proc (next_pid w) t)]>
                (launchers w) !! tid' = Some u ->
              l_proc u = Some q ->
              (tid' = tid /\ q = next_pid w)
              \/ (tid' <> tid /\ launchers w !! tid' = Some u /\ (q < next_pid w)%nat)).
    { intros tid' u q Hu Hq. destruct (launcher_updated w tid tid' t _ u Ht Hu)
        as [[-> ->]|[Hne Hu']].
      - left. cbn in Hq. split; congruence.
      - right. split_and!; [done..|]. by eapply Hf1. }
    split; [|split].
    + intros tid' u Hu. cbn in Hu.
      destruct (launcher_updated w tid tid' t _ u Ht Hu) as [[-> ->]|[_ Hu']];
        [done|exact (Hb _ _ Hu')].
    + intros tid' u q Hu Hq. cbn in Hu. cbn.
      destruct (Hback tid' u q Hu Hq) as [[_ ->]|(_ & _ & ?)]; lia.
    + intros tid1 tid2 t1 t2 q H1 H2 Hq1 Hq2. cbn in H1, H2.
      destruct (Hback tid1 t1 q H1 Hq1) as [[E1 Hn1]|(_ & H1' & Hlt1)],
               (Hback tid2 t2 q H2 Hq2) as [[E2 Hn2]|(_ & H2' & Hlt2)];
        [congruence|lia|lia|by eapply Hf2].
  - destruct (launchers w !! tid) as [t|] eqn:Ht; [|done].
    destruct (l_pc t); try done; injection Hstep as <-; by apply threads_moved.
  - destruct (launchers w !! tid) as [t|] eqn:Ht; [|done].
    pose proof (Hb tid t Ht) as Hbt.
    destruct (l_pc t) eqn:Hpc; try done; try destruct (running w proc); try done;
      injection Hstep as <-; by apply threads_moved.
  - destruct (procs w !! p) as [pr|]; [|done]. destruct (has_exited pr); [done|].
    injection Hstep as <-. by apply threads_same.
  - destruct (bool_decide _); [|done]. injection Hstep as <-. by apply threads_same.
Qed.

Lemma tracked_has_launcher_step (w w' : World) :
  (forall serial p, active_mirrors (app w') !! serial = Some p ->
      active_mirrors (app w) !! serial = Some p
      \/ exists tid t, launchers w' !! tid = Some t /\ l_serial t = serial
                       /\ l_proc t = Some p /\ holds_session t = true) ->
  (forall tid t p, launchers w !! tid = Some t -> l_proc t = Some p ->
      holds_session t = true ->
      active_mirrors (app w') !! l_serial t = Some p ->
      exists tid' t', launchers w' !! tid' = Some t' /\ l_serial t' = l_serial t
                      /\ l_proc t' = Some p /\ holds_session t' = true) ->
  tracked_has_launcher w -> tracked_has_launcher w'.
Proof.
  intros Hmap Hkeep Inv serial p Hp.
  destruct (Hmap serial p Hp) as [Hold|Hnew]; [|exact Hnew].
  destruct (Inv serial p Hold) as (tid & t & Ht & <- & Hproc & Hh). by eapply Hkeep.
Qed.

Lemma holds_session_at (t : launcher) (pc' : pc) :
  holds_session (at_pc pc' t)
  = match l_proc t, pc' with
    | Some _, (PcStartMonitors _ | PcWait _ | PcExcept _ | PcFinallyPop) => true
    | _, _ => false
    end.
Proof. done. Qed.

Lemma step_tracked_has_launcher (w w' : World) (l : label) :
  proc_bound w -> tracked_has_launcher w -> step w l = Some w' -> tracked_has_launcher w'.
Proof.
  intros Hbound Inv Hstep.
  assert (Hsame : forall a mon pst prs nxt extra,
            (forall serial p, active_mirrors a !! serial = Some p ->
                              active_mirrors (app w) !! serial = Some p) ->
            tracked_has_launcher (Mk a (launchers w ++ extra) prs nxt mon pst)).
  { intros a mon pst prs nxt extra Hsub.
    apply (tracked_has_launcher_step w); [| |exact Inv]; cbn.
    - intros serial p Hp. left. by apply Hsub.
    - intros tid t p Ht Hproc Hh _. exists tid, t. split_and!; [|done..].
      by apply lookup_app_l_Some. }
  assert (Hsame0 : forall a mon pst prs nxt,
            (forall serial p, active_mirrors a !! serial = Some p ->
                              active_mirrors (app w) !! serial = Some p) ->
            tracked_has_launcher (Mk a (launchers w) prs nxt mon pst)).
  { intros a mon pst prs nxt Hsub. rewrite <- (app_nil_r (launchers w)). by apply Hsame. }
  assert (Hthread : forall tid t t' a mon pst prs nxt,
            launchers w !! tid = Some t ->
            l_serial t' = l_serial t ->
            (holds_session t = true ->
             (holds_session t' = true /\ l_proc t' = l_proc t)
             \/ active_mirrors a !! l_serial t = None) ->
            (forall serial p, active_mirrors a !! serial = Some p ->
               active_mirrors (app w) !! serial = Some p
               \/ (serial = l_serial t /\ l_proc t' = Some p /\ holds_session t' = true)) ->
            tracked_has_launcher (Mk a (<[tid := t']> (launchers w)) prs nxt mon pst)).
  { intros tid t t' a mon pst prs nxt Ht Hser Hpop Hmap.
    assert (Hnew : <[tid := t']> (launchers w) !! tid = Some t').
    { apply list_lookup_insert_eq. by eapply lookup_lt_Some. }
    apply (tracked_has_launcher_step w); [| |exact Inv]; cbn.
    - intros serial p Hp. destruct (Hmap serial p Hp) as [?|(-> & Hproc & Hh)]; [by left|].
      right. by exists tid, t'.
    - intros tid0 t0 p Ht0 Hproc Hh Hp. destruct (decide (tid0 = tid)) as [->|Hne].
      + assert (t0 = t) as -> by congruence.
        destruct (Hpop Hh) as [[Hh' Hproc']|Hnone]; [|by rewrite Hnone in Hp].
        exists tid, t'. split_and!; [done..|congruence|done].
      + exists tid0, t0. split_and!; [|done..]. by rewrite list_lookup_insert_ne. }
  assert (Hmoved : forall tid t pc' a mon pst prs nxt,
            launchers w !! tid = Some t ->
            (holds_session t = true -> holds_session (at_pc pc' t) = false ->
             active_mirrors a !! l_serial t = None) ->
            (forall serial p, active_mirrors a !! serial = Some p ->
               active_mirrors (app w) !! serial = Some p
               \/ (serial = l_serial t /\ l_proc t = Some p
                   /\ holds_session (at_pc pc' t) = true)) ->
            tracked_has_launcher
              (Mk a (<[tid := at_pc pc' t]> (launchers w)) prs nxt mon pst)).
  { intros tid t pc' a mon pst prs nxt Ht Hpop Hmap.
    apply (Hthread tid t); [done|done| |done].
    intros Hh. destruct (holds_session (at_pc pc' t)) eqn:E; [by left|right; by apply Hpop]. }
  destruct l as [dev card|devices|fa fs|tid|tid e|tid|p|p line]; cbn [step] in Hstep.
  - destruct (_on_device_click _ _ _ _) as [[a started]|] eqn:E; [|done].
    injection Hstep as <-. apply Hsame. revert E. unfold _on_device_click.
    destruct (dict_item dev (txt "serial")) as [s0|]; [|done].
    destruct (scrcpy_path (app w)).
    + destruct (match active_mirrors (app w) !! s0 with
                | Some proc => running w proc | None => false end);
        intros [= <- <-]; cbn; [done|].
      intros serial p Hp. by apply lookup_delete_Some in Hp as [_ ?].
    + by intros [= <- <-].
  - injection Hstep as <-.
    destruct (_update_device_list_frame devices (app w)) as [_ Hmap].
    apply Hsame0. by rewrite Hmap.
  - injection Hstep as <-. destruct (_refresh_devices_frame fa fs (app w)) as [Hmap _].
    apply Hsame0. by rewrite Hmap.
  - destruct (launchers w !! tid) as [t|] eqn:Ht; [|done].
    destruct (l_pc t) eqn:Hpc; try done. destruct (launch_cmd _ _); [|done].
    injection Hstep as <-. apply (Hthread tid t); [done|done| |by left].
    unfold holds_session. rewrite Hpc. by destruct (l_proc t).
  - destruct (launchers w !! tid) as [t|] eqn:Ht; [|done].
    destruct (l_pc t) eqn:Hpc; try done; injection Hstep as <-;
      (apply Hmoved; [done| |by left]); rewrite holds_session_at;
      unfold holds_session; rewrite Hpc; by destruct (l_proc t).
  - destruct (launchers w !! tid) as [t|] eqn:Ht; [|done].
    pose proof (Hbound tid t Ht) as Hbt.
    destruct (l_pc t) eqn:Hpc; try done.
    + injection Hstep as <-. apply Hmoved; [done| |].
      * rewrite holds_session_at. by rewrite Hbt.
      * cbn. intros serial p Hp. apply lookup_insert_Some in Hp as [[<- <-]|[_ Hp]];
          [|by left].
        right. rewrite holds_session_at. by rewrite Hbt.
    + injection Hstep as <-. apply Hmoved; [done| |by left].
      rewrite holds_session_at. by rewrite Hbt.
    + destruct (running w proc); [done|]. injection Hstep as <-.
      apply Hmoved; [done| |by left]. rewrite holds_session_at. by rewrite Hbt.
    + injection Hstep as <-. apply Hmoved; [done| |by left].
      rewrite holds_session_at. unfold holds_session. rewrite Hpc. by destruct (l_proc t).
    + injection Hstep as <-. apply Hmoved; [done| |].
      * intros _ _. cbn. apply lookup_delete_eq.
      * cbn. intros serial p Hp. left. by apply lookup_delete_Some in Hp as [_ ?].
    + injection Hstep as <-. apply Hmoved; [done| |by left].
      unfold holds_session. rewrite Hpc. by destruct (l_proc t).
  - destruct (procs w !! p) as [pr|]; [|done]. destruct (has_exited pr); [done|].
    injection Hstep as <-. by apply Hsame0.
  - destruct (bool_decide _); [|done]. injection Hstep as <-.
    by apply Hsame0.
Qed.

(** The three facts about the threads' handles hold in every state the
    program can reach. *)
Lemma reachable_sessions_held (w : World) :
  reachable w -> proc_bound w /\ handles_fresh w /\ tracked_has_launcher w.
Proof.
  intros (fa & fs & ls & Hrun).
  enough ((proc_bound w /\ handles_fresh w) /\ tracked_has_launcher w) as [[? ?] ?]
    by done.
  eapply (run_steps_invariant
            (fun w => (proc_bound w /\ handles_fresh w) /\ tracked_has_launcher w));
    [| |exact Hrun].
  - intros w1 w2 l [Ht Hh] Hstep. split; [by eapply step_threads|].
    eapply step_tracked_has_launcher; [exact (proj1 Ht)|exact Hh|exact Hstep].
  - split; [split; [|split]|].
    + by intros tid t Ht.
    + by intros tid t p Ht.
    + by intros tid1 tid2 t1 t2 p Ht.
    + by intros s0 q Hq.
Qed.

(** X12.  No entry of the sessions map is left behind.  In every state
    the running program can reach, each tracked serial has a [launch]
    thread for that serial whose own handle is the one tracked, and which
    has stored it and not yet run the pop of its [finally] clause.  The
    [proc] of a thread is unbound until [Popen] has returned, so a thread
    whose [Popen] raised never counts as holding a session.  Once no
    thread holds a session (each has popped, has not yet stored a handle,
    or got none) the sessions map is empty. *)
Theorem no_session_outlives_its_launchers (w : World) :
  reachable w ->
  (forall serial p,
      active_mirrors (app w) !! serial = Some p ->
      exists tid t, launchers w !! tid = Some t /\ l_serial t = serial
                    /\ l_proc t = Some p /\ holds_session t = true)
  /\ (forall tid t, launchers w !! tid = Some t ->
        match l_pc t with
        | PcPopen => l_proc t = None
        | PcRegister p | PcStartMonitors p | PcWait p => l_proc t = Some p
        | _ => True
        end)
  /\ (forall tid t e w',
        launchers w !! tid = Some t -> l_pc t = PcPopen ->
        step w (Throw tid e) = Some w' ->
        exists t', launchers w' !! tid = Some t' /\ l_pc t' = PcExcept e
                   /\ holds_session t' = false)
  /\ (Forall (fun t => holds_session t = false) (launchers w) ->
      active_mirrors (app w) = ∅).
Proof.
  intros Hreach. destruct (reachable_sessions_held w Hreach) as (Hbound & _ & Hinv).
  split_and!; [exact Hinv|exact Hbound| |].
  - intros tid t e w' Ht Hpc. cbn [step]. rewrite Ht, Hpc. intros [= <-].
    exists (at_pc (PcExcept e) t). split_and!; [by apply (launcher_after_update tid t)|done|].
    rewrite holds_session_at. pose proof (Hbound tid t Ht) as Hb. rewrite Hpc in Hb.
    by rewrite Hb.
  - intros Hall. apply map_empty. intros serial.
    destruct (active_mirrors (app w) !! serial) as [p|] eqn:E; [|done].
    destruct (Hinv serial p E) as (tid & t & Ht & _ & _ & Hh).
    rewrite Forall_forall in Hall. rewrite (Hall t) in Hh; [done|].
    by eapply list_elem_of_lookup_2.
Qed.

Lemma no_session_outlives_its_launchers_witness :
  active_mirrors
    (app (world_after (exited_trace ++ [Advance 0%nat; Advance 0%nat; Advance 0%nat])))
  = ∅.
Proof.
  assert (Hreach : reachable
            (world_after (exited_trace ++ [Advance 0%nat; Advance 0%nat; Advance 0%nat]))).
  { apply world_after_reachable. intros H. vm_compute in H. discriminate H. }
  apply (proj2 (proj2 (proj2 (no_session_outlives_its_launchers _ Hreach)))).
  apply Forall_forall. intros t Ht. apply list_elem_of_lookup_1 in Ht as [i Hi].
  destruct i as [|i]; vm_compute in Hi; [|discriminate Hi]. by injection Hi as <-.
Defined.

(* ===================================================================== *)
(** * Further properties: the tool paths *)
(* ===================================================================== *)

Lemma run_steps_invariant_where (P : World -> Prop) (Q : label -> Prop) :
  (forall w w' l, Q l -> P w -> step w l = Some w' -> P w') ->
  forall ls w w', Forall Q ls -> P w -> run_steps w ls = Some w' -> P w'.
Proof.
  intros Hstep. induction ls as [|l ls IH]; intros w w' Hq Hw; cbn [run_steps].
  - by intros [= <-].
  - destruct (step w l) as [w1|] eqn:E; [|done].
    apply Forall_cons in Hq as [Hl Hq]. apply IH; [done|]. by eapply Hstep.
Qed.

Lemma build_cards_paths (devices : list (gmap str value)) (a : AndroidMirrorApp) :
  adb_path (build_cards devices a).2 = adb_path a
  /\ toasts (build_cards devices a).2 = toasts a.
Proof.
  revert a. induction devices as [|d ds IH]; intros a; cbn [build_cards]; [done|].
  destruct (DeviceCard_init d) as [card|]; [|done].
  by destruct (IH (with_cards (device_cards a ++ [next_widget a])
                     (<[next_widget a := card]> (widgets a)) (S (next_widget a)) a))
    as [-> ->].
Qed.

(** Whether it returns or raises, a poll leaves the path of the bridge
    tool and the toasts alone. *)
Lemma _update_device_list_paths (devices : list (gmap str value)) (a : AndroidMirrorApp) :
  adb_path (_update_device_list devices a).2 = adb_path a
  /\ toasts (_update_device_list devices a).2 = toasts a.
Proof.
  unfold _update_device_list.
  destruct (serial_set (current_devices a)); [|done].
  destruct (serial_set devices); [|done].
  destruct (_ && _).
  - by destruct (length devices) as [|[|n]].
  - destruct devices as [|d ds]; [done|].
    match goal with
    | |- context [build_cards ?ds0 ?x] => destruct (build_cards_paths ds0 x) as [-> ->]
    end.
    cbn. by destruct (length ds).
Qed.

Lemma _on_device_click_adb (alive : nat -> bool) (dev : gmap str value) (card : nat)
  (a a' : AndroidMirrorApp) (started : option launcher) :
  _on_device_click alive dev card a = Ok (a', started) -> adb_path a' = adb_path a.
Proof.
  unfold _on_device_click. destruct (dict_item dev (txt "serial")) as [serial|]; [|done].
  destruct (scrcpy_path a).
  - destruct (match active_mirrors a !! serial with Some proc => alive proc | None => false end);
      by intros [= <- <-].
  - by intros [= <- <-].
Qed.

Lemma step_keeps_tools (w w' : World) (l : label) :
  step w l = Some w' ->
  (forall p, adb_path (app w) = Some p -> adb_path (app w') = Some p)
  /\ (forall p, scrcpy_path (app w) = Some p -> scrcpy_path (app w') = Some p).
Proof.
  intros Hstep.
  destruct l as [dev card|devices|fa fs|tid|tid e|tid|p|p line]; cbn [step] in Hstep.
  - destruct (_on_device_click _ _ _ _) as [[a started]|] eqn:E; [|done].
    injection Hstep as <-. cbn. rewrite (_on_device_click_adb _ _ _ _ _ _ E).
    apply _on_device_click_frame in E as [-> _]. done.
  - injection Hstep as <-. cbn.
    destruct (_update_device_list_paths devices (app w)) as [-> _].
    destruct (_update_device_list_frame devices (app w)) as [-> _]. done.
  - injection Hstep as <-. cbn. unfold _refresh_devices.
    split; intros p Hp; destruct (adb_path (app w)) as [q|], (scrcpy_path (app w)) as [r|];
      try done; destruct fa; cbn; done.
  - destruct (launchers w !! tid) as [t|]; [|done].
    destruct (l_pc t); try done. destruct (launch_cmd _ _); [|done]. by injection Hstep as <-.
  - destruct (launchers w !! tid) as [t|]; [|done].
    destruct (l_pc t); try done; by injection Hstep as <-.
  - destruct (launchers w !! tid) as [t|]; [|done].
    destruct (l_pc t); try done; try destruct (running w proc); try done;
      by injection Hstep as <-.
  - destruct (procs w !! p) as [pr|]; [|done]. destruct (has_exited pr); [done|].
    by injection Hstep as <-.
  - destruct (bool_decide _); [|done]. by injection Hstep as <-.
Qed.

(** X13.  A tool path, once found, stays: along every run of the
    program the path of the bridge tool and the path of the mirroring
    tool, once set, are never replaced and never lost, whatever the later
    lookups of [_refresh_devices] find. *)
Theorem found_tools_are_kept (ls : list label) (w w' : World) (p : str) :
  run_steps w ls = Some w' ->
  (adb_path (app w) = Some p -> adb_path (app w') = Some p)
  /\ (scrcpy_path (app w) = Some p -> scrcpy_path (app w') = Some p).
Proof.
  intros Hrun. split; intros Hp.
  - eapply (run_steps_invariant (fun w => adb_path (app w) = Some p)); [|exact Hp|exact Hrun].
    intros w1 w2 l H1 Hstep. by apply (step_keeps_tools w1 w2 l Hstep).
  - eapply (run_steps_invariant (fun w => scrcpy_path (app w) = Some p));
      [|exact Hp|exact Hrun].
    intros w1 w2 l H1 Hstep. by apply (step_keeps_tools w1 w2 l Hstep).
Qed.

Lemma found_tools_are_kept_witness :
  exists w',
    run_steps (initial (Some (txt "adb")) (Some (txt "scrcpy")))
              [Refresh (Some (txt "other-adb")) None] = Some w'
    /\ adb_path (app w') = Some (txt "adb")
    /\ scrcpy_path (app w') = Some (txt "scrcpy").
Proof.
  eexists. split; [reflexivity|].
  split.
  - apply (proj1 (found_tools_are_kept [Refresh (Some (txt "other-adb")) None] _ _
                    (txt "adb") eq_refl)). reflexivity.
  - apply (proj2 (found_tools_are_kept [Refresh (Some (txt "other-adb")) None] _ _
                    (txt "scrcpy") eq_refl)). reflexivity.
Defined.

Lemma lookups_off_windows (SYSTEM TOOLS_DIR : str) (join : list str -> str)
  (isfile : str -> bool) :
  SYSTEM <> txt "Windows" ->
  _find_bundled_adb SYSTEM TOOLS_DIR join isfile = None
  /\ _find_bundled_scrcpy SYSTEM TOOLS_DIR join isfile = None
  /\ _find_zadig SYSTEM TOOLS_DIR join isfile = None.
Proof.
  intros H. unfold _find_bundled_adb, _find_bundled_scrcpy, _find_zadig.
  by rewrite bool_decide_eq_false_2.
Qed.

Lemma step_nothing_started (w w' : World) (l : label) :
  match l with Refresh None None => True | Refresh _ _ => False | _ => True end ->
  nothing_started w -> step w l = Some w' -> nothing_started w'.
Proof.
  intros Hl (Hadb & Hscr & Hth & Hpr & Hmap & Hmon & Hpost & Htoast) Hstep.
  unfold nothing_started.
  destruct l as [dev card|devices|fa fs|tid|tid e|tid|p|p line]; cbn [step] in Hstep.
  - unfold _on_device_click in Hstep.
    destruct (dict_item dev (txt "serial")) as [serial|]; [|done].
    rewrite Hscr in Hstep. injection Hstep as <-. cbn. rewrite Hth.
    split_and!; try done. apply Forall_app. split; [done|]. by repeat constructor.
  - injection Hstep as <-. cbn.
    destruct (_update_device_list_paths devices (app w)) as [-> ->].
    destruct (_update_device_list_frame devices (app w)) as [-> ->]. done.
  - destruct fa, fs; try done. injection Hstep as <-. cbn. unfold _refresh_devices.
    rewrite Hadb, Hscr. cbn. done.
  - by rewrite Hth in Hstep.
  - by rewrite Hth in Hstep.
  - by rewrite Hth in Hstep.
  - by rewrite Hpr, lookup_empty in Hstep.
  - rewrite Hmon in Hstep. by rewrite bool_decide_eq_false_2 in Hstep by set_solver.
Qed.

(** X14.  On any platform other than Windows the tool lookups find
    nothing, and then nothing is ever started: along every run whose
    refreshes report what the lookups find, both tool paths stay unset, no
    [launch] thread, process, session or callback exists, and every click
    is answered by the "scrcpy not found" toast alone. *)
Theorem nothing_is_launched_off_windows
  (SYSTEM TOOLS_DIR : str) (join : list str -> str) (isfile : str -> bool)
  (ls : list label) (w : World) :
  SYSTEM <> txt "Windows" ->
  Forall (refresh_by_lookup SYSTEM TOOLS_DIR join) ls ->
  run_steps (initial (_find_bundled_adb SYSTEM TOOLS_DIR join isfile)
                     (_find_bundled_scrcpy SYSTEM TOOLS_DIR join isfile)) ls = Some w ->
  nothing_started w.
Proof.
  intros Hsys Hls Hrun.
  destruct (lookups_off_windows SYSTEM TOOLS_DIR join isfile Hsys) as (Ea & Es & _).
  rewrite Ea, Es in Hrun.
  assert (Hq : Forall (fun l => match l with
                               | Refresh None None => True
                               | Refresh _ _ => False
                               | _ => True
                               end) ls).
  { apply Forall_forall. intros l Hin. rewrite Forall_forall in Hls.
    specialize (Hls l Hin). destruct l as [| |fa fs| | | | |]; try done.
    destruct Hls as (isfile' & -> & ->).
    by destruct (lookups_off_windows SYSTEM TOOLS_DIR join isfile' Hsys) as (-> & -> & _). }
  refine (run_steps_invariant_where nothing_started _ _ ls _ w Hq _ Hrun).
  - intros w1 w2 l. apply step_nothing_started.
  - unfold nothing_started. cbn. split_and!; done.
Qed.

Lemma nothing_is_launched_off_windows_witness :
  nothing_started
    (Mk (_show_toast (txt "scrcpy not found — see README for setup.") RED
           (with_cards [] (alter reset_state 0%nat ∅) 0%nat
              (app (initial None None))))
        [] ∅ 0%nat ∅ []).
Proof.
  apply (nothing_is_launched_off_windows (txt "Darwin") (txt "/opt/app/tools")
           (fun parts => concat parts) (fun _ => true)
           [Click sample_device 0%nat]).
  - literals_differ.
  - repeat constructor.
  - vm_compute. reflexivity.
Defined.

(* ===================================================================== *)
(** * Further properties: file modes and the environment *)
(* ===================================================================== *)

Lemma testbit_pow2 (k i : Z) : 0 <= k -> Z.testbit (2 ^ k) i = (k =? i).
Proof.
  intros Hk. destruct (Z.ltb_spec i 0) as [Hneg|Hpos].
  - rewrite Z.testbit_neg_r by done. symmetry. apply Z.eqb_neq. lia.
  - by apply Z.pow2_bits_eqb.
Qed.

Lemma land_exec (m : Z) : Z.land m S_IEXEC = if Z.testbit m 6 then S_IEXEC else 0.
Proof.
  apply Z.bits_inj'. intros n Hn. rewrite Z.land_spec.
  change S_IEXEC with (2 ^ 6). rewrite testbit_pow2 by lia.
  destruct (Z.eqb_spec 6 n) as [<-|Hne].
  - rewrite andb_true_r. destruct (Z.testbit m 6) eqn:E; [|by rewrite Z.bits_0].
    by rewrite testbit_pow2.
  - rewrite andb_false_r. destruct (Z.testbit m 6); [|by rewrite Z.bits_0].
    rewrite testbit_pow2 by lia. symmetry. by apply Z.eqb_neq.
Qed.

Lemma exec_bits (m i : Z) :
  Z.testbit (Z.lor (Z.lor (Z.lor m S_IEXEC) S_IXGRP) S_IXOTH) i
  = Z.testbit m i || (6 =? i) || (3 =? i) || (0 =? i).
Proof.
  rewrite !Z.lor_spec. change S_IEXEC with (2 ^ 6). change S_IXGRP with (2 ^ 3).
  change S_IXOTH with (2 ^ 0). by rewrite !testbit_pow2 by lia.
Qed.

(** X15.  [_ensure_executable] raises FileNotFoundError for a missing
    path.  When it returns, the owner may execute the file, no permission
    or type bit of the file has been cleared, only the three execute bits
    can have changed, and no other file is touched.  A file whose owner
    could already execute it is left exactly as it was, even when group
    and others may not execute it; otherwise all three execute bits are
    set.  Applying it again changes nothing. *)
Theorem ensure_executable_only_adds_execute_bits
  (may_chmod : str -> bool) (path : str) (fs : gmap str Z) :
  (fs !! path = None -> _ensure_executable may_chmod path fs = Raise FileNotFoundError)
  /\ forall fs',
      _ensure_executable may_chmod path fs = Ok fs' ->
      exists mode mode',
        fs !! path = Some mode /\ fs' !! path = Some mode'
        /\ Z.testbit mode' 6 = true
        /\ (forall i, Z.testbit mode i = true -> Z.testbit mode' i = true)
        /\ (forall i, i <> 0 -> i <> 3 -> i <> 6 -> Z.testbit mode' i = Z.testbit mode i)
        /\ (Z.testbit mode 6 = true -> fs' = fs)
        /\ (Z.testbit mode 6 = false ->
            Z.testbit mode' 3 = true /\ Z.testbit mode' 0 = true)
        /\ (forall other, other <> path -> fs' !! other = fs !! other)
        /\ _ensure_executable may_chmod path fs' = Ok fs'.
Proof.
  split.
  - intros H. unfold _ensure_executable. by rewrite H.
  - intros fs'. unfold _ensure_executable.
    destruct (fs !! path) as [mode|] eqn:Hmode; [|done].
    rewrite land_exec. destruct (Z.testbit mode 6) eqn:Hbit.
    + change (S_IEXEC =? 0) with false. intros [= <-].
      exists mode, mode. split_and!; try done; [congruence|].
      unfold _ensure_executable. rewrite Hmode, land_exec, Hbit. done.
    + change (0 =? 0) with true. destruct (may_chmod path); [|done]. intros [= <-].
      eexists mode, _. split_and!; [done|apply lookup_insert_eq|..].
      * rewrite exec_bits. cbn. by rewrite orb_true_r.
      * intros i Hi. rewrite exec_bits, Hi. done.
      * intros i H0 H3 H6. rewrite exec_bits.
        destruct (Z.eqb_spec 6 i), (Z.eqb_spec 3 i), (Z.eqb_spec 0 i); try lia.
        by rewrite !orb_false_r.
      * congruence.
      * intros _. rewrite !exec_bits. cbn. by rewrite !orb_true_r.
      * intros other Hne. by rewrite lookup_insert_ne.
      * unfold _ensure_executable.
        rewrite lookup_insert_eq, land_exec, exec_bits. cbn. by rewrite orb_true_r.
Qed.

Lemma ensure_executable_only_adds_execute_bits_witness :
  exists mode mode',
    ({[ txt "adb" := 420 ]} : gmap str Z) !! txt "adb" = Some mode
    /\ (<[txt "adb" := Z.lor (Z.lor (Z.lor 420 S_IEXEC) S_IXGRP) S_IXOTH]>
          ({[ txt "adb" := 420 ]} : gmap str Z)) !! txt "adb" = Some mode'
    /\ Z.testbit mode' 6 = true.
Proof.
  assert (H : _ensure_executable (fun _ => true) (txt "adb") {[ txt "adb" := 420 ]}
              = Ok (<[txt "adb" := Z.lor (Z.lor (Z.lor 420 S_IEXEC) S_IXGRP) S_IXOTH]>
                      ({[ txt "adb" := 420 ]} : gmap str Z))).
  { unfold _ensure_executable. rewrite lookup_singleton_eq. reflexivity. }
  destruct (proj2 (ensure_executable_only_adds_execute_bits (fun _ => true) (txt "adb")
                     {[ txt "adb" := 420 ]}) _ H)
    as (mode & mode' & H1 & H2 & H3 & _).
  by exists mode, mode'.
Defined.

(** X16.  The environment [_build_env] hands to the mirroring tool:
    [ADB] is the path of the bridge tool, every variable other than [ADB]
    and [PATH] is inherited unchanged, and, when neither tool directory
    contains the path separator, the search path consists of the
    directory of the mirroring tool, then the directory of the bridge
    tool, then the entries of the inherited search path in their order
    (one empty entry when none was inherited). *)
Theorem build_env_puts_tool_directories_first
  (dirname : str -> str) (pathsep : ascii) (environ : gmap str str)
  (adb_path scrcpy_path : str) :
  _build_env dirname pathsep environ adb_path scrcpy_path !! txt "ADB" = Some adb_path
  /\ (forall k, k <> txt "ADB" -> k <> txt "PATH" ->
        _build_env dirname pathsep environ adb_path scrcpy_path !! k = environ !! k)
  /\ (pathsep ∉ dirname scrcpy_path -> pathsep ∉ dirname adb_path ->
      exists path,
        _build_env dirname pathsep environ adb_path scrcpy_path !! txt "PATH" = Some path
        /\ split_sep pathsep path
           = dirname scrcpy_path :: dirname adb_path
               :: split_sep pathsep (default [] (environ !! txt "PATH"))).
Proof.
  unfold _build_env. split_and!.
  - rewrite lookup_insert_ne by literals_differ. apply lookup_insert_eq.
  - intros k Hadb Hpath. by rewrite !lookup_insert_ne.
  - intros Hs Ha. eexists. split; [apply lookup_insert_eq|].
    rewrite lookup_insert_ne by literals_differ.
    rewrite <- !app_assoc. cbn [app].
    change ([pathsep] ++ ?x) with (pathsep :: x).
    rewrite split_sep_first by done.
    change ((pathsep :: dirname adb_path) ++ ?x) with (pathsep :: dirname adb_path ++ x).
    f_equal. cbn. by rewrite split_sep_first.
Qed.

Lemma build_env_puts_tool_directories_first_witness :
  exists path,
    _build_env (before "/") ";" ∅ (txt "C:\t/adb.exe") (txt "C:\s/scrcpy.exe") !! txt "PATH"
    = Some path
    /\ split_sep ";" path
       = before "/" (txt "C:\s/scrcpy.exe") :: before "/" (txt "C:\t/adb.exe")
           :: split_sep ";" (default [] ((∅ : gmap str str) !! txt "PATH")).
Proof.
  apply (proj2 (proj2 (build_env_puts_tool_directories_first (before "/") ";" ∅
                         (txt "C:\t/adb.exe") (txt "C:\s/scrcpy.exe")))).
  - intros H. vm_compute in H.
    by repeat (apply elem_of_cons in H as [H|H]; [discriminate H|]); apply elem_of_nil in H.
  - intros H. vm_compute in H.
    by repeat (apply elem_of_cons in H as [H|H]; [discriminate H|]); apply elem_of_nil in H.
Defined.

(* ===================================================================== *)
(** * Further properties: the click latch and shutdown *)
(* ===================================================================== *)

(** X17.  The click latch of a card.  A click on a card whose device is
    unauthorized, or whose latch is set, changes nothing and starts
    nothing.  A click that starts a [launch] thread leaves the card
    latched in the application, the thread is for the serial and device
    of that card, and every further click on the latched card changes
    nothing, whatever the processes do.  A click on an unlatched card that
    starts nothing (scrcpy missing, or a live session for the serial)
    leaves the card unlatched and the sessions map as it was, so the
    card can be clicked again. *)
Theorem click_latch_admits_one_launch
  (alive : nat -> bool) (id : nat) (card : DeviceCard) (a : AndroidMirrorApp)
  (status : value) :
  device card !! txt "status" = Some status ->
  (status = VStr (txt "unauthorized") -> _handle_click alive id card a = Ok (a, None))
  /\ (_is_mirroring card = true -> _handle_click alive id card a = Ok (a, None))
  /\ (forall a' t,
        _handle_click alive id card a = Ok (a', Some t) ->
        status <> VStr (txt "unauthorized")
        /\ _is_mirroring card = false
        /\ (exists serial, device card !! txt "serial" = Some serial
                           /\ t = Launcher serial (device card) id PcPopen None)
        /\ widgets a' !! id = Some (Card (device card) true (destroyed card))
        /\ forall alive',
             _handle_click alive' id (Card (device card) true (destroyed card)) a'
             = Ok (a', None))
  /\ (forall a',
        status <> VStr (txt "unauthorized") ->
        _is_mirroring card = false ->
        _handle_click alive id card a = Ok (a', None) ->
        widgets a' !! id = Some (Card (device card) false (destroyed card))
        /\ active_mirrors a' = active_mirrors a).
Proof.
  intros Hstatus. unfold _handle_click, dict_item. rewrite Hstatus. split_and!.
  - intros ->. by rewrite bool_decide_true.
  - intros ->. by destruct (bool_decide _).
  - intros a' t. destruct (bool_decide_reflect (status = VStr (txt "unauthorized"))) as [|Hne];
      [done|].
    destruct (_is_mirroring card) eqn:Hlatch; [done|]. intros Hclick.
    split_and!; [done|done|..].
    + apply _on_device_click_started in Hclick as (serial & Hs & ->). by exists serial.
    + revert Hclick. unfold _on_device_click, dict_item.
      destruct (device card !! txt "serial") as [serial|]; [|done].
      cbn [scrcpy_path with_cards]. destruct (scrcpy_path a); [|done].
      destruct (match _ with Some proc => alive proc | None => false end); [done|].
      intros [= <- _]. cbn. apply lookup_insert_eq.
    + intros alive'. cbn [device _is_mirroring]. rewrite Hstatus.
      by rewrite bool_decide_false.
  - intros a' Hne Hlatch. rewrite bool_decide_false, Hlatch by done.
    unfold _on_device_click, dict_item.
    destruct (device card !! txt "serial") as [serial|]; [|done].
    cbn [scrcpy_path with_cards]. destruct (scrcpy_path a).
    + destruct (match _ with Some proc => alive proc | None => false end); [|done].
      intros [= <-]. cbn. by rewrite lookup_alter_eq, lookup_insert_eq.
    + intros [= <-]. cbn. by rewrite lookup_alter_eq, lookup_insert_eq.
Qed.

Lemma click_latch_admits_one_launch_witness :
  _handle_click (fun _ => false) 0%nat
    (Card {[ txt "status" := VStr (txt "unauthorized") ]} false false) sample_app
  = Ok (sample_app, None).
Proof.
  apply (proj1 (click_latch_admits_one_launch (fun _ => false) 0%nat
                  (Card {[ txt "status" := VStr (txt "unauthorized") ]} false false)
                  sample_app (VStr (txt "unauthorized")) (lookup_singleton_eq _ _))).
  reflexivity.
Defined.

Lemma elem_of_destroy_terminates (w : World) (p : nat) :
  p ∈ destroy_terminates w
  <-> running w p = true /\ exists serial, active_mirrors (app w) !! serial = Some p.
Proof.
  unfold destroy_terminates.
  rewrite elem_of_list_to_set, list_elem_of_In, filter_In, in_map_iff. split.
  - intros [([k v] & Hsnd & Hin) Hrun]. cbn in Hsnd. subst v. split; [done|].
    exists k. by apply elem_of_map_to_list, list_elem_of_In.
  - intros [Hrun (serial & Hs)]. split; [|done]. exists (serial, p). split; [done|].
    by apply list_elem_of_In, elem_of_map_to_list.
Qed.

(** X18.  What closing the window terminates.  In every state the
    running program can reach, every process [destroy] sends
    [terminate()] to is tracked and has not exited, was started by this
    program as the mirror of the serial it is tracked for, and is the
    own handle of a [launch] thread for that serial that has stored it
    and not yet popped it.  Every tracked process that has not exited is
    terminated.  A process whose thread has not stored its handle yet
    ([Popen] has returned, the store has not run) is not terminated, and
    neither is any other process that is not in the sessions map. *)
Theorem shutdown_terminates_live_sessions (w : World) (p : nat) :
  reachable w ->
  (p ∈ destroy_terminates w ->
   exists serial pr tid t,
     active_mirrors (app w) !! serial = Some p
     /\ procs w !! p = Some pr /\ has_exited pr = false
     /\ (exists path s title,
           serial = VStr s
           /\ argv pr = [path; txt "-s"; s; txt "--window-title"; title])
     /\ launchers w !! tid = Some t /\ l_serial t = serial
     /\ l_proc t = Some p /\ holds_session t = true)
  /\ (forall serial,
        active_mirrors (app w) !! serial = Some p -> running w p = true ->
        p ∈ destroy_terminates w)
  /\ (forall tid t,
        launchers w !! tid = Some t -> l_pc t = PcRegister p ->
        p ∉ destroy_terminates w)
  /\ ((forall serial, active_mirrors (app w) !! serial <> Some p) ->
      p ∉ destroy_terminates w).
Proof.
  intros Hreach. pose proof Hreach as (fa & fs & ls & Hrun).
  assert (Hinv : handles_for_serial w).
  { eapply (run_steps_invariant handles_for_serial step_handles_for_serial); [|exact Hrun].
    split; [by intros tid t q Ht|by intros s0 q Hq]. }
  destruct (reachable_sessions_held w Hreach) as (Hbound & [_ Hfresh] & Hhold).
  split_and!.
  - intros [Halive (serial & Hs)]%elem_of_destroy_terminates.
    destruct (proj2 Hinv serial p Hs) as (_ & path & s & title & -> & Hargv).
    unfold running in Halive. destruct (procs w !! p) as [pr|] eqn:Hpr; [|done].
    destruct (Hhold _ _ Hs) as (tid & t & Ht & Hser & Hproc & Hh).
    exists (VStr s), pr, tid, t.
    split_and!; [done|done|by destruct (has_exited pr)| |done..].
    exists path, s, title. split; [done|]. cbn in Hargv. by injection Hargv.
  - intros serial Hs Halive. apply elem_of_destroy_terminates. split; [done|by exists serial].
  - intros tid t Ht Hpc [_ (serial & Hs)]%elem_of_destroy_terminates.
    destruct (Hhold _ _ Hs) as (tid0 & t0 & Ht0 & _ & Hproc0 & Hh0).
    pose proof (Hbound tid t Ht) as Hb. rewrite Hpc in Hb.
    assert (tid0 = tid) as -> by (by eapply Hfresh).
    assert (t0 = t) as -> by congruence.
    unfold holds_session in Hh0. rewrite Hpc in Hh0. by destruct (l_proc t).
  - intros Hnot [_ (serial & Hs)]%elem_of_destroy_terminates. by apply (Hnot serial).
Qed.

Lemma shutdown_terminates_live_sessions_witness :
  0%nat ∈ destroy_terminates (world_after mirroring_trace).
Proof.
  assert (Hreach : reachable (world_after mirroring_trace)).
  { apply world_after_reachable. intros H. vm_compute in H. discriminate H. }
  apply (proj1 (proj2 (shutdown_terminates_live_sessions (world_after mirroring_trace)
                         0%nat Hreach)) (VStr (txt "ABC"))).
  - vm_compute. reflexivity.
  - vm_compute. reflexivity.
Defined.

(* ===================================================================== *)
(** * Further properties: the placeholder of the empty list *)
(* ===================================================================== *)

Lemma _on_device_click_view (alive : nat -> bool) (dev : gmap str value) (card : nat)
  (a a' : AndroidMirrorApp) (started : option launcher) :
  _on_device_click alive dev card a = Ok (a', started) ->
  current_devices a' = current_devices a
  /\ device_count_label a' = device_count_label a
  /\ empty_frame a' = empty_frame a
  /\ adb_path a' = adb_path a.
Proof.
  unfold _on_device_click. destruct (dict_item dev (txt "serial")) as [serial|]; [|done].
  destruct (scrcpy_path a).
  - destruct (match active_mirrors a !! serial with Some proc => alive proc | None => false end);
      by intros [= <- <-].
  - by intros [= <- <-].
Qed.

Lemma step_placeholder_as_built (fa : option str) (built : empty_content)
  (w w' : World) (l : label) :
  lists_no_device l ->
  placeholder_as_built fa built (app w) ->
  step w l = Some w' ->
  placeholder_as_built fa built (app w').
Proof.
  unfold placeholder_as_built. intros Hl (Hcur & Hlabel & Hbuilt & Hnone & Hsome) Hstep.
  destruct l as [dev card|devices|fa' fs'|tid|tid e|tid|p|p line]; cbn [step] in Hstep.
  - destruct (_on_device_click _ _ _ _) as [[a started]|] eqn:E; [|done].
    injection Hstep as <-. cbn.
    apply _on_device_click_view in E as (-> & -> & -> & ->). done.
  - cbn in Hl. subst devices. unfold _update_device_list in Hstep.
    rewrite Hcur in Hstep. cbn in Hstep. injection Hstep as <-. cbn.
    rewrite Hlabel. done.
  - injection Hstep as <-. cbn. unfold _refresh_devices.
    destruct (adb_path (app w)) as [p|] eqn:Hadb; cbn.
    { by split_and!. }
    destruct fa as [q|]; [by destruct (Hsome ltac:(done))|].
    destruct fa' as [q|]; cbn.
    + split_and!; try done.
    + split_and!; try done. by rewrite Hnone.
  - destruct (launchers w !! tid) as [t|]; [|done].
    destruct (l_pc t); try done. destruct (launch_cmd _ _); [|done]. by injection Hstep as <-.
  - destruct (launchers w !! tid) as [t|]; [|done].
    destruct (l_pc t); try done; by injection Hstep as <-.
  - destruct (launchers w !! tid) as [t|]; [|done].
    destruct (l_pc t); try done; try destruct (running w proc); try done;
      by injection Hstep as <-.
  - destruct (procs w !! p) as [pr|]; [|done]. destruct (has_exited pr); [done|].
    by injection Hstep as <-.
  - destruct (bool_decide _); [|done]. by injection Hstep as <-.
Qed.

(** X19.  The placeholder of the empty list waits for a change of the
    device set.  Along every run in which no poll has listed a device,
    whatever is clicked, refreshed or found meanwhile: no device is
    stored and the count label stays blank; the content of the
    placeholder is still the one built at startup, so after a start
    without the bridge tool it keeps saying that the tool is missing even
    once a later refresh has found it; and after a start with the bridge
    tool found, the placeholder is not shown at all. *)
Theorem placeholder_waits_for_a_listed_device
  (found_adb found_scrcpy : option str) (ls : list label) (w : World) :
  Forall lists_no_device ls ->
  run_steps (initial found_adb found_scrcpy) ls = Some w ->
  current_devices (app w) = []
  /\ device_count_label (app w) = ([], TEXT_MUTED)
  /\ (empty_frame (app w)).1 = (empty_frame (app (initial found_adb found_scrcpy))).1
  /\ (found_adb = None -> (empty_frame (app w)).1 = AdbNotFound)
  /\ (found_adb <> None -> (empty_frame (app w)).2 = false).
Proof.
  intros Hq Hrun.
  assert (Hinv : placeholder_as_built found_adb
                   (empty_frame (app (initial found_adb found_scrcpy))).1 (app w)).
  { refine (run_steps_invariant_where
              (fun w => placeholder_as_built found_adb
                          (empty_frame (app (initial found_adb found_scrcpy))).1 (app w))
              _ _ ls _ w Hq _ Hrun).
    - intros w1 w2 l. apply step_placeholder_as_built.
    - unfold placeholder_as_built. cbn. split_and!; try done.
      by destruct found_adb. }
  destruct Hinv as (Hcur & Hlabel & Hbuilt & Hnone & Hsome).
  split_and!; try done.
  - intros H. by rewrite Hbuilt, Hnone.
  - intros H. by apply Hsome.
Qed.

Lemma placeholder_waits_for_a_listed_device_witness :
  match run_steps (initial None None)
          [Refresh None None; Refresh (Some (txt "adb")) (Some (txt "scrcpy")); Poll []] with
  | Some w => adb_path (app w) = Some (txt "adb")
              /\ (empty_frame (app w)).1 = AdbNotFound
  | None => False
  end.
Proof.
  destruct (run_steps (initial None None)
              [Refresh None None; Refresh (Some (txt "adb")) (Some (txt "scrcpy")); Poll []])
    as [w|] eqn:E.
  - split.
    + vm_compute in E. by injection E as <-.
    + apply (placeholder_waits_for_a_listed_device None None
               [Refresh None None; Refresh (Some (txt "adb")) (Some (txt "scrcpy")); Poll []]
               w); [|exact E|reflexivity].
      by repeat constructor.
  - vm_compute in E. discriminate E.
Defined.
